(** * construct_boundary: a shallow embedding of the boundary recommendation engine

    The development follows [cmd/construct_boundary/main.go].  Go's [int] is
    modelled by [Z] (all quantities that occur stay far inside the 64-bit
    range), slices by [list], [float64] by Rocq's primitive binary64 floats,
    [map[string]bool] by a [gmap string bool], and the effects of the cache
    and of the HTTP client by explicit state passing. *)

From Stdlib Require Import ZArith Floats Ascii String List Lia Sorted Permutation.
From Stdlib.Strings Require Import Byte.
From stdpp Require Import gmap strings list pretty sorting.

Open Scope Z_scope.

(** ** Integer helpers ([max], [min], [abs]) and [clamp] *)

Definition max (a b : Z) : Z := if a >? b then a else b.
Definition min (a b : Z) : Z := if a <? b then a else b.
Definition abs (value : Z) : Z := if value <? 0 then - value else value.

Definition clamp (value minValue maxValue : float) : float :=
  if PrimFloat.ltb value minValue then minValue
  else if PrimFloat.ltb maxValue value then maxValue
  else value.

(** [len(s)] as a Go [int]. *)
Definition len {A} (l : list A) : Z := Z.of_nat (length l).

(** [s[i]] for an index the surrounding code has already checked to be in
    range; [d] is never observed on such an index. *)
Definition idx {A} (d : A) (l : list A) (i : Z) : A :=
  if i <? 0 then d else default d (l !! Z.to_nat i).

(** ** Data model *)

Record rangeInfo := mkRange {
  ri_Start : Z;
  ri_End : Z;
  ri_Name : string;
  ri_Type : string;
  ri_Source : string
}.

Record pdbRange := mkPdb {
  pdb_ID : string;
  pdb_Start : Z;
  pdb_End : Z;
  pdb_Method : string;
  pdb_Resolution : string
}.

Record evidence := mkEvidence {
  ev_PDBMatch : string;
  ev_Domain : string;
  ev_AvgPLDDT : float;
  ev_DisorderFraction : float
}.

Record boundaryContext := mkCtx {
  ctx_Length : Z;
  ctx_Disorder : list bool;
  ctx_PLDDT : list float;
  ctx_DomainRanges : list rangeInfo;
  ctx_PDBRanges : list pdbRange;
  ctx_HelixRanges : list rangeInfo;
  ctx_StrandRanges : list rangeInfo;
  ctx_ActiveSites : list rangeInfo;
  ctx_PTMPositions : list Z
}.

Record candidate := mkCandidate {
  c_Start : Z;
  c_End : Z;
  c_Source : string;
  c_Name : string;
  c_PDBID : string;
  c_Score : float;
  c_Rationale : list string;
  c_Evidence : evidence
}.

(** [func (c candidate) Length() int] *)
Definition Length (c : candidate) : Z := c_End c - c_Start c + 1.

(** ** Disorder computer *)

(** The loop [for i := 0; i < length && i < len(plddt); i++] of
    [computeDisorderedRegions]; [fuel] bounds the number of iterations. *)
Fixpoint disorderLoop (fuel : nat) (i : nat) (length : nat)
    (plddt : list float) (disorder : list bool) : list bool :=
  match fuel with
  | O => disorder
  | S fuel' =>
      if (i <? length)%nat && (i <? List.length plddt)%nat then
        let disorder' :=
          if PrimFloat.ltb (default 0%float (plddt !! i)) 50
          then <[i := true]> disorder else disorder in
        disorderLoop fuel' (S i) length plddt disorder'
      else disorder
  end.

(** [make([]bool, length)] is [replicate length false].  The requested length
    is the length of the sanitised sequence, hence a natural number. *)
Definition computeDisorderedRegions (plddt : list float) (length : nat) : list bool :=
  if (List.length plddt =? 0)%nat || (length =? 0)%nat then replicate length false
  else disorderLoop length 0 length plddt (replicate length false).

(** [compressDisorder]: the state of the [range] loop is the pending run
    start ([0] when no run is open) and the regions emitted so far. *)
Fixpoint compressDisorderLoop (flags : list bool) (i : Z) (start : Z)
    (regions : list rangeInfo) : Z * list rangeInfo :=
  match flags with
  | [] => (start, regions)
  | flag :: rest =>
      let start1 := if flag && (start =? 0) then i + 1 else start in
      if negb flag && negb (start1 =? 0) then
        compressDisorderLoop rest (i + 1) 0
          (regions ++ [mkRange start1 i "" "disorder" "pLDDT"])
      else compressDisorderLoop rest (i + 1) start1 regions
  end.

Definition compressDisorder (disorder : list bool) : list rangeInfo :=
  let '(start, regions) := compressDisorderLoop disorder 0 0 [] in
  if negb (start =? 0)
  then regions ++ [mkRange start (len disorder) "" "disorder" "pLDDT"]
  else regions.

(** [orderedRanges]: the same loop on the complementary flag. *)
Fixpoint orderedRangesLoop (flags : list bool) (i : Z) (start : Z)
    (ranges : list rangeInfo) : Z * list rangeInfo :=
  match flags with
  | [] => (start, ranges)
  | flag :: rest =>
      let start1 := if negb flag && (start =? 0) then i + 1 else start in
      if flag && negb (start1 =? 0) then
        orderedRangesLoop rest (i + 1) 0
          (ranges ++ [mkRange start1 i "" "ordered" "pLDDT"])
      else orderedRangesLoop rest (i + 1) start1 ranges
  end.

Definition orderedRanges (disordered : list bool) : list rangeInfo :=
  let '(start, ranges) := orderedRangesLoop disordered 0 0 [] in
  if negb (start =? 0)
  then ranges ++ [mkRange start (len disordered) "" "ordered" "pLDDT"]
  else ranges.

(** ** Window averages *)

(** [float64(count)] for a non-negative counter. *)
Definition float64 (n : Z) : float := PrimFloat.of_uint63 (Uint63.of_Z n).

(** The summation loop [for i := start; i <= end; i++] of [avgWindow]. *)
Fixpoint avgWindowLoop (fuel : nat) (values : list float) (i end_ : Z)
    (sum : float) (count : Z) : float * Z :=
  match fuel with
  | O => (sum, count)
  | S fuel' =>
      if i <=? end_ then
        avgWindowLoop fuel' values (i + 1) end_
          (PrimFloat.add sum (idx 0%float values i)) (count + 1)
      else (sum, count)
  end.

Definition avgWindow (values : list float) (start end_ : Z) : float :=
  if (len values =? 0) || (start >? end_) then 0%float
  else
    let start := max 0 start in
    let end_ := min (len values - 1) end_ in
    if start >? end_ then 0%float
    else
      let '(sum, count) :=
        avgWindowLoop (Z.to_nat (end_ - start + 1)) values start end_ 0%float 0 in
      if count =? 0 then 0%float else PrimFloat.div sum (float64 count).

(** ** Boundary scorer *)

Definition isDisorderTransition (pos : Z) (side : string) (disorder : list bool) : bool :=
  if (len disorder =? 0) || (pos <=? 0) || (pos >? len disorder) then false
  else
    let i := pos - 1 in
    if String.eqb side "start" then
      if idx false disorder i then false
      else if i =? 0 then true
      else idx false disorder (i - 1)
    else
      if idx false disorder i then false
      else if i =? len disorder - 1 then true
      else idx false disorder (i + 1).

Definition isDomainBoundary (pos : Z) (domains : list rangeInfo) : bool :=
  existsb (fun domain =>
    (abs (pos - ri_Start domain) <=? 3) || (abs (pos - ri_End domain) <=? 3)) domains.

Definition matchesPDBBoundary (pos : Z) (pdbRanges : list pdbRange) : bool :=
  existsb (fun pdb =>
    (abs (pos - pdb_Start pdb) <=? 3) || (abs (pos - pdb_End pdb) <=? 3)) pdbRanges.

Definition isLoopRegion (pos : Z) (plddt : list float) : bool :=
  if (len plddt =? 0) || (pos <=? 2) || (pos >=? len plddt - 2) then false
  else
    let center := avgWindow plddt (pos - 2) (pos + 2) in
    let left := avgWindow plddt (max 0 (pos - 8)) (pos - 3) in
    let right := avgWindow plddt (pos + 3) (min (len plddt - 1) (pos + 8)) in
    PrimFloat.ltb center 70 && PrimFloat.ltb 70 left && PrimFloat.ltb 70 right.

Definition hasStructuredSide (pos : Z) (side : string) (plddt : list float) : bool :=
  if len plddt =? 0 then false
  else if String.eqb side "start" then
    PrimFloat.ltb 70 (avgWindow plddt (pos - 1) (min (len plddt - 1) (pos + 8)))
  else PrimFloat.ltb 70 (avgWindow plddt (max 0 (pos - 10)) (pos - 1)).

Definition withinRanges (pos : Z) (ranges : list rangeInfo) : bool :=
  existsb (fun r => (pos >=? ri_Start r) && (pos <=? ri_End r)) ranges.

Definition withinPositions (pos : Z) (positions : list Z) (buffer : Z) : bool :=
  existsb (fun p => abs (pos - p) <=? buffer) positions.

(** One [if cond { score += delta; rationale = append(rationale, why) }]. *)
Definition award (cond : bool) (delta : float) (why : string)
    (acc : float * list string) : float * list string :=
  if cond then (PrimFloat.add (fst acc) delta, snd acc ++ [why]) else acc.

Definition boundaryScore (pos : Z) (side : string) (ctx : boundaryContext)
    : float * list string :=
  let acc := (0%float, []) in
  let acc := award (isDisorderTransition pos side (ctx_Disorder ctx))
               30 "disorder transition" acc in
  let acc := award (isDomainBoundary pos (ctx_DomainRanges ctx))
               25 "domain boundary" acc in
  let acc := award (isLoopRegion pos (ctx_PLDDT ctx))
               20 "loop-like region" acc in
  let acc := award (hasStructuredSide pos side (ctx_PLDDT ctx))
               15 "high pLDDT side" acc in
  let acc := award (matchesPDBBoundary pos (ctx_PDBRanges ctx))
               10 "PDB boundary" acc in
  let acc := award (withinRanges pos (ctx_HelixRanges ctx)
                    || withinRanges pos (ctx_StrandRanges ctx))
               (-50) "cuts secondary structure" acc in
  let acc := award (withinRanges pos (ctx_ActiveSites ctx))
               (-100) "near active site" acc in
  let acc := award (withinPositions pos (ctx_PTMPositions ctx) 5)
               (-20) "near PTM site" acc in
  (clamp (fst acc) 0 100, snd acc).

(** ** Sorting

    Go's insertion sort: each element is moved left while [less] holds
    against its left neighbour.  The sorted prefix is kept reversed, so that
    its right end is the head of the list. *)
Fixpoint insertLeftward {A} (less : A -> A -> bool) (x : A) (rprefix : list A) : list A :=
  match rprefix with
  | [] => [x]
  | y :: rest => if less x y then y :: insertLeftward less x rest else x :: y :: rest
  end.

Definition insertionSort {A} (less : A -> A -> bool) (data : list A) : list A :=
  reverse (fold_left (fun rprefix x => insertLeftward less x rprefix) data []).

(** [sort.SliceStable]: the stable order is the one insertion sort produces. *)
Definition sortSliceStable {A} (less : A -> A -> bool) (data : list A) : list A :=
  insertionSort less data.

(** [sort.Slice]: Go runs exactly this insertion sort on slices of at most
    twelve elements; on longer slices its quicksort may order differently
    only elements neither of which is [less] than the other. *)
Definition sortSlice {A} (less : A -> A -> bool) (data : list A) : list A :=
  insertionSort less data.

(** The body of the [for i := range candidates] loop of [scoreCandidates]. *)
Definition scoreCandidate (ctx : boundaryContext) (c : candidate) : candidate :=
  let '(startScore, startRationale) := boundaryScore (c_Start c) "start" ctx in
  let '(endScore, endRationale) := boundaryScore (c_End c) "end" ctx in
  let avgScore := PrimFloat.div (PrimFloat.add startScore endScore) 2 in
  let ev := c_Evidence c in
  let ev :=
    if negb (String.eqb (c_Name c) "") && String.eqb (c_Source c) "domain"
    then mkEvidence (ev_PDBMatch ev) (c_Name c) (ev_AvgPLDDT ev) (ev_DisorderFraction ev)
    else ev in
  let ev :=
    if negb (String.eqb (c_PDBID c) "")
    then mkEvidence (c_PDBID c) (ev_Domain ev) (ev_AvgPLDDT ev) (ev_DisorderFraction ev)
    else ev in
  mkCandidate (c_Start c) (c_End c) (c_Source c) (c_Name c) (c_PDBID c)
    avgScore (startRationale ++ endRationale) ev.

Definition scoreCandidates (candidates : list candidate) (ctx : boundaryContext)
    (minLength maxLength : Z) : list candidate :=
  sortSliceStable (fun ci cj => PrimFloat.ltb (c_Score cj) (c_Score ci))
    (map (scoreCandidate ctx) candidates).

(** The comparison function of the final [sort.Slice] in [main]. *)
Definition rankLess (ci cj : candidate) : bool :=
  if PrimFloat.eqb (c_Score ci) (c_Score cj) then Length ci <? Length cj
  else PrimFloat.ltb (c_Score cj) (c_Score ci).

(** [sort.Slice(scored, ...)] followed by [top = top[:10]]. *)
Definition rankTop (scored : list candidate) : list candidate :=
  take 10 (sortSlice rankLess scored).

(** ** Candidate generator *)

(** [strings.Contains]: some suffix of [s] starts with [substr]. *)
Fixpoint Contains (s substr : string) : bool :=
  if String.prefix substr s then true
  else match s with
       | EmptyString => false
       | String _ s' => Contains s' substr
       end.

(** [fmt.Sprintf("%d-%d", start, end)] *)
Definition candidateKey (start end_ : Z) : string :=
  pretty start +:+ "-" +:+ pretty end_.

(** [seen[key]] on a [map[string]bool]: an absent key reads as [false]. *)
Definition seenKey (seen : gmap string bool) (key : string) : bool :=
  default false (seen !! key).

(** The closure [addCandidate] of [buildCandidates]; the variables it
    captures and updates, [candidates] and [seen], are passed as a pair. *)
Definition addCandidate (minLength maxLength : Z)
    (st : list candidate * gmap string bool)
    (start end_ : Z) (source name pdbID : string)
    : list candidate * gmap string bool :=
  let '(candidates, seen) := st in
  if (start <=? 0) || (end_ <=? 0) || (start >? end_) then st
  else
    let length := end_ - start + 1 in
    if length <? minLength then st
    else if (maxLength >? 0) && (length >? maxLength) then st
    else
      let key := candidateKey start end_ in
      if seenKey seen key then st
      else
        (candidates ++
           [mkCandidate start end_ source name pdbID 0%float []
              (mkEvidence "" "" 0%float 0%float)],
         <[key := true]> seen).

(** [ToLower] is [strings.ToLower] of the Go standard library. *)
Definition buildCandidates (ToLower : string -> string) (sequence : string)
    (regionRange : option rangeInfo) (regionName : string)
    (domains : list rangeInfo) (pdbRanges : list pdbRange)
    (disordered : list bool) (minLength maxLength : Z) : list candidate :=
  let add := addCandidate minLength maxLength in
  let st : list candidate * gmap string bool := ([], ∅) in
  let st :=
    match regionRange with
    | Some r => add st (ri_Start r) (ri_End r) "user" "user_region" ""
    | None => st
    end in
  let st :=
    fold_left (fun st domain =>
      if negb (String.eqb regionName "")
         && negb (Contains (ToLower (ri_Name domain)) (ToLower regionName))
      then st
      else add st (ri_Start domain) (ri_End domain) "domain" (ri_Name domain) "")
      domains st in
  let st :=
    fold_left (fun st pdb =>
      add st (pdb_Start pdb) (pdb_End pdb) "pdb" (pdb_ID pdb) (pdb_ID pdb))
      pdbRanges st in
  let st :=
    match regionRange with
    | None =>
        if String.eqb regionName "" then
          fold_left (fun st seg =>
            add st (ri_Start seg) (ri_End seg) "ordered" "ordered_segment" "")
            (orderedRanges disordered) st
        else st
    | Some _ => st
    end in
  fst st.

(** ** The ranking pipeline of [main]

    From the evidence gathered by the resolvers to the ranked shortlist:
    the default for a non-positive [--min-length], the disorder mask, the
    candidates, their scores, the final sort and the cut at ten. *)

Definition defaultMinLength : Z := 100.

Record evidenceInput := mkInput {
  in_sequence : string;
  in_plddt : list float;
  in_domains : list rangeInfo;
  in_helixes : list rangeInfo;
  in_strands : list rangeInfo;
  in_activeSites : list rangeInfo;
  in_ptmPositions : list Z;
  in_pdbRanges : list pdbRange;
  in_regionRange : option rangeInfo;
  in_regionName : string
}.

Inductive outcome :=
| Fatal (message : string)
| Ranked (top : list candidate).

(** [if minLength <= 0 { minLength = defaultMinLength }] *)
Definition effectiveMinLength (minLength : Z) : Z :=
  if minLength <=? 0 then defaultMinLength else minLength.

(** The disorder mask and the scoring context built by [main]. *)
Definition mainDisorder (inp : evidenceInput) : list bool :=
  computeDisorderedRegions (in_plddt inp) (String.length (in_sequence inp)).

Definition mainContext (inp : evidenceInput) : boundaryContext :=
  mkCtx (Z.of_nat (String.length (in_sequence inp))) (mainDisorder inp)
    (in_plddt inp) (in_domains inp) (in_pdbRanges inp) (in_helixes inp)
    (in_strands inp) (in_activeSites inp) (in_ptmPositions inp).

(** [minLength] is the value of the flag as given on the command line;
    [in_sequence] is the sequence after [sanitizeSequence]. *)
Definition mainRank (ToLower : string -> string) (inp : evidenceInput)
    (minLength maxLength : Z) : outcome :=
  let minLength := effectiveMinLength minLength in
  if String.eqb (in_sequence inp) "" then Fatal "sequence is empty after sanitization"
  else
    let candidates :=
      buildCandidates ToLower (in_sequence inp) (in_regionRange inp) (in_regionName inp)
        (in_domains inp) (in_pdbRanges inp) (mainDisorder inp) minLength maxLength in
    let scored := scoreCandidates candidates (mainContext inp) minLength maxLength in
    if len scored =? 0 then Fatal "no construct candidates found with current filters"
    else Ranked (rankTop scored).

(** ** Result cache *)

(** A Go [([]byte, error)] result; [None] is the [nil] error. *)
Definition result : Type := list Byte.byte * option string.

Record cacheEntry := mkEntry {
  FetchedAt : Z;          (* time.Time, in nanoseconds *)
  Payload : list byte     (* json.RawMessage *)
}.

(** [cacheTTL = 30 * 24 * time.Hour], a [time.Duration] in nanoseconds. *)
Definition Hour : Z := 3600 * 1000000000.
Definition cacheTTL : Z := 30 * 24 * Hour.

(** The part of the file system the cache touches: the files, and the
    error, if any, that [os.MkdirAll] and [os.WriteFile] return for a path. *)
Record fileSystem := mkFS {
  fs_files : gmap string (list byte);
  fs_mkdirAll : string -> option string;
  fs_writeFile : string -> option string
}.

(** [strings.ReplaceAll(s, old, new)] for one-character [old] and [new]. *)
Fixpoint replaceChar (old new : ascii) (s : string) : string :=
  match s with
  | EmptyString => EmptyString
  | String c s' =>
      String (if Ascii.eqb c old then new else c) (replaceChar old new s')
  end.

Section ResultCache.

(** The Go standard library: [strings.ToLower], [filepath.Join],
    [filepath.Dir], [json.MarshalIndent] on a [cacheEntry] (the data or the
    error) and [json.Unmarshal] into a [cacheEntry] ([None] is an error). *)
Variable ToLower : string -> string.
Variable filepath_Join : list string -> string.
Variable filepath_Dir : string -> string.
Variable jsonMarshalIndent : cacheEntry -> list byte + string.
Variable jsonUnmarshal : list byte -> option cacheEntry.

Definition cacheFilePath (cacheDir namespace key : string) : string :=
  let key := ToLower key in
  let key := replaceChar "/" "_" key in
  let key := replaceChar " " "_" key in
  filepath_Join [cacheDir; namespace; key +:+ ".json"].

(** [now] is the clock at the call of [time.Since]. *)
Definition readCache (fs : fileSystem) (now : Z) (path : string) : list byte * bool :=
  match fs_files fs !! path with
  | None => ([], false)
  | Some data =>
      match jsonUnmarshal data with
      | None => ([], false)
      | Some entry =>
          if now - FetchedAt entry >? cacheTTL then ([], false)
          else (Payload entry, true)
      end
  end.

(** [now] is the value of [time.Now()]. *)
Definition writeCache (fs : fileSystem) (now : Z) (path : string)
    (payload : list byte) : fileSystem * option string :=
  match fs_mkdirAll fs (filepath_Dir path) with
  | Some err => (fs, Some err)
  | None =>
      match jsonMarshalIndent (mkEntry now payload) with
      | inr err => (fs, Some err)
      | inl data =>
          match fs_writeFile fs path with
          | Some err => (fs, Some err)
          | None =>
              (mkFS (<[path := data]> (fs_files fs)) (fs_mkdirAll fs) (fs_writeFile fs),
               None)
          end
      end
  end.

Record fetchOutcome := mkOutcome {
  fo_result : result;
  fo_fs : fileSystem;
  fo_now : Z;
  fo_fetched : bool     (* whether [fetch] was called *)
}.

(** [fetch] receives the clock and returns it advanced by the time the
    request took. *)
Definition fetchWithCache (fs : fileSystem) (now : Z)
    (cacheDir namespace key : string) (fetch : Z -> result * Z) : fetchOutcome :=
  let cachePath := cacheFilePath cacheDir namespace key in
  match readCache fs now cachePath with
  | (payload, true) => mkOutcome (payload, None) fs now false
  | (_, false) =>
      let '((payload, err), now') := fetch now in
      match err with
      | Some e => mkOutcome ([], Some e) fs now' true
      | None =>
          let '(fs', _) := writeCache fs now' cachePath payload in
          mkOutcome (payload, None) fs' now' true
      end
  end.

End ResultCache.

(** ** Resilient fetch client *)

(** What [io.ReadAll(resp.Body)] returns. *)
Inductive bodyRead :=
| ReadOk (body : list byte)
| ReadErr (e : string).

Record response := mkResponse {
  StatusCode : Z;
  ContentEncoding : string;     (* resp.Header.Get("Content-Encoding") *)
  Body : bodyRead
}.

(** What [client.Get(url)] returns. *)
Inductive getResult :=
| GetErr (e : string)
| GetResp (resp : response).

Definition isGzip (body : list byte) : bool :=
  match body with
  | b0 :: b1 :: _ => Byte.eqb b0 Byte.x1f && Byte.eqb b1 Byte.x8b
  | _ => false
  end.

(** What one call of [httpGet] did besides returning: the number of
    [client.Get] calls and the seconds passed to [time.Sleep], in order. *)
Record httpTrace := mkTrace {
  tr_attempts : nat;
  tr_slept : list Z
}.

Section FetchClient.

(** [client url k] is the answer to the [k]-th request for [url];
    [gunzip] is [compress/gzip]. *)
Variable client : string -> nat -> getResult.
Variable gunzip : list byte -> result.

Fixpoint httpGetLoop (fuel : nat) (url : string) (attempt : Z)
    (lastErr : option string) (tr : httpTrace) : result * httpTrace :=
  match fuel with
  | O => (([], lastErr), tr)
  | S fuel' =>
      if attempt <? 3 then
        let tr1 := mkTrace (S (tr_attempts tr)) (tr_slept tr) in
        let retry e :=
          httpGetLoop fuel' url (attempt + 1) (Some e)
            (mkTrace (tr_attempts tr1) (tr_slept tr1 ++ [attempt + 1])) in
        match client url (tr_attempts tr) with
        | GetErr e => retry e
        | GetResp resp =>
            if StatusCode resp =? 404 then
              (([], Some ("resource not found (" +:+ url +:+ ")")), tr1)
            else if (StatusCode resp <? 200) || (StatusCode resp >=? 300) then
              retry ("http status " +:+ pretty (StatusCode resp))
            else
              match Body resp with
              | ReadErr e => retry e
              | ReadOk body =>
                  if String.eqb (ContentEncoding resp) "gzip" || isGzip body then
                    match gunzip body with
                    | (_, Some e) => (([], Some e), tr1)
                    | (decoded, None) => ((decoded, None), tr1)
                    end
                  else ((body, None), tr1)
              end
        end
      else (([], lastErr), tr)
  end.

Definition httpGet (url : string) : result * httpTrace :=
  httpGetLoop 3 url 0 None (mkTrace 0 []).

End FetchClient.

(** ** Small helpers of [main] and of the presenters *)

(** The loop [for i := start; i <= end; i++] of [sliceAny]. *)
Fixpoint sliceAnyLoop (fuel : nat) (flags : list bool) (i end_ : Z) : bool :=
  match fuel with
  | O => false
  | S fuel' =>
      if i <=? end_ then
        if idx false flags i then true
        else sliceAnyLoop fuel' flags (i + 1) end_
      else false
  end.

Definition sliceAny (flags : list bool) (start end_ : Z) : bool :=
  if len flags =? 0 then false
  else
    let start := max 0 start in
    let end_ := min (len flags - 1) end_ in
    sliceAnyLoop (Z.to_nat (end_ - start + 1)) flags start end_.

(** [uniqueStrings]; [TrimSpace] is [strings.TrimSpace]. *)
Definition uniqueStringsStep (TrimSpace : string -> string)
    (st : gmap string bool * list string) (item : string)
    : gmap string bool * list string :=
  let '(seen, out) := st in
  let item := TrimSpace item in
  if String.eqb item "" || default false (seen !! item) then (seen, out)
  else (<[item := true]> seen, out ++ [item]).

Definition uniqueStrings (TrimSpace : string -> string) (items : list string)
    : list string :=
  snd (fold_left (uniqueStringsStep TrimSpace) items (∅, [])).

(** [strings.ReplaceAll(s, c, "")] for a one-character [c]. *)
Fixpoint removeChar (c : ascii) (s : string) : string :=
  match s with
  | EmptyString => EmptyString
  | String c' s' =>
      if Ascii.eqb c' c then removeChar c s' else String c' (removeChar c s')
  end.

(** [sanitizeSequence]; [ToUpper] is [strings.ToUpper]. *)
Definition sanitizeSequence (ToUpper : string -> string) (sequence : string) : string :=
  let sequence := ToUpper sequence in
  let sequence := removeChar " " sequence in
  let sequence := removeChar "010" sequence in
  let sequence := removeChar "013" sequence in
  let sequence := removeChar "009" sequence in
  sequence.

(** ** UniProt features *)

(** [uniProtLocation]: each field is a pointer to a [positionValue]. *)
Record uniProtLocation := mkLocation {
  loc_Start : option Z;
  loc_End : option Z;
  loc_Position : option Z
}.

Record uniProtFeature := mkFeature {
  f_Type : string;
  f_Description : string;
  f_Location : uniProtLocation;
  f_Properties : gmap string string
}.

Definition featureRange (location : uniProtLocation) : Z * Z :=
  match loc_Position location with
  | Some v => (v, v)
  | None =>
      match loc_Start location, loc_End location with
      | Some s, Some e => (s, e)
      | _, _ => (0, 0)
      end
  end.

(** The five results of [extractFeatures]. *)
Record featureSets := mkFeatureSets {
  fs_domains : list rangeInfo;
  fs_helixes : list rangeInfo;
  fs_strands : list rangeInfo;
  fs_activeSites : list rangeInfo;
  fs_ptmPositions : list Z
}.

(** Whether [s] is one of the labels of a [case]. *)
Definition oneOf (labels : list string) (s : string) : bool :=
  existsb (String.eqb s) labels.

Definition extractFeaturesStep (ToUpper : string -> string)
    (acc : featureSets) (feature : uniProtFeature) : featureSets :=
  let '(start, end_) := featureRange (f_Location feature) in
  if (start =? 0) || (end_ =? 0) then acc
  else
    let info := mkRange start end_ (f_Description feature) (f_Type feature) "UniProt" in
    let ty := ToUpper (f_Type feature) in
    if oneOf ["DOMAIN"; "REGION"; "REPEAT"] ty then
      mkFeatureSets (fs_domains acc ++ [info]) (fs_helixes acc) (fs_strands acc)
        (fs_activeSites acc) (fs_ptmPositions acc)
    else if oneOf ["HELIX"] ty then
      mkFeatureSets (fs_domains acc) (fs_helixes acc ++ [info]) (fs_strands acc)
        (fs_activeSites acc) (fs_ptmPositions acc)
    else if oneOf ["STRAND"] ty then
      mkFeatureSets (fs_domains acc) (fs_helixes acc) (fs_strands acc ++ [info])
        (fs_activeSites acc) (fs_ptmPositions acc)
    else if oneOf ["ACT_SITE"] ty then
      mkFeatureSets (fs_domains acc) (fs_helixes acc) (fs_strands acc)
        (fs_activeSites acc ++ [info]) (fs_ptmPositions acc)
    else if oneOf ["MOD_RES"; "CARBOHYD"; "LIPID"; "DISULFID"; "CROSSLINK"; "METAL"] ty then
      mkFeatureSets (fs_domains acc) (fs_helixes acc) (fs_strands acc)
        (fs_activeSites acc) (fs_ptmPositions acc ++ [start])
    else acc.

Definition extractFeatures (ToUpper : string -> string)
    (features : list uniProtFeature) : featureSets :=
  fold_left (extractFeaturesStep ToUpper) features (mkFeatureSets [] [] [] [] []).

(** ** Text of the UniProt and AlphaFold answers *)

(** [strings.Split(s, sep)] for a one-character [sep]. *)
Fixpoint splitOn (sep : ascii) (s : string) : list string :=
  match s with
  | EmptyString => [EmptyString]
  | String c s' =>
      if Ascii.eqb c sep then EmptyString :: splitOn sep s'
      else match splitOn sep s' with
           | piece :: rest => String c piece :: rest
           | [] => [String c EmptyString]
           end
  end.

(** One iteration of the loop of [parsePLDDTFromPDB] on the state
    [(plddt, lastRes)].  [TrimSpace], [Atoi] and [ParseFloat] are
    [strings.TrimSpace], [strconv.Atoi] and [strconv.ParseFloat(_, 64)],
    the last two with [None] for an error. *)
Definition parsePLDDTStep (TrimSpace : string -> string)
    (Atoi : string -> option Z) (ParseFloat : string -> option float)
    (st : list float * Z) (line : string) : list float * Z :=
  let '(plddt, lastRes) := st in
  if negb (String.prefix "ATOM" line) then st
  else if (String.length line <? 66)%nat then st
  else if negb (String.eqb (TrimSpace (substring 12 4 line)) "CA") then st
  else
    match Atoi (TrimSpace (substring 22 4 line)) with
    | None => st
    | Some resSeq =>
        if resSeq =? lastRes then st
        else
          match ParseFloat (TrimSpace (substring 60 6 line)) with
          | None => (plddt, resSeq)
          | Some bFactor => (plddt ++ [bFactor], resSeq)
          end
    end.

Definition parsePLDDTFromPDB (TrimSpace : string -> string)
    (Atoi : string -> option Z) (ParseFloat : string -> option float)
    (body : list byte) : list float * option string :=
  let lines := splitOn "010" (string_of_list_byte body) in
  let '(plddt, _) :=
    fold_left (parsePLDDTStep TrimSpace Atoi ParseFloat) lines ([], -1) in
  if len plddt =? 0 then ([], Some "no CA atoms found for pLDDT extraction")
  else (plddt, None).

(** ** PDB cross-references *)

Record uniProtCrossRef := mkCrossRef {
  x_Database : string;
  x_ID : string;
  x_Properties : gmap string string
}.

(** [m[key]] on a [map[string]string]: the empty string for a missing key. *)
Definition property (m : gmap string string) (key : string) : string :=
  default "" (m !! key).

(** The body of the innermost loop of [extractPDBRanges]. *)
Definition spanStep (TrimSpace : string -> string) (Atoi : string -> option Z)
    (ref : uniProtCrossRef) (method resolution : string)
    (ranges : list pdbRange) (span : string) : list pdbRange :=
  let span := TrimSpace span in
  if String.eqb span "" then ranges
  else
    match splitOn "-" span with
    | [a; b] =>
        match Atoi (TrimSpace a), Atoi (TrimSpace b) with
        | Some start, Some end_ =>
            ranges ++ [mkPdb (x_ID ref) start end_ method resolution]
        | _, _ => ranges
        end
    | _ => ranges
    end.

(** The body of the loop over the parts of the [Chains] property. *)
Definition chainStep (TrimSpace : string -> string) (Atoi : string -> option Z)
    (ref : uniProtCrossRef) (method resolution : string)
    (ranges : list pdbRange) (chainPart : string) : list pdbRange :=
  let chainPart := TrimSpace chainPart in
  if String.eqb chainPart "" then ranges
  else
    match splitOn "=" chainPart with
    | [_; spans] =>
        fold_left (spanStep TrimSpace Atoi ref method resolution)
          (splitOn "," spans) ranges
    | _ => ranges
    end.

(** The body of the loop over the cross-references. *)
Definition crossRefStep (ToUpper TrimSpace : string -> string)
    (Atoi : string -> option Z)
    (ranges : list pdbRange) (ref : uniProtCrossRef) : list pdbRange :=
  if negb (String.eqb (ToUpper (x_Database ref)) "PDB") then ranges
  else
    let chains := property (x_Properties ref) "Chains" in
    let method := property (x_Properties ref) "Method" in
    let resolution := property (x_Properties ref) "Resolution" in
    fold_left (chainStep TrimSpace Atoi ref method resolution)
      (splitOn "," chains) ranges.

Definition extractPDBRanges (ToUpper TrimSpace : string -> string)
    (Atoi : string -> option Z) (crossRefs : list uniProtCrossRef) : list pdbRange :=
  fold_left (crossRefStep ToUpper TrimSpace Atoi) crossRefs [].

(** ** Properties of a cross-reference

    [propertyMap.UnmarshalJSON]: [jsonObject] and [jsonEntries] are
    [json.Unmarshal] into a [map[string]string] and into a
    [[]map[string]string]; the receiver [*p] is passed and returned. *)

(** The body of the loop over the entries of the array form. *)
Definition propertyEntryStep (values : gmap string string)
    (entry : gmap string string) : gmap string string :=
  let key := property entry "key" in
  let key := if String.eqb key "" then property entry "property" else key in
  if String.eqb key "" then values
  else <[key := property entry "value"]> values.

Definition propertyMap_UnmarshalJSON
    (jsonObject : list byte -> gmap string string + string)
    (jsonEntries : list byte -> list (gmap string string) + string)
    (p : gmap string string) (data : list byte) : gmap string string * option string :=
  if (len data =? 0) || String.eqb (string_of_list_byte data) "null" then (p, None)
  else if Byte.eqb (List.nth 0 data x00) "{" then
    match jsonObject data with
    | inr err => (p, Some err)
    | inl values => (values, None)
    end
  else if Byte.eqb (List.nth 0 data x00) "[" then
    match jsonEntries data with
    | inr err => (p, Some err)
    | inl entries => (fold_left propertyEntryStep entries ∅, None)
    end
  else (p, Some "unknown properties format in UniProt cross-reference").

(** ** Resolvers

    The functions of the Go standard library the resolvers call, and the
    HTTP exchange, as one environment. *)

Record uniProtEntry := mkUniProtEntry {
  e_PrimaryAccession : string;
  e_UniProtKBID : string;
  e_FullName : string;              (* ProteinDescription.RecommendedName.FullName.Value *)
  e_Genes : list string;            (* Genes[i].GeneName.Value *)
  e_SequenceValue : string;
  e_SequenceLength : Z;
  e_Features : list uniProtFeature;
  e_CrossReferences : list uniProtCrossRef;
  e_Keywords : list (gmap string string)
}.

(** [uniProtEntry{}] *)
Definition emptyEntry : uniProtEntry :=
  mkUniProtEntry "" "" "" [] "" 0 [] [] [].

Record alphaFoldPrediction := mkPrediction {
  af_UniProtAccession : string;
  af_Plddt : list float;
  af_PdbURL : string;
  af_PaedocURL : string
}.

Record library := mkLibrary {
  lib_ToLower : string -> string;             (* strings.ToLower *)
  lib_ToUpper : string -> string;             (* strings.ToUpper *)
  lib_TrimSpace : string -> string;           (* strings.TrimSpace *)
  lib_Atoi : string -> Z * option string;     (* strconv.Atoi *)
  lib_ParseFloat : string -> option float;    (* strconv.ParseFloat(_, 64) *)
  lib_Join : list string -> string;           (* filepath.Join *)
  lib_Dir : string -> string;                 (* filepath.Dir *)
  lib_PathEscape : string -> string;          (* url.PathEscape *)
  lib_QueryEscape : string -> string;         (* url.QueryEscape *)
  lib_quote : string -> string;               (* fmt.Sprintf("%q", _) *)
  (* ^\s*(\d+)\s*-\s*(\d+)\s*$ : the two groups, when the string matches *)
  lib_rangePattern : string -> option (string * string);
  lib_jsonMarshalIndent : cacheEntry -> list byte + string;
  lib_jsonUnmarshal : list byte -> option cacheEntry;
  (* json.Unmarshal into a uniProtEntry, into the search answer (the
     primaryAccession of each result) and into []alphaFoldPrediction *)
  lib_jsonEntry : list byte -> uniProtEntry + string;
  lib_jsonSearch : list byte -> list string + string;
  lib_jsonPredictions : list byte -> list alphaFoldPrediction + string;
  lib_gunzip : list byte -> result;           (* gunzip *)
  (* the answers of the servers to a call of httpGet started at a time *)
  lib_client : Z -> string -> nat -> getResult;
  (* the time a call of httpGet takes, given what it did *)
  lib_elapsed : httpTrace -> Z
}.

(** [strconv.Atoi] where the caller skips on an error. *)
Definition atoiOk (L : library) (s : string) : option Z :=
  match lib_Atoi L s with
  | (v, None) => Some v
  | (_, Some _) => None
  end.

(** [httpGet(client, url)] called at time [now]: its result and the time
    at which it returns. *)
Definition httpGetAt (L : library) (url : string) (now : Z) : result * Z :=
  let '(r, tr) := httpGet (lib_client L now) (lib_gunzip L) url in
  (r, now + lib_elapsed L tr).

(** [fetchWithCache] in the environment. *)
Definition cached (L : library) (fs : fileSystem) (now : Z)
    (cacheDir namespace key : string) (fetch : Z -> result * Z) : fetchOutcome :=
  fetchWithCache (lib_ToLower L) (lib_Join L) (lib_Dir L)
    (lib_jsonMarshalIndent L) (lib_jsonUnmarshal L) fs now cacheDir namespace key fetch.

Definition uniprotBaseURL : string := "https://rest.uniprot.org/uniprotkb".
Definition uniprotSearchURL : string := "https://rest.uniprot.org/uniprotkb/search".
Definition alphafoldPredictionURL : string := "https://alphafold.ebi.ac.uk/api/prediction".

Definition normalizeJSON (L : library) (body : list byte) : result :=
  if isGzip body then lib_gunzip L body else (body, None).

Definition decodeUniProtEntry (L : library) (body : list byte)
    : uniProtEntry * option string :=
  match normalizeJSON L body with
  | (_, Some err) => (emptyEntry, Some err)
  | (normalized, None) =>
      match lib_jsonEntry L normalized with
      | inr err => (emptyEntry, Some err)
      | inl entry =>
          if String.eqb (e_SequenceValue entry) "" then
            (emptyEntry, Some "missing sequence in UniProt response")
          else (entry, None)
      end
  end.

Definition extractFirstAccession (L : library) (body : list byte)
    : string * option string :=
  match normalizeJSON L body with
  | (_, Some err) => ("", Some err)
  | (normalized, None) =>
      match lib_jsonSearch L normalized with
      | inr err => ("", Some err)
      | inl [] => ("", Some "no UniProt entries found")
      | inl (accession :: _) =>
          if String.eqb accession "" then ("", Some "no UniProt entries found")
          else (accession, None)
      end
  end.

(** What a resolver returns: its value, its warnings, its error, and the
    file system and the clock it leaves behind. *)
Record resolved (A : Type) := mkResolved {
  rs_value : A;
  rs_warnings : list string;
  rs_err : option string;
  rs_fs : fileSystem;
  rs_now : Z
}.
Arguments mkResolved {A} _ _ _ _ _.
Arguments rs_value {A} _.
Arguments rs_warnings {A} _.
Arguments rs_err {A} _.
Arguments rs_fs {A} _.
Arguments rs_now {A} _.

(** The three cached requests of [fetchUniProtEntry]. *)
Definition entryLookup (L : library) (fs : fileSystem) (now : Z)
    (cacheDir identifier : string) : fetchOutcome :=
  cached L fs now cacheDir "uniprot" identifier
    (httpGetAt L (uniprotBaseURL +:+ "/" +:+ lib_PathEscape L identifier +:+ ".json")).

Definition searchLookup (L : library) (fs : fileSystem) (now : Z)
    (cacheDir identifier : string) : fetchOutcome :=
  cached L fs now cacheDir "uniprot-search" identifier
    (httpGetAt L
       (uniprotSearchURL +:+ "?query="
        +:+ lib_QueryEscape L ("gene_exact:" +:+ identifier +:+ " OR " +:+ identifier)
        +:+ "&format=json&size=5")).

Definition fetchUniProtEntry (L : library) (fs : fileSystem) (now : Z)
    (cacheDir identifier : string) : resolved uniProtEntry :=
  let o1 := entryLookup L fs now cacheDir identifier in
  match fo_result o1 with
  | (body, None) =>
      let '(entry, err) := decodeUniProtEntry L body in
      mkResolved entry [] err (fo_fs o1) (fo_now o1)
  | (_, Some err) =>
      let o2 := searchLookup L (fo_fs o1) (fo_now o1) cacheDir identifier in
      match fo_result o2 with
      | (_, Some _) => mkResolved emptyEntry [] (Some err) (fo_fs o2) (fo_now o2)
      | (searchBody, None) =>
          match extractFirstAccession L searchBody with
          | (_, Some err) => mkResolved emptyEntry [] (Some err) (fo_fs o2) (fo_now o2)
          | (accession, None) =>
              let warnings :=
                ["resolved " +:+ lib_quote L identifier
                 +:+ " to UniProt accession " +:+ accession] in
              let o3 := entryLookup L (fo_fs o2) (fo_now o2) cacheDir accession in
              match fo_result o3 with
              | (_, Some err) =>
                  mkResolved emptyEntry warnings (Some err) (fo_fs o3) (fo_now o3)
              | (entryBody, None) =>
                  let '(entry, err) := decodeUniProtEntry L entryBody in
                  mkResolved entry warnings err (fo_fs o3) (fo_now o3)
              end
          end
      end
  end.

(** The two cached requests of [fetchAlphaFoldPLDDT]. *)
Definition predictionLookup (L : library) (fs : fileSystem) (now : Z)
    (cacheDir accession : string) : fetchOutcome :=
  cached L fs now cacheDir "alphafold" accession
    (httpGetAt L (alphafoldPredictionURL +:+ "/" +:+ lib_PathEscape L accession)).

Definition modelLookup (L : library) (fs : fileSystem) (now : Z)
    (cacheDir accession pdbURL : string) : fetchOutcome :=
  cached L fs now cacheDir "alphafold-pdb" accession (httpGetAt L pdbURL).

Definition fetchAlphaFoldPLDDT (L : library) (fs : fileSystem) (now : Z)
    (cacheDir accession : string) : resolved (list float) :=
  let o1 := predictionLookup L fs now cacheDir accession in
  match fo_result o1 with
  | (_, Some err) =>
      mkResolved [] [] (Some ("alphafold lookup failed: " +:+ err)) (fo_fs o1) (fo_now o1)
  | (body, None) =>
      match normalizeJSON L body with
      | (_, Some err) => mkResolved [] [] (Some err) (fo_fs o1) (fo_now o1)
      | (normalized, None) =>
          match lib_jsonPredictions L normalized with
          | inr err => mkResolved [] [] (Some err) (fo_fs o1) (fo_now o1)
          | inl [] =>
              mkResolved [] [] (Some "alphafold response empty") (fo_fs o1) (fo_now o1)
          | inl (first :: _) =>
              if len (af_Plddt first) >? 0 then
                mkResolved (af_Plddt first) [] None (fo_fs o1) (fo_now o1)
              else if String.eqb (af_PdbURL first) "" then
                mkResolved [] ["AlphaFold model lacks pLDDT array and pdbUrl"] None
                  (fo_fs o1) (fo_now o1)
              else
                let o2 := modelLookup L (fo_fs o1) (fo_now o1) cacheDir accession
                            (af_PdbURL first) in
                match fo_result o2 with
                | (_, Some err) => mkResolved [] [] (Some err) (fo_fs o2) (fo_now o2)
                | (pdbBody, None) =>
                    match parsePLDDTFromPDB (lib_TrimSpace L) (atoiOk L)
                            (lib_ParseFloat L) pdbBody with
                    | (_, Some err) => mkResolved [] [] (Some err) (fo_fs o2) (fo_now o2)
                    | (plddt, None) => mkResolved plddt [] None (fo_fs o2) (fo_now o2)
                    end
                end
          end
      end
  end.

(** ** The [--region] flag *)

Definition parseRegion (L : library) (region : string)
    : option rangeInfo * string * option string :=
  if String.eqb region "" then (None, "", None)
  else
    match lib_rangePattern L region with
    | Some (m1, m2) =>
        let start := fst (lib_Atoi L m1) in
        let end_ := fst (lib_Atoi L m2) in
        if (start <=? 0) || (end_ <=? 0) || (start >? end_) then
          (None, "", Some "region range must be start-end with start <= end")
        else (Some (mkRange start end_ "" "user_region" "user"), "", None)
    | None => (None, lib_TrimSpace L region, None)
    end.

(** ** From the flags to the evidence *)

Record flags := mkFlags {
  fl_uniprot : string;
  fl_sequence : string;
  fl_name : string;
  fl_region : string;
  fl_minLength : Z;
  fl_maxLength : Z
}.

(** What [main] has gathered when it starts to build candidates. *)
Record gathered := mkGathered {
  g_input : evidenceInput;
  g_name : string;
  g_entry : uniProtEntry;
  g_warnings : list string
}.

Definition notIntegratedNotice : string :=
  "IUPred/PSIPRED not integrated; loop detection uses pLDDT and UniProt secondary structure when available.".

(** The second half of the gathering, from the sequence on. *)
Definition gatherEvidence (L : library) (fs : fileSystem) (now : Z) (cacheDir : string)
    (fl : flags) (entry : uniProtEntry) (sequence name : string)
    (warnings : list string) : (string + gathered) * fileSystem * Z :=
  let sequence := sanitizeSequence (lib_ToUpper L) sequence in
  if String.eqb sequence "" then (inl "sequence is empty after sanitization", fs, now)
  else
    let '(plddt, warnings, fs, now) :=
      if negb (String.eqb (e_PrimaryAccession entry) "") then
        let r := fetchAlphaFoldPLDDT L fs now cacheDir (e_PrimaryAccession entry) in
        let warnings :=
          match rs_err r with
          | Some err => warnings ++ [err]
          | None => warnings
          end in
        (rs_value r, warnings ++ rs_warnings r, rs_fs r, rs_now r)
      else ([], warnings, fs, now) in
    let warnings :=
      if (len plddt >? 0) && negb (len plddt =? Z.of_nat (String.length sequence)) then
        warnings ++ ["pLDDT length (" +:+ pretty (len plddt)
                     +:+ ") does not match sequence length ("
                     +:+ pretty (Z.of_nat (String.length sequence)) +:+ ")"]
      else warnings in
    let features := extractFeatures (lib_ToUpper L) (e_Features entry) in
    let pdbRanges :=
      extractPDBRanges (lib_ToUpper L) (lib_TrimSpace L) (atoiOk L)
        (e_CrossReferences entry) in
    match parseRegion L (fl_region fl) with
    | (_, _, Some err) => (inl ("invalid --region: " +:+ err), fs, now)
    | (regionRange, regionName, None) =>
        (inr (mkGathered
                (mkInput sequence plddt (fs_domains features) (fs_helixes features)
                   (fs_strands features) (fs_activeSites features)
                   (fs_ptmPositions features) pdbRanges regionRange regionName)
                name entry warnings),
         fs, now)
    end.

Definition mainGather (L : library) (fs : fileSystem) (now : Z) (cacheDir : string)
    (fl : flags) : (string + gathered) * fileSystem * Z :=
  if String.eqb (fl_sequence fl) "" && String.eqb (fl_uniprot fl) "" then
    (inl "provide --uniprot or --sequence", fs, now)
  else if negb (String.eqb (fl_sequence fl) "") && String.eqb (fl_name fl) "" then
    (inl "provide --name with --sequence", fs, now)
  else
    let warnings := [notIntegratedNotice] in
    if String.eqb (fl_sequence fl) "" then
      let r := fetchUniProtEntry L fs now cacheDir (fl_uniprot fl) in
      match rs_err r with
      | Some err => (inl ("failed to fetch UniProt entry: " +:+ err), rs_fs r, rs_now r)
      | None =>
          let entry := rs_value r in
          let name :=
            if String.eqb (fl_name fl) "" then
              if String.eqb (e_UniProtKBID entry) "" then e_PrimaryAccession entry
              else e_UniProtKBID entry
            else fl_name fl in
          gatherEvidence L (rs_fs r) (rs_now r) cacheDir fl entry
            (e_SequenceValue entry) name (rs_warnings r)
      end
    else
      gatherEvidence L fs now cacheDir fl emptyEntry (fl_sequence fl) (fl_name fl) warnings.

(** [main] up to the ranked shortlist. *)
Definition mainRun (L : library) (fs : fileSystem) (now : Z) (cacheDir : string)
    (fl : flags) : outcome :=
  match fst (fst (mainGather L fs now cacheDir fl)) with
  | inl message => Fatal message
  | inr g => mainRank (lib_ToLower L) (g_input g) (fl_minLength fl) (fl_maxLength fl)
  end.

(** ** Statistics of a construct *)

(** The loop [for i := startIdx; i <= endIdx; i++] of [plddtStats] on the
    state [(sum, disorder, count)]. *)
Fixpoint plddtStatsLoop (fuel : nat) (plddt : list float) (i endIdx : Z)
    (sum : float) (disorder count : Z) : float * Z * Z :=
  match fuel with
  | O => (sum, disorder, count)
  | S fuel' =>
      if i <=? endIdx then
        let v := idx 0%float plddt i in
        plddtStatsLoop fuel' plddt (i + 1) endIdx (PrimFloat.add sum v)
          (if PrimFloat.ltb v 50 then disorder + 1 else disorder) (count + 1)
      else (sum, disorder, count)
  end.

(** [Round] is [math.Round]. *)
Definition plddtStats (Round : float -> float) (plddt : list float)
    (start end_ : Z) : float * float :=
  let startIdx := max 0 (start - 1) in
  let endIdx := min (len plddt - 1) (end_ - 1) in
  let '(sum, disorder, count) :=
    plddtStatsLoop (Z.to_nat (endIdx - startIdx + 1)) plddt startIdx endIdx 0%float 0 0 in
  if count =? 0 then (0%float, 0%float)
  else
    (PrimFloat.div (Round (PrimFloat.mul (PrimFloat.div sum (float64 count)) 10)) 10,
     PrimFloat.div
       (Round (PrimFloat.mul (PrimFloat.div (float64 disorder) (float64 count)) 100)) 100).

(** * Definitions used to state the properties *)

(** In the order [less] induces, [y] may stand to the right of [z]. *)
Definition mayFollow {A} (less : A -> A -> bool) (y z : A) : Prop :=
  less y z = false.

(** The guarantee of [sort.Slice] on any slice: a permutation in which no
    element is [less] than an earlier one. *)
Definition sortedBy {A} (less : A -> A -> bool) (data out : list A) : Prop :=
  out ≡ₚ data
  /\ forall (i j : nat) a b,
       (i < j)%nat -> out !! i = Some a -> out !! j = Some b -> less b a = false.

(** What the mask holds at index [i]: whether [plddt[i]] exists and is
    below 50. *)
Definition below50At (plddt : list float) (i : nat) : bool :=
  match plddt !! i with
  | Some x => PrimFloat.ltb x 50
  | None => false
  end.

(** Both loops are one loop on the flag value whose runs are wanted. *)
Fixpoint runsLoop (want : bool) (ty : string) (flags : list bool) (i : Z)
    (start : Z) (regions : list rangeInfo) : Z * list rangeInfo :=
  match flags with
  | [] => (start, regions)
  | flag :: rest =>
      let start1 := if Bool.eqb flag want && (start =? 0) then i + 1 else start in
      if negb (Bool.eqb flag want) && negb (start1 =? 0) then
        runsLoop want ty rest (i + 1) 0 (regions ++ [mkRange start1 i "" ty "pLDDT"])
      else runsLoop want ty rest (i + 1) start1 regions
  end.

(** The loop followed by the final flush, started in the middle of a mask:
    [i] flags have been consumed and [flags] remain. *)
Definition finishRuns (want : bool) (ty : string) (flags : list bool) (i : Z)
    (start : Z) (regions : list rangeInfo) : list rangeInfo :=
  let '(start', regions') := runsLoop want ty flags i start regions in
  if negb (start' =? 0)
  then regions' ++ [mkRange start' (i + len flags) "" ty "pLDDT"]
  else regions'.

Definition covers (p : Z) (r : rangeInfo) : bool :=
  (ri_Start r <=? p) && (p <=? ri_End r).

(** The number of ranges of [l] that contain position [p]. *)
Definition coverCount (p : Z) (l : list rangeInfo) : nat :=
  List.length (List.filter (covers p) l).

(** Position [p], 1-indexed, lies after the first [i] residues and carries
    the wanted flag in [flags]. *)
Definition hitAt (want : bool) (flags : list bool) (i p : Z) : bool :=
  (i <? p) &&
  match flags !! Z.to_nat (p - i - 1) with
  | Some f => Bool.eqb f want
  | None => false
  end.

Definition b2n (b : bool) : nat := if b then 1%nat else 0%nat.

(** The key ["%d-%d"] determines a pair of positive positions. *)
Definition isDigit (c : ascii) : bool :=
  match c with
  | "0" | "1" | "2" | "3" | "4" | "5" | "6" | "7" | "8" | "9" => true
  | _ => false
  end%char.

Fixpoint digitsOnly (s : string) : bool :=
  match s with
  | EmptyString => true
  | String c s' => isDigit c && digitsOnly s'
  end.

(** The filter of [addCandidate], as a property of a candidate. *)
Definition withinBounds (minLength maxLength : Z) (c : candidate) : Prop :=
  1 <= c_Start c /\ c_Start c <= c_End c
  /\ minLength <= c_End c - c_Start c + 1
  /\ (maxLength > 0 -> c_End c - c_Start c + 1 <= maxLength).

Definition startEnd (c : candidate) : Z * Z := (c_Start c, c_End c).

(** The invariant of the pair [(candidates, seen)]: every candidate passed
    the filter and is recorded in [seen], no [(start, end)] occurs twice, and
    [seen] records the keys of candidates only. *)
Definition builderInv (minLength maxLength : Z)
    (st : list candidate * gmap string bool) : Prop :=
  Forall (withinBounds minLength maxLength) (fst st)
  /\ Forall (fun c => seenKey (snd st) (candidateKey (c_Start c) (c_End c)) = true) (fst st)
  /\ NoDup (map startEnd (fst st))
  /\ forall key, seenKey (snd st) key = true ->
       Exists (fun c => candidateKey (c_Start c) (c_End c) = key) (fst st).

(** The signed terms of a boundary, in the order the code tests them: the
    condition, the amount added to the score, the rationale. *)
Definition signedTerms (pos : Z) (side : string) (ctx : boundaryContext)
    : list (bool * float * string) :=
  [ (isDisorderTransition pos side (ctx_Disorder ctx), 30, "disorder transition");
    (isDomainBoundary pos (ctx_DomainRanges ctx), 25, "domain boundary");
    (isLoopRegion pos (ctx_PLDDT ctx), 20, "loop-like region");
    (hasStructuredSide pos side (ctx_PLDDT ctx), 15, "high pLDDT side");
    (matchesPDBBoundary pos (ctx_PDBRanges ctx), 10, "PDB boundary");
    (withinRanges pos (ctx_HelixRanges ctx) || withinRanges pos (ctx_StrandRanges ctx),
     -50, "cuts secondary structure");
    (withinRanges pos (ctx_ActiveSites ctx), -100, "near active site");
    (withinPositions pos (ctx_PTMPositions ctx) 5, -20, "near PTM site") ]%float.

(** The sum of the terms whose condition holds. *)
Definition triggeredSum (terms : list (bool * float * string)) : float :=
  fold_left (fun (sum : float) (t : bool * float * string) =>
               if fst (fst t) then PrimFloat.add sum (snd (fst t)) else sum)
    terms 0%float.

(** The values a boundary score can take, and the values their averages can
    take. *)
Definition boundaryValues : list float :=
  [0; 5; 10; 15; 20; 25; 30; 35; 40; 45; 50; 55; 60; 65; 70; 75; 80; 85; 90;
   95; 100]%float.

Definition scoreValues : list float :=
  [0; 2.5; 5; 7.5; 10; 12.5; 15; 17.5; 20; 22.5; 25; 27.5; 30; 32.5; 35; 37.5;
   40; 42.5; 45; 47.5; 50; 52.5; 55; 57.5; 60; 62.5; 65; 67.5; 70; 72.5; 75;
   77.5; 80; 82.5; 85; 87.5; 90; 92.5; 95; 97.5; 100]%float.

Definition inUnitRange (x : float) : bool :=
  PrimFloat.leb 0 x && PrimFloat.leb x 100.

(** On scores, [==] is symmetric, equal scores are not ordered by [<], and
    of two different scores exactly one is the smaller. *)
Definition orderedPair (a b : float) : bool :=
  Bool.eqb (PrimFloat.eqb a b) (PrimFloat.eqb b a)
  && (if PrimFloat.eqb a b
      then negb (PrimFloat.ltb a b) && negb (PrimFloat.ltb b a)
      else xorb (PrimFloat.ltb a b) (PrimFloat.ltb b a)).

(** What the scorer leaves in a candidate: the score is the average of the
    two boundary scores, each of which is the clamped sum of the triggered
    terms, and all three lie between 0 and 100. *)
Definition scoredBy (ctx : boundaryContext) (c : candidate) : Prop :=
  c_Score c
  = PrimFloat.div
      (PrimFloat.add (fst (boundaryScore (c_Start c) "start" ctx))
                     (fst (boundaryScore (c_End c) "end" ctx))) 2
  /\ fst (boundaryScore (c_Start c) "start" ctx)
     = clamp (triggeredSum (signedTerms (c_Start c) "start" ctx)) 0 100
  /\ fst (boundaryScore (c_End c) "end" ctx)
     = clamp (triggeredSum (signedTerms (c_End c) "end" ctx)) 0 100
  /\ inUnitRange (fst (boundaryScore (c_Start c) "start" ctx)) = true
  /\ inUnitRange (fst (boundaryScore (c_End c) "end" ctx)) = true
  /\ inUnitRange (c_Score c) = true.

Definition hasTableScore (c : candidate) : Prop := In (c_Score c) scoreValues.

(** The order of two neighbours of the ranked list: the first has the
    strictly greater score, or the scores are equal and the first is not
    longer than the second. *)
Definition rankOrder (a b : candidate) : Prop :=
  PrimFloat.ltb (c_Score b) (c_Score a) = true
  \/ (PrimFloat.eqb (c_Score a) (c_Score b) = true /\ Length a <= Length b).

(** The average confidence over the residues [first..last], 1-indexed as
    all boundary positions are: residue [r] has its confidence at index
    [r - 1].  The window is clipped to the array. *)
Definition residueWindowAvg (plddt : list float) (first last : Z) : float :=
  avgWindow plddt (first - 1) (last - 1).

(** The loop-like condition as the specification words it for a boundary at
    residue [pos]: the window of the two residues on either side of [pos]
    averages below 70, and the six residues beyond it on each side average
    above 70. *)
Definition loopLikeAt (pos : Z) (plddt : list float) : bool :=
  PrimFloat.ltb (residueWindowAvg plddt (pos - 2) (pos + 2)) 70
  && PrimFloat.ltb 70 (residueWindowAvg plddt (pos - 8) (pos - 3))
  && PrimFloat.ltb 70 (residueWindowAvg plddt (pos + 3) (pos + 8)).

(** A confidence profile of twenty residues: residue 8 has confidence 0,
    residues 9-12 have 80, all others 100. *)
Definition dipProfile : list float :=
  [100; 100; 100; 100; 100; 100; 100; 0; 80; 80;
   80; 80; 100; 100; 100; 100; 100; 100; 100; 100]%float.


(** A codec for records written at time 0: the file holds the payload. *)
Definition epochMarshal (entry : cacheEntry) : list byte + string :=
  if FetchedAt entry =? 0 then inl (Payload entry) else inr "unsupported time".

Definition epochUnmarshal (data : list byte) : option cacheEntry :=
  Some (mkEntry 0 data).

Definition emptyDisk : fileSystem := mkFS ∅ (fun _ => None) (fun _ => None).

Definition slashJoin (parts : list string) : string := String.concat "/" parts.

(** The failures the client retries according to the specification: a
    network failure, or a status that is neither 2xx nor 404. *)
Definition isTransient (r : getResult) : bool :=
  match r with
  | GetErr _ => true
  | GetResp resp =>
      negb (StatusCode resp =? 404)
      && ((StatusCode resp <? 200) || (StatusCode resp >=? 300))
  end.

(** The error such a failure leaves in [lastErr]. *)
Definition transientError (r : getResult) : string :=
  match r with
  | GetErr e => e
  | GetResp resp => "http status " +:+ pretty (StatusCode resp)
  end.

Definition notFound (r : getResult) : bool :=
  match r with
  | GetErr _ => false
  | GetResp resp => StatusCode resp =? 404
  end.

(** A protein of 300 residues without confidence data, with one domain of
    151 residues and one region of 51, and no [--region]. *)
Definition twoDomainInput : evidenceInput :=
  mkInput (string_of_list_ascii (replicate 300 "A"%char)) []
    [mkRange 100 250 "Kinase" "Domain" "UniProt";
     mkRange 10 60 "Linker" "Region" "UniProt"]
    [] [] [] [] [] None "".

(** The rationale strings of the terms whose condition holds, in order. *)
Definition triggeredLabels (terms : list (bool * float * string)) : list string :=
  map snd (List.filter (fun t : bool * float * string => fst (fst t)) terms).

(** A pair [(start, end)] that passes the filter of [addCandidate]. *)
Definition okPair (minLength maxLength start end_ : Z) : Prop :=
  0 < start /\ start <= end_ /\ minLength <= end_ - start + 1
  /\ (maxLength > 0 -> end_ - start + 1 <= maxLength).

(** The candidate [addCandidate] appends for its arguments. *)
Definition freshCandidate (start end_ : Z) (source name pdbID : string) : candidate :=
  mkCandidate start end_ source name pdbID 0%float [] (mkEvidence "" "" 0%float 0%float).

(** Where a candidate of [buildCandidates] comes from: one of the four
    generation rules, with the source, name and structure id the rule gives. *)
Definition candidateOrigin (ToLower : string -> string)
    (regionRange : option rangeInfo) (regionName : string)
    (domains : list rangeInfo) (pdbRanges : list pdbRange)
    (disordered : list bool) (c : candidate) : Prop :=
  (exists r, regionRange = Some r
     /\ c = freshCandidate (ri_Start r) (ri_End r) "user" "user_region" "")
  \/ (exists d, In d domains
        /\ (regionName = "" \/ Contains (ToLower (ri_Name d)) (ToLower regionName) = true)
        /\ c = freshCandidate (ri_Start d) (ri_End d) "domain" (ri_Name d) "")
  \/ (exists p, In p pdbRanges
        /\ c = freshCandidate (pdb_Start p) (pdb_End p) "pdb" (pdb_ID p) (pdb_ID p))
  \/ (regionRange = None /\ regionName = ""
      /\ exists seg, In seg (orderedRanges disordered)
           /\ c = freshCandidate (ri_Start seg) (ri_End seg) "ordered" "ordered_segment" "").

(** The candidates [main] hands to the scorer. *)
Definition mainCandidates (ToLower : string -> string) (inp : evidenceInput)
    (minLength maxLength : Z) : list candidate :=
  buildCandidates ToLower (in_sequence inp) (in_regionRange inp) (in_regionName inp)
    (in_domains inp) (in_pdbRanges inp) (mainDisorder inp)
    (effectiveMinLength minLength) maxLength.

(** The flag of residue [p], 1-indexed; [None] outside the mask. *)
Definition flagAt (mask : list bool) (p : Z) : option bool :=
  if p <? 1 then None else mask !! Z.to_nat (p - 1).

(** [r] is a maximal run of [want] in [mask]: it lies in the mask, every
    residue in it carries [want], and the residues just before and just
    after it do not. *)
Definition maximalRun (want : bool) (mask : list bool) (r : rangeInfo) : Prop :=
  1 <= ri_Start r /\ ri_Start r <= ri_End r /\ ri_End r <= len mask
  /\ (forall p, ri_Start r <= p <= ri_End r -> flagAt mask p = Some want)
  /\ flagAt mask (ri_Start r - 1) <> Some want
  /\ flagAt mask (ri_End r + 1) <> Some want.

(** The state of the loop after the prefix [pre]: no run is open and the
    last flag was not the wanted one, or the open run started at [start]
    and is maximal to the left. *)
Definition pendingRun (want : bool) (pre : list bool) (start : Z) : Prop :=
  (start = 0 /\ flagAt pre (len pre) <> Some want)
  \/ (1 <= start <= len pre
      /\ (forall p, start <= p <= len pre -> flagAt pre p = Some want)
      /\ flagAt pre (start - 1) <> Some want).

(** [b] comes after [a] with at least one residue between them. *)
Definition apart (a b : rangeInfo) : Prop := ri_End a + 1 < ri_Start b.

(** Whether the character [c] occurs in [s]. *)
Fixpoint hasChar (c : ascii) (s : string) : bool :=
  match s with
  | EmptyString => false
  | String c' s' => Ascii.eqb c' c || hasChar c s'
  end.

(** Whether [httpGet] answers [r] with [continue], and the error it then
    keeps in [lastErr]: a failed request, a status that is neither 404 nor
    2xx, or a 2xx answer whose body could not be read. *)
Definition retryError (r : getResult) : option string :=
  match r with
  | GetErr e => Some e
  | GetResp resp =>
      if StatusCode resp =? 404 then None
      else if (StatusCode resp <? 200) || (StatusCode resp >=? 300) then
        Some ("http status " +:+ pretty (StatusCode resp))
      else match Body resp with
           | ReadErr e => Some e
           | ReadOk _ => None
           end
  end.

(** A 2xx answer whose body was read as [body]. *)
Definition goodAnswer (r : getResult) (body : list byte) : Prop :=
  exists resp, r = GetResp resp
    /\ 200 <= StatusCode resp < 300 /\ Body resp = ReadOk body.

(** Whether [httpGet] decompresses the body of [r]. *)
Definition compressed (r : getResult) (body : list byte) : bool :=
  match r with
  | GetErr _ => false
  | GetResp resp => String.eqb (ContentEncoding resp) "gzip" || isGzip body
  end.

(** The characters [sanitizeSequence] removes. *)
Definition isStripped (c : ascii) : bool :=
  Ascii.eqb c " " || Ascii.eqb c "010" || Ascii.eqb c "013" || Ascii.eqb c "009".

(** A feature with a usable location: a position, or a start and an end,
    none of them 0. *)
Definition located (f : uniProtFeature) : bool :=
  negb ((fst (featureRange (f_Location f)) =? 0) || (snd (featureRange (f_Location f)) =? 0)).

(** The range recorded for a feature. *)
Definition featureInfo (f : uniProtFeature) : rangeInfo :=
  mkRange (fst (featureRange (f_Location f))) (snd (featureRange (f_Location f)))
    (f_Description f) (f_Type f) "UniProt".

(** The located features whose upper-cased type is one of [labels]. *)
Definition ofKind (ToUpper : string -> string) (labels : list string)
    (features : list uniProtFeature) : list uniProtFeature :=
  List.filter (fun f : uniProtFeature => located f && oneOf labels (ToUpper (f_Type f))) features.

Definition ptmLabels : list string :=
  ["MOD_RES"; "CARBOHYD"; "LIPID"; "DISULFID"; "CROSSLINK"; "METAL"].

(** The part of [values] a window from [start] to [end_] (0-based,
    inclusive) covers. *)
Definition windowValues (values : list float) (start end_ : Z) : list float :=
  take (Z.to_nat (min (len values - 1) end_ - max 0 start + 1))
    (drop (Z.to_nat (max 0 start)) values).

(** The loop invariant of [uniqueStrings]: [seen] holds exactly the strings
    of [out], which are distinct, non-empty, and the first occurrences in
    the trimmed items read so far. *)
Definition uniqueInv (TrimSpace : string -> string) (read : list string)
    (st : gmap string bool * list string) : Prop :=
  NoDup (snd st)
  /\ (forall x, default false (fst st !! x) = true <-> x ∈ snd st)
  /\ (forall x, x ∈ snd st <-> x <> "" /\ x ∈ TrimSpace <$> read)
  /\ snd st `sublist_of` TrimSpace <$> read.

(** The invariant of the loop of [extractFeatures] after the features
    [read]. *)
Definition featuresInv (ToUpper : string -> string) (read : list uniProtFeature)
    (acc : featureSets) : Prop :=
  fs_domains acc = map featureInfo (ofKind ToUpper ["DOMAIN"; "REGION"; "REPEAT"] read)
  /\ fs_helixes acc = map featureInfo (ofKind ToUpper ["HELIX"] read)
  /\ fs_strands acc = map featureInfo (ofKind ToUpper ["STRAND"] read)
  /\ fs_activeSites acc = map featureInfo (ofKind ToUpper ["ACT_SITE"] read)
  /\ fs_ptmPositions acc
     = map (fun f => fst (featureRange (f_Location f))) (ofKind ToUpper ptmLabels read).

(** A line [parsePLDDTFromPDB] looks at: an [ATOM] record of at least 66
    characters whose atom name is [CA]. *)
Definition caLine (TrimSpace : string -> string) (line : string) : bool :=
  String.prefix "ATOM" line && negb (String.length line <? 66)%nat
  && String.eqb (TrimSpace (substring 12 4 line)) "CA".

(** The C-alpha atoms of a file, in order: the residue number of each
    [caLine] whose number is readable, with its B-factor if that is
    readable. *)
Definition caAtoms (TrimSpace : string -> string)
    (Atoi : string -> option Z) (ParseFloat : string -> option float)
    (lines : list string) : list (Z * option float) :=
  omap (fun line : string =>
          if caLine TrimSpace line then
            match Atoi (TrimSpace (substring 22 4 line)) with
            | Some resSeq => Some (resSeq, ParseFloat (TrimSpace (substring 60 6 line)))
            | None => None
            end
          else None) lines.

(** The first atom of each run of atoms with the same residue number,
    [last] being the number before the first atom. *)
Fixpoint firstOfRuns {A} (last : Z) (atoms : list (Z * A)) : list (Z * A) :=
  match atoms with
  | [] => []
  | (resSeq, x) :: rest =>
      if resSeq =? last then firstOfRuns last rest
      else (resSeq, x) :: firstOfRuns resSeq rest
  end.

(** A chain part of the form [chains=start-end], up to the spaces
    [TrimSpace] removes. *)
Definition spansAs (TrimSpace : string -> string) (Atoi : string -> option Z)
    (part : string) (start end_ : Z) : Prop :=
  exists chains span a b,
    splitOn "=" (TrimSpace part) = [chains; span]
    /\ splitOn "-" (TrimSpace span) = [a; b]
    /\ Atoi (TrimSpace a) = Some start
    /\ Atoi (TrimSpace b) = Some end_.

(** What one span, one chain part and one cross-reference contribute:
    the ranges the loop bodies append to an empty slice. *)
Definition spanRanges (TrimSpace : string -> string) (Atoi : string -> option Z)
    (ref : uniProtCrossRef) (method resolution span : string) : list pdbRange :=
  spanStep TrimSpace Atoi ref method resolution [] span.

Definition chainRanges (TrimSpace : string -> string) (Atoi : string -> option Z)
    (ref : uniProtCrossRef) (method resolution chainPart : string) : list pdbRange :=
  chainStep TrimSpace Atoi ref method resolution [] chainPart.

Definition crossRefRanges (ToUpper TrimSpace : string -> string)
    (Atoi : string -> option Z) (ref : uniProtCrossRef) : list pdbRange :=
  crossRefStep ToUpper TrimSpace Atoi [] ref.

(** The parts of the [Chains] property of the PDB cross-references. *)
Definition isPDB (ToUpper : string -> string) (ref : uniProtCrossRef) : bool :=
  String.eqb (ToUpper (x_Database ref)) "PDB".

Definition chainParts (ref : uniProtCrossRef) : list string :=
  splitOn "," (property (x_Properties ref) "Chains").

(** An unsigned decimal number, standing in for [strconv.Atoi]. *)
Fixpoint decimalLoop (s : string) (acc : Z) : option Z :=
  match s with
  | EmptyString => Some acc
  | String c s' =>
      if isDigit c then decimalLoop s' (10 * acc + (Z.of_N (N_of_ascii c) - 48))
      else None
  end.

Definition decimal (s : string) : option Z :=
  if String.eqb s "" then None else decimalLoop s 0.

(** The name under which an entry of the array form is stored: its
    ["key"], or else its ["property"]. *)
Definition entryKey (entry : gmap string string) : string :=
  if String.eqb (property entry "key") "" then property entry "property"
  else property entry "key".

(** The last entry of the array stored under [key]. *)
Definition lastEntry (key : string) (entries : list (gmap string string))
    : option (gmap string string) :=
  last (List.filter (fun entry => String.eqb (entryKey entry) key) entries).

(** A path that is not the record of any key of the cache directory. *)
Definition outsideCache (L : library) (cacheDir p : string) : Prop :=
  forall namespace key,
    p <> cacheFilePath (lib_ToLower L) (lib_Join L) cacheDir namespace key.

(** The length filter of [addCandidate]. *)
Definition lengthAllowed (minLength maxLength length : Z) : bool :=
  negb (length <? minLength) && negb ((maxLength >? 0) && (length >? maxLength)).

(** The evidence [main] has for a bare sequence: nothing but the sequence. *)
Definition bareInput (sequence : string) : evidenceInput :=
  mkInput sequence [] [] [] [] [] [] [] None "".

(** The full-length construct of a protein of [n] residues, as [main] ranks
    it when it has no evidence: both ends are transitions from disorder. *)
Definition fullLength (n : Z) : candidate :=
  mkCandidate 1 n "ordered" "ordered_segment" "" 30%float
    ["disorder transition"; "disorder transition"] (mkEvidence "" "" 0%float 0%float).

(** An environment without network, with decimal numbers and with ranges
    written [start-end] without spaces. *)
Definition plainLibrary : library :=
  mkLibrary (fun s => s) (fun s => s) (fun s => s)
    (fun s => match decimal s with
              | Some v => (v, None)
              | None => (0, Some "invalid syntax")
              end)
    (fun _ => None) slashJoin (fun s => s) (fun s => s) (fun s => s) (fun s => s)
    (fun s => match splitOn "-" s with
              | [a; b] =>
                  if digitsOnly a && digitsOnly b
                     && negb (String.eqb a "") && negb (String.eqb b "")
                  then Some (a, b) else None
              | _ => None
              end)
    epochMarshal epochUnmarshal
    (fun _ => inr "unexpected end of JSON input")
    (fun _ => inr "unexpected end of JSON input")
    (fun _ => inr "unexpected end of JSON input")
    (fun body => (body, None))
    (fun _ _ _ => GetErr "no route to host")
    (fun _ => 0).

(** An environment in which every request is answered with an empty JSON
    object that decodes to an entry of five residues, and nothing else
    decodes. *)
Definition entryLibrary : library :=
  mkLibrary (fun s => s) (fun s => s) (fun s => s)
    (fun s => match decimal s with
              | Some v => (v, None)
              | None => (0, Some "invalid syntax")
              end)
    (fun _ => None) slashJoin (fun s => s) (fun s => s) (fun s => s) (fun s => s)
    (fun _ => None)
    epochMarshal epochUnmarshal
    (fun _ => inl (mkUniProtEntry "P04637" "P53_HUMAN" "" [] "MEEPQ" 5 [] [] []))
    (fun _ => inr "unexpected end of JSON input")
    (fun _ => inr "unexpected end of JSON input")
    (fun body => (body, None))
    (fun _ _ _ => GetResp (mkResponse 200 "" (ReadOk [x7b; x7d]%byte)))
    (fun _ => 0).

(** The evidence [scoreCandidates] attaches to a candidate, read off its
    source: the structure id, the domain name of a candidate proposed from
    a domain, and no statistics yet. *)
Definition evidenceOfSource (c : candidate) : Prop :=
  ev_PDBMatch (c_Evidence c) = c_PDBID c
  /\ (c_PDBID c <> "" -> c_Source c = "pdb")
  /\ ev_Domain (c_Evidence c)
     = (if String.eqb (c_Source c) "domain" then c_Name c else "")
  /\ ev_AvgPLDDT (c_Evidence c) = 0%float
  /\ ev_DisorderFraction (c_Evidence c) = 0%float.

(** * Properties *)

(** ** Disorder computer *)

Lemma disorderLoop_length fuel : forall i n plddt d,
  List.length (disorderLoop fuel i n plddt d) = List.length d.
Proof.
  induction fuel as [|fuel IH]; intros i n plddt d; simpl; [done|].
  destruct ((i <? n)%nat && (i <? List.length plddt)%nat); [|done].
  rewrite IH. destruct (PrimFloat.ltb _ _); [apply length_insert|done].
Qed.

Ltac nat_cases :=
  repeat match goal with
  | |- context [(?a <=? ?b)%nat] => destruct (Nat.leb_spec a b)
  | |- context [(?a <? ?b)%nat] => destruct (Nat.ltb_spec a b)
  end; simpl; try lia; try done.

Lemma disorderLoop_lookup fuel : forall i n plddt d j,
  List.length d = n ->
  disorderLoop fuel i n plddt d !! j =
    if (i <=? j)%nat && (j <? i + fuel)%nat && (j <? n)%nat && below50At plddt j
    then Some true else d !! j.
Proof.
  induction fuel as [|fuel IH]; intros i n plddt d j Hd; simpl.
  - nat_cases.
  - destruct ((i <? n)%nat && (i <? List.length plddt)%nat) eqn:Hc.
    + apply andb_true_iff in Hc as [Hin Hip].
      apply Nat.ltb_lt in Hin, Hip.
      destruct (lookup_lt_is_Some_2 plddt i Hip) as [x Hx].
      rewrite IH by (destruct (PrimFloat.ltb _ _); rewrite ?length_insert; done).
      rewrite Hx. cbn -[Nat.leb Nat.ltb].
      destruct (decide (j = i)) as [->|Hne].
      * unfold below50At. rewrite Hx. nat_cases.
        destruct (PrimFloat.ltb x 50); [|done].
        apply list_lookup_insert_eq. lia.
      * assert (Hd' : (if PrimFloat.ltb x 50 then <[i:=true]> d else d) !! j = d !! j).
        { destruct (PrimFloat.ltb x 50); [|done].
          apply list_lookup_insert_ne. done. }
        rewrite Hd'. nat_cases.
    + apply andb_false_iff in Hc as [Hc|Hc]; apply Nat.ltb_ge in Hc.
      * nat_cases.
      * unfold below50At.
        destruct (Nat.leb_spec i j); simpl; [|done].
        rewrite (lookup_ge_None_2 plddt j) by lia. rewrite andb_false_r. done.
Qed.

Lemma computeDisorderedRegions_length plddt n :
  List.length (computeDisorderedRegions plddt n) = n.
Proof.
  unfold computeDisorderedRegions.
  destruct (_ || _); [apply length_replicate|].
  rewrite disorderLoop_length. apply length_replicate.
Qed.

Lemma computeDisorderedRegions_lookup plddt n i :
  computeDisorderedRegions plddt n !! i =
    if (i <? n)%nat then Some (below50At plddt i) else None.
Proof.
  unfold computeDisorderedRegions.
  destruct ((List.length plddt =? 0)%nat || (n =? 0)%nat) eqn:Hz.
  - destruct (Nat.ltb_spec i n) as [Hi|Hi].
    + rewrite lookup_replicate_2 by done.
      apply orb_true_iff in Hz as [Hz|Hz]; apply Nat.eqb_eq in Hz; [|lia].
      unfold below50At. rewrite lookup_ge_None_2 by lia. done.
    + apply lookup_ge_None_2. rewrite length_replicate. done.
  - rewrite disorderLoop_lookup by apply length_replicate.
    simpl. destruct (Nat.ltb_spec i n) as [Hi|Hi].
    + replace (i <? 0 + n)%nat with true by (symmetry; apply Nat.ltb_lt; lia).
      simpl. destruct (below50At plddt i); [done|].
      by rewrite lookup_replicate_2.
    + rewrite andb_false_r. simpl.
      apply lookup_ge_None_2. rewrite length_replicate. done.
Qed.

(** C2. The mask returned by [computeDisorderedRegions] has exactly the
    requested length, and its entry at index [i] is true if and only if
    [i < len(confidence)] and [confidence[i] < 50]; for an empty confidence
    array the mask is all false, and on [80, 40, 30, 90, 60, 49] with length 6
    it is [false, true, true, false, false, true]. *)
Theorem computeDisorderedRegions_mask (plddt : list float) (n : nat) :
  List.length (computeDisorderedRegions plddt n) = n
  /\ (forall i : nat,
        computeDisorderedRegions plddt n !! i =
          if (i <? n)%nat then Some (below50At plddt i) else None)
  /\ (forall i : nat, (i < n)%nat ->
        (computeDisorderedRegions plddt n !! i = Some true <->
         (i < List.length plddt)%nat /\
         exists x, plddt !! i = Some x /\ PrimFloat.ltb x 50 = true))
  /\ computeDisorderedRegions [] n = replicate n false
  /\ computeDisorderedRegions [80; 40; 30; 90; 60; 49]%float 6
     = [false; true; true; false; false; true].
Proof.
  split; [apply computeDisorderedRegions_length|].
  split; [intros i; apply computeDisorderedRegions_lookup|].
  split; [|split; reflexivity].
  intros i Hi. rewrite computeDisorderedRegions_lookup.
  replace (i <? n)%nat with true by (symmetry; apply Nat.ltb_lt; lia).
  unfold below50At. split.
  - intros H. destruct (plddt !! i) as [x|] eqn:Hx; [|done].
    split; [by eapply lookup_lt_Some|]. exists x. split; [done|congruence].
  - intros [_ (x & -> & Hlt)]. by rewrite Hlt.
Qed.

(** C3, as stated, fails: a non-empty confidence array shorter than the
    sequence still yields a mask as long as the sequence. *)
Lemma mask_length_not_capped :
  ~ (forall (plddt : list float) (n : nat), plddt <> [] ->
       List.length (computeDisorderedRegions plddt n)
       = Nat.min (List.length plddt) n).
Proof.
  intros H. specialize (H [80%float] 3%nat). simpl in H.
  assert (Hne : [80%float] <> []) by discriminate.
  specialize (H Hne). vm_compute in H. discriminate.
Qed.

(** C3, amended. For every confidence array, empty or not, the mask has the
    length of the sequence; the confidence array is read only up to the
    shorter of the two lengths, and every entry at or beyond
    [len(confidence)] is false. *)
Theorem mask_length_is_sequence_length (plddt : list float) (n : nat) :
  List.length (computeDisorderedRegions plddt n) = n
  /\ (forall i : nat, (i < Nat.min (List.length plddt) n)%nat <->
        exists x, plddt !! i = Some x /\
                  computeDisorderedRegions plddt n !! i = Some (PrimFloat.ltb x 50))
  /\ (forall i : nat, (List.length plddt <= i < n)%nat ->
        computeDisorderedRegions plddt n !! i = Some false)
  /\ (plddt = [] -> computeDisorderedRegions plddt n = replicate n false).
Proof.
  split; [apply computeDisorderedRegions_length|].
  split; [|split].
  - intros i. rewrite computeDisorderedRegions_lookup. unfold below50At. split.
    + intros Hi.
      destruct (lookup_lt_is_Some_2 plddt i ltac:(lia)) as [x Hx].
      exists x. rewrite Hx.
      replace (i <? n)%nat with true by (symmetry; apply Nat.ltb_lt; lia). done.
    + intros (x & Hx & Hm). apply lookup_lt_Some in Hx.
      destruct (Nat.ltb_spec i n); [lia|done].
  - intros i Hi. rewrite computeDisorderedRegions_lookup. unfold below50At.
    rewrite lookup_ge_None_2 by lia.
    destruct (Nat.ltb_spec i n); [done|lia].
  - intros ->. reflexivity.
Qed.

(** ** Run compression *)

Ltac z_cases :=
  repeat match goal with
  | |- context [(?a =? ?b)] => destruct (Z.eqb_spec a b)
  | |- context [(?a <=? ?b)] => destruct (Z.leb_spec a b)
  | |- context [(?a <? ?b)] => destruct (Z.ltb_spec a b)
  end; simpl; try lia; try done.

Lemma compressDisorderLoop_runs flags : forall i start regions,
  compressDisorderLoop flags i start regions
  = runsLoop true "disorder" flags i start regions.
Proof.
  induction flags as [|flag rest IH]; intros i start regions; simpl; [done|].
  destruct flag; simpl; rewrite !IH; done.
Qed.

Lemma orderedRangesLoop_runs flags : forall i start ranges,
  orderedRangesLoop flags i start ranges
  = runsLoop false "ordered" flags i start ranges.
Proof.
  induction flags as [|flag rest IH]; intros i start ranges; simpl; [done|].
  destruct flag; simpl; rewrite !IH; done.
Qed.

Lemma compressDisorder_finish mask :
  compressDisorder mask = finishRuns true "disorder" mask 0 0 [].
Proof.
  unfold compressDisorder, finishRuns. by rewrite compressDisorderLoop_runs.
Qed.

Lemma orderedRanges_finish mask :
  orderedRanges mask = finishRuns false "ordered" mask 0 0 [].
Proof.
  unfold orderedRanges, finishRuns. by rewrite orderedRangesLoop_runs.
Qed.

Lemma runsLoop_app want ty flags : forall i start regions,
  runsLoop want ty flags i start regions
  = (fst (runsLoop want ty flags i start []),
     regions ++ snd (runsLoop want ty flags i start [])).
Proof.
  induction flags as [|flag rest IH]; intros i start regions; simpl.
  - by rewrite app_nil_r.
  - destruct (negb (Bool.eqb flag want) && _).
    + rewrite IH. rewrite (IH _ _ [_]). simpl. by rewrite <- app_assoc.
    + apply IH.
Qed.

Lemma finishRuns_app want ty flags i start regions :
  finishRuns want ty flags i start regions
  = regions ++ finishRuns want ty flags i start [].
Proof.
  unfold finishRuns. rewrite runsLoop_app.
  destruct (runsLoop want ty flags i start []) as [s r]. simpl.
  destruct (negb (s =? 0)); [by rewrite app_assoc|done].
Qed.

Lemma finishRuns_cons want ty flag rest i start :
  finishRuns want ty (flag :: rest) i start [] =
    let start1 := if Bool.eqb flag want && (start =? 0) then i + 1 else start in
    if negb (Bool.eqb flag want) && negb (start1 =? 0)
    then mkRange start1 i "" ty "pLDDT" :: finishRuns want ty rest (i + 1) 0 []
    else finishRuns want ty rest (i + 1) start1 [].
Proof.
  assert (Hlen : i + len (flag :: rest) = i + 1 + len rest)
    by (unfold len; simpl; lia).
  cbv zeta. destruct (negb (Bool.eqb flag want) && _) eqn:Hc.
  - change (mkRange ?s i "" ty "pLDDT" :: ?l) with ([mkRange s i "" ty "pLDDT"] ++ l).
    rewrite <- finishRuns_app. unfold finishRuns. simpl. rewrite Hc, Hlen. done.
  - unfold finishRuns. simpl. rewrite Hc, Hlen. done.
Qed.

Lemma hitAt_nil want i p : hitAt want [] i p = false.
Proof. unfold hitAt. rewrite lookup_nil. apply andb_false_r. Qed.

Lemma hitAt_cons want flag rest i p :
  hitAt want (flag :: rest) i p =
    if p =? i + 1 then Bool.eqb flag want else hitAt want rest (i + 1) p.
Proof.
  unfold hitAt. destruct (Z.eqb_spec p (i + 1)) as [->|Hne].
  - replace (i + 1 - i - 1) with 0 by lia. simpl. z_cases.
  - destruct (Z.ltb_spec i p), (Z.ltb_spec (i + 1) p); simpl; try lia; try done.
    replace (Z.to_nat (p - i - 1)) with (S (Z.to_nat (p - (i + 1) - 1))) by lia.
    done.
Qed.

Lemma hitAt_le want flags i p : p <= i -> hitAt want flags i p = false.
Proof. intros H. unfold hitAt. destruct (Z.ltb_spec i p); [lia|done]. Qed.

(** The loop invariant: a position is covered by the pending run or by the
    run of the remaining flags it lies in, and by nothing else. *)
Lemma finishRuns_count want ty flags : forall i start p,
  (start = 0 \/ 1 <= start <= i) -> 0 <= i ->
  coverCount p (finishRuns want ty flags i start [])
  = (b2n (negb (start =? 0)%Z && (start <=? p)%Z && (p <=? i)%Z)
     + b2n (hitAt want flags i p))%nat.
Proof.
  induction flags as [|flag rest IH]; intros i start p Hs Hi.
  - rewrite hitAt_nil. unfold finishRuns, len. simpl.
    rewrite Z.add_0_r.
    destruct (Z.eqb_spec start 0); simpl; [done|].
    unfold coverCount, covers. simpl. z_cases.
  - rewrite finishRuns_cons, hitAt_cons. cbv zeta.
    destruct (Bool.eqb flag want) eqn:Hf; simpl.
    + rewrite IH by (destruct (Z.eqb_spec start 0); simpl; lia).
      destruct (Z.eqb_spec start 0) as [->|Hne]; simpl;
        z_cases; rewrite hitAt_le by lia; done.
    + destruct (Z.eqb_spec start 0) as [->|Hne]; simpl.
      * rewrite IH by lia. simpl.
        z_cases; rewrite hitAt_le by lia; done.
      * unfold coverCount in *. simpl. unfold covers at 1. simpl.
        specialize (IH (i + 1) 0 p ltac:(lia) ltac:(lia)). simpl in IH.
        destruct ((start <=? p) && (p <=? i)) eqn:Hcov; simpl; rewrite IH;
          z_cases; rewrite hitAt_le by lia; done.
Qed.

Lemma finishRuns_wf want ty flags : forall i start,
  (start = 0 \/ 1 <= start <= i) -> 0 <= i ->
  Forall (fun r => 1 <= ri_Start r /\ ri_Start r <= ri_End r
                   /\ ri_End r <= i + len flags)
    (finishRuns want ty flags i start []).
Proof.
  induction flags as [|flag rest IH]; intros i start Hs Hi.
  - unfold finishRuns, len. simpl.
    destruct (Z.eqb_spec start 0); simpl; [constructor|].
    constructor; [simpl; lia|constructor].
  - assert (Hlen : i + len (flag :: rest) = i + 1 + len rest)
      by (unfold len; simpl; lia).
    assert (Hlen' : 0 <= len rest) by (unfold len; lia).
    rewrite finishRuns_cons, Hlen. cbv zeta.
    destruct (Bool.eqb flag want) eqn:Hf; simpl.
    + apply IH; [destruct (Z.eqb_spec start 0); simpl; lia|lia].
    + destruct (Z.eqb_spec start 0) as [->|Hne]; simpl.
      * apply IH; lia.
      * constructor; [simpl; lia|]. apply IH; lia.
Qed.

(** C4. The runs of [true] emitted by [compressDisorder] and the runs of
    [false] emitted by [orderedRanges] partition the 1-indexed interval
    [[1, len(mask)]]: every range lies inside the interval, every position of
    the interval is in exactly one range, and no position outside it is in
    any; a position is in a disorder range exactly when its flag is set. *)
Theorem disorder_and_ordered_ranges_partition (mask : list bool) :
  Forall (fun r => 1 <= ri_Start r /\ ri_Start r <= ri_End r /\ ri_End r <= len mask)
    (compressDisorder mask ++ orderedRanges mask)
  /\ (forall p : Z,
        coverCount p (compressDisorder mask ++ orderedRanges mask)
        = if (1 <=? p) && (p <=? len mask) then 1%nat else 0%nat)
  /\ (forall p : Z,
        coverCount p (compressDisorder mask) = b2n (hitAt true mask 0 p)
        /\ coverCount p (orderedRanges mask) = b2n (hitAt false mask 0 p)).
Proof.
  rewrite compressDisorder_finish, orderedRanges_finish.
  assert (Hcount : forall want ty p,
    coverCount p (finishRuns want ty mask 0 0 []) = b2n (hitAt want mask 0 p)).
  { intros want ty p. rewrite finishRuns_count by lia. done. }
  split; [|split].
  - apply Forall_app. split.
    + apply (finishRuns_wf true "disorder" mask 0 0); lia.
    + apply (finishRuns_wf false "ordered" mask 0 0); lia.
  - intros p. unfold coverCount. rewrite List.filter_app, length_app.
    fold (coverCount p (finishRuns true "disorder" mask 0 0 [])).
    fold (coverCount p (finishRuns false "ordered" mask 0 0 [])).
    rewrite !Hcount. unfold hitAt.
    replace (p - 0 - 1) with (p - 1) by lia.
    destruct (Z.ltb_spec 0 p), (Z.leb_spec 1 p); simpl; try lia; try done.
    destruct (Z.leb_spec p (len mask)) as [Hp|Hp]; unfold len in Hp.
    + destruct (lookup_lt_is_Some_2 mask (Z.to_nat (p - 1)) ltac:(lia)) as [f ->].
      destruct f; done.
    + rewrite lookup_ge_None_2 by lia. done.
  - intros p. split; apply Hcount.
Qed.

(** ** Candidate generator *)

Lemma pretty_N_char_digit x : isDigit (pretty_N_char x) = true.
Proof. unfold pretty_N_char. repeat case_match; reflexivity. Qed.

Lemma pretty_N_go_digits x : forall s,
  digitsOnly s = true -> digitsOnly (pretty_N_go x s) = true.
Proof.
  induction (N.lt_wf_0 x) as [x _ IH]; intros s Hs.
  destruct (decide (x = 0)%N) as [->|Hx]; [by rewrite pretty_N_go_0|].
  rewrite pretty_N_go_step by lia.
  apply IH; [apply N.div_lt; lia|].
  simpl. by rewrite pretty_N_char_digit.
Qed.

Lemma pretty_pos_digits (x : Z) : 0 < x -> digitsOnly (pretty x) = true.
Proof.
  destruct x as [|q|q]; try lia. intros _.
  unfold pretty, pretty_Z, pretty, pretty_positive, pretty, pretty_N.
  case_decide; [done|]. by apply pretty_N_go_digits.
Qed.

Lemma dash_split a : forall a' b b',
  digitsOnly a = true -> digitsOnly a' = true ->
  a +:+ "-" +:+ b = a' +:+ "-" +:+ b' -> a = a' /\ b = b'.
Proof.
  induction a as [|c a IH]; intros [|c' a'] b b' Ha Ha' Heq; simpl in *.
  - by inversion Heq.
  - inversion Heq; subst. done.
  - inversion Heq; subst. done.
  - apply andb_true_iff in Ha as [_ Ha]. apply andb_true_iff in Ha' as [_ Ha'].
    inversion Heq; subst. destruct (IH a' b b' Ha Ha' ltac:(done)) as [-> ->]. done.
Qed.

Lemma candidateKey_inj s e s' e' :
  0 < s -> 0 < s' -> candidateKey s e = candidateKey s' e' -> s = s' /\ e = e'.
Proof.
  intros Hs Hs' Hk. unfold candidateKey in Hk.
  apply dash_split in Hk as [H1 H2]; try by apply pretty_pos_digits.
  split; by apply (inj pretty).
Qed.

Lemma builderInv_init minLength maxLength : builderInv minLength maxLength ([], ∅).
Proof.
  split; [constructor|]. split; [constructor|]. split; [constructor|].
  intros key H. unfold seenKey in H. simpl in H. by rewrite lookup_empty in H.
Qed.

Lemma addCandidate_inv minLength maxLength st start end_ source name pdbID :
  builderInv minLength maxLength st ->
  builderInv minLength maxLength
    (addCandidate minLength maxLength st start end_ source name pdbID).
Proof.
  intros Hinv. unfold addCandidate. destruct st as [cands seen].
  destruct ((start <=? 0) || (end_ <=? 0) || (start >? end_)) eqn:Hrange; [done|].
  destruct (end_ - start + 1 <? minLength) eqn:Hmin; [done|].
  destruct ((maxLength >? 0) && (end_ - start + 1 >? maxLength)) eqn:Hmax; [done|].
  destruct (seenKey seen (candidateKey start end_)) eqn:Hseen; [done|].
  apply orb_false_iff in Hrange as [Hrange Hse].
  apply orb_false_iff in Hrange as [Hs He].
  apply Z.leb_gt in Hs, He. rewrite Z.gtb_ltb in Hse. apply Z.ltb_ge in Hse, Hmin.
  destruct Hinv as (Hok & Hrec & Hnd & Hkeys). simpl in *.
  split; [|split; [|split]]; simpl.
  - apply Forall_app. split; [done|]. constructor; [|constructor].
    unfold withinBounds. simpl. do 3 (split; [lia|]).
    intros Hpos. apply andb_false_iff in Hmax as [Hmax|Hmax];
      rewrite Z.gtb_ltb in Hmax; apply Z.ltb_ge in Hmax; lia.
  - apply Forall_app. split.
    + eapply Forall_impl; [exact Hrec|]. intros c Hc. simpl in Hc.
      unfold seenKey in *.
      destruct (decide (candidateKey start end_ = candidateKey (c_Start c) (c_End c)))
        as [<-|Hne]; [by rewrite lookup_insert_eq|].
      by rewrite lookup_insert_ne.
    + constructor; [|constructor]. simpl. unfold seenKey.
      by rewrite lookup_insert_eq.
  - rewrite map_app. simpl. apply NoDup_app. split; [done|]. split.
    + intros [s e] Hin Hin'. apply list_elem_of_singleton in Hin'.
      apply list_elem_of_fmap in Hin as (c & Hc & Hcin).
      unfold startEnd in Hc, Hin'. simpl in Hin'.
      rewrite Forall_forall in Hrec. specialize (Hrec c Hcin). simpl in Hrec.
      assert (c_Start c = start /\ c_End c = end_) as [Hcs Hce] by (split; congruence).
      rewrite Hcs, Hce in Hrec. congruence.
    + apply NoDup_singleton.
  - intros key Hkey. apply Exists_app. unfold seenKey in *.
    destruct (decide (candidateKey start end_ = key)) as [<-|Hne].
    + right. by constructor.
    + left. apply Hkeys. by rewrite lookup_insert_ne in Hkey.
Qed.

(** Deduplication is by the pair [(start, end)] itself: a pair that passes
    the filter is among the candidates after [addCandidate], whether it was
    added now or seen before. *)
Lemma addCandidate_emits minLength maxLength st start end_ source name pdbID :
  builderInv minLength maxLength st ->
  0 < start -> start <= end_ -> minLength <= end_ - start + 1 ->
  (maxLength > 0 -> end_ - start + 1 <= maxLength) ->
  In (start, end_)
    (map startEnd (fst (addCandidate minLength maxLength st start end_ source name pdbID))).
Proof.
  intros (Hok & _ & _ & Hkeys) Hs Hse Hmin Hmax.
  unfold addCandidate. destruct st as [cands seen]. simpl in *.
  replace ((start <=? 0) || (end_ <=? 0) || (start >? end_)) with false
    by (rewrite Z.gtb_ltb; symmetry; repeat (apply orb_false_iff; split);
        first [apply Z.leb_gt | apply Z.ltb_ge]; lia).
  replace (end_ - start + 1 <? minLength) with false
    by (symmetry; apply Z.ltb_ge; lia).
  replace ((maxLength >? 0) && (end_ - start + 1 >? maxLength)) with false.
  2:{ symmetry. rewrite !Z.gtb_ltb.
      destruct (Z.ltb_spec 0 maxLength); simpl; [|done]. apply Z.ltb_ge. lia. }
  destruct (seenKey seen (candidateKey start end_)) eqn:Hseen; simpl.
  - apply Hkeys, Exists_exists in Hseen as (c & Hc & Hkey).
    rewrite Forall_forall in Hok. destruct (Hok c Hc) as (Hpos & _).
    apply candidateKey_inj in Hkey as [Hcs Hce]; [|lia|lia].
    apply in_map_iff. exists c. split; [unfold startEnd; congruence|].
    by apply list_elem_of_In.
  - rewrite map_app. apply in_or_app. right. by left.
Qed.

Lemma fold_left_inv {A S} (P : S -> Prop) (f : S -> A -> S) (l : list A) :
  (forall st x, P st -> P (f st x)) -> forall st, P st -> P (fold_left f l st).
Proof.
  intros Hf. induction l as [|x l IH]; intros st Hst; simpl; [done|].
  apply IH, Hf, Hst.
Qed.

Lemma buildCandidates_inv ToLower sequence regionRange regionName domains
    pdbRanges disordered minLength maxLength :
  exists seen,
    builderInv minLength maxLength
      (buildCandidates ToLower sequence regionRange regionName domains pdbRanges
         disordered minLength maxLength, seen).
Proof.
  unfold buildCandidates.
  match goal with |- exists seen, builderInv _ _ (fst ?st, seen) =>
    exists (snd st); rewrite <- (surjective_pairing st) end.
  assert (Hadd := addCandidate_inv minLength maxLength).
  repeat match goal with
  | |- builderInv _ _ (match ?o with Some _ => _ | None => _ end) => destruct o
  | |- builderInv _ _ (if ?b then _ else _) => destruct b
  | |- builderInv _ _ (fold_left _ _ _) => apply fold_left_inv; [intros ? ? ?|]
  | |- builderInv _ _ (addCandidate _ _ _ _ _ _ _ _) => apply Hadd
  | |- builderInv _ _ ([], ∅) => apply builderInv_init
  | |- _ => assumption
  end.
Qed.

(** C5. Every candidate returned by [buildCandidates] has [start >= 1],
    [start <= end], [end - start + 1 >= minLength] and, when [maxLength > 0],
    [end - start + 1 <= maxLength]; and no two candidates of the list have
    the same [(start, end)]. *)
Theorem buildCandidates_bounds_and_unique (ToLower : string -> string)
    (sequence : string) (regionRange : option rangeInfo) (regionName : string)
    (domains : list rangeInfo) (pdbRanges : list pdbRange)
    (disordered : list bool) (minLength maxLength : Z) :
  Forall (fun c =>
            c_Start c >= 1 /\ c_Start c <= c_End c
            /\ c_End c - c_Start c + 1 >= minLength
            /\ (maxLength > 0 -> c_End c - c_Start c + 1 <= maxLength))
    (buildCandidates ToLower sequence regionRange regionName domains pdbRanges
       disordered minLength maxLength)
  /\ NoDup (map startEnd
       (buildCandidates ToLower sequence regionRange regionName domains pdbRanges
          disordered minLength maxLength))
  /\ (forall (i j : nat) (a b : candidate),
        buildCandidates ToLower sequence regionRange regionName domains pdbRanges
          disordered minLength maxLength !! i = Some a ->
        buildCandidates ToLower sequence regionRange regionName domains pdbRanges
          disordered minLength maxLength !! j = Some b ->
        (c_Start a, c_End a) = (c_Start b, c_End b) -> i = j).
Proof.
  destruct (buildCandidates_inv ToLower sequence regionRange regionName domains
              pdbRanges disordered minLength maxLength) as (seen & Hok & _ & Hnd & _).
  simpl in *. split; [|split; [done|]].
  - eapply Forall_impl; [exact Hok|].
    intros c (H1 & H2 & H3 & H4). do 3 (split; [lia|]). done.
  - intros i j a b Ha Hb Hab.
    apply (proj1 (NoDup_alt _) Hnd i j (startEnd a)).
    + by rewrite list_lookup_fmap, Ha.
    + rewrite list_lookup_fmap, Hb. simpl. unfold startEnd. by rewrite Hab.
Qed.

(** ** Insertion sort *)

Section InsertionSort.

Context {A : Type} (less : A -> A -> bool) (P : A -> Prop).

(** [less] is only required to be asymmetric on the elements that occur. *)
Hypothesis less_asym :
  forall x y, P x -> P y -> less x y = true -> less y x = false.

Lemma insertLeftward_perm x rprefix :
  insertLeftward less x rprefix ≡ₚ x :: rprefix.
Proof.
  induction rprefix as [|y rest IH]; simpl; [done|].
  destruct (less x y); [|done].
  rewrite IH. apply Permutation_swap.
Qed.

Lemma insertLeftward_sorted x rprefix :
  P x -> Forall P rprefix -> Sorted (mayFollow less) rprefix ->
  Sorted (mayFollow less) (insertLeftward less x rprefix).
Proof.
  intros Hx. induction rprefix as [|y rest IH]; intros HP Hs; simpl.
  - repeat constructor.
  - apply Forall_cons in HP as [Hy HP]. apply Sorted_inv in Hs as [Hs Hhd].
    destruct (less x y) eqn:Hxy.
    + constructor; [by apply IH|].
      destruct rest as [|z rest']; simpl.
      * constructor. by apply less_asym.
      * destruct (less x z); constructor.
        -- by inversion Hhd.
        -- by apply less_asym.
    + constructor; [by constructor|]. by constructor.
Qed.

Lemma fold_insert_perm data : forall rprefix,
  fold_left (fun rp x => insertLeftward less x rp) data rprefix
  ≡ₚ reverse data ++ rprefix.
Proof.
  induction data as [|x data IH]; intros rprefix; simpl; [done|].
  rewrite IH, insertLeftward_perm, reverse_cons.
  by rewrite <- app_assoc.
Qed.

Lemma fold_insert_sorted data : forall rprefix,
  Forall P data -> Forall P rprefix -> Sorted (mayFollow less) rprefix ->
  Sorted (mayFollow less) (fold_left (fun rp x => insertLeftward less x rp) data rprefix).
Proof.
  induction data as [|x data IH]; intros rprefix Hd Hp Hs; simpl; [done|].
  apply Forall_cons in Hd as [Hx Hd].
  apply IH; [done| |by apply insertLeftward_sorted].
  rewrite insertLeftward_perm. by constructor.
Qed.

Lemma insertionSort_perm data : insertionSort less data ≡ₚ data.
Proof.
  unfold insertionSort.
  rewrite reverse_Permutation, fold_insert_perm, app_nil_r.
  apply reverse_Permutation.
Qed.

Lemma insertionSort_sorted data :
  Forall P data -> Sorted (flip (mayFollow less)) (insertionSort less data).
Proof.
  intros Hd. unfold insertionSort. apply Sorted_reverse.
  apply fold_insert_sorted; [done|constructor|constructor].
Qed.

End InsertionSort.

Lemma insertionSort_Forall {A} (less : A -> A -> bool) (Q : A -> Prop) data :
  Forall Q data -> Forall Q (insertionSort less data).
Proof. intros H. by rewrite insertionSort_perm. Qed.

Lemma Sorted_take {A} (R : A -> A -> Prop) n : forall l,
  Sorted R l -> Sorted R (take n l).
Proof.
  induction n as [|n IH]; intros l Hs; [constructor|].
  destruct l as [|x l]; simpl; [constructor|].
  apply Sorted_inv in Hs as [Hs Hhd]. constructor; [by apply IH|].
  destruct Hhd; destruct n; simpl; by constructor.
Qed.

Lemma Sorted_adjacent {A} (R : A -> A -> Prop) l :
  Sorted R l ->
  forall (i : nat) a b, l !! i = Some a -> l !! S i = Some b -> R a b.
Proof.
  induction 1 as [|x l Hs IH Hhd]; intros i a b Ha Hb; [done|].
  destruct i as [|i]; simpl in *.
  - inversion Ha; subst. destruct Hhd; simpl in Hb; [done|]. by inversion Hb; subst.
  - by eapply IH.
Qed.

(** ** Boundary scorer *)

Ltac in_list := repeat (first [left; reflexivity | right]).

Lemma boundaryScore_triggeredSum pos side ctx :
  fst (boundaryScore pos side ctx)
  = clamp (triggeredSum (signedTerms pos side ctx)) 0 100.
Proof.
  unfold boundaryScore, signedTerms, triggeredSum, award. simpl.
  repeat match goal with |- context [if ?b then _ else _] =>
    match b with
    | PrimFloat.ltb _ _ => fail 1
    | _ => destruct b
    end end; reflexivity.
Qed.

Lemma triggeredSum_values (b1 b2 b3 b4 b5 b6 b7 b8 : bool) (w1 w2 w3 w4 w5 w6 w7 w8 : string) :
  In (clamp (triggeredSum
         [(b1, 30, w1); (b2, 25, w2); (b3, 20, w3); (b4, 15, w4); (b5, 10, w5);
          (b6, -50, w6); (b7, -100, w7); (b8, -20, w8)]%float) 0 100)
     boundaryValues.
Proof.
  destruct b1, b2, b3, b4, b5, b6, b7, b8; vm_compute; in_list.
Qed.

Lemma boundaryScore_value pos side ctx :
  In (fst (boundaryScore pos side ctx)) boundaryValues.
Proof. rewrite boundaryScore_triggeredSum. apply triggeredSum_values. Qed.

Lemma average_value s e :
  In s boundaryValues -> In e boundaryValues ->
  In (PrimFloat.div (PrimFloat.add s e) 2) scoreValues.
Proof.
  intros Hs He. unfold boundaryValues in Hs, He. simpl in Hs, He.
  repeat (destruct Hs as [<-|Hs]); try contradiction;
    repeat (destruct He as [<-|He]); try contradiction;
    vm_compute; in_list.
Qed.

Lemma scoreValues_range x : In x scoreValues -> inUnitRange x = true.
Proof.
  revert x. apply List.forallb_forall. vm_compute. reflexivity.
Qed.

Lemma scoreValues_ordered a b :
  In a scoreValues -> In b scoreValues -> orderedPair a b = true.
Proof.
  intros Ha Hb.
  assert (H : forallb (fun a => forallb (orderedPair a) scoreValues) scoreValues = true)
    by (vm_compute; reflexivity).
  rewrite List.forallb_forall in H. specialize (H a Ha).
  rewrite List.forallb_forall in H. exact (H b Hb).
Qed.

Lemma boundaryValues_range x : In x boundaryValues -> inUnitRange x = true.
Proof.
  revert x. apply List.forallb_forall. vm_compute. reflexivity.
Qed.

Lemma scoreCandidate_fields ctx c :
  c_Start (scoreCandidate ctx c) = c_Start c
  /\ c_End (scoreCandidate ctx c) = c_End c
  /\ c_Score (scoreCandidate ctx c)
     = PrimFloat.div
         (PrimFloat.add (fst (boundaryScore (c_Start c) "start" ctx))
                        (fst (boundaryScore (c_End c) "end" ctx))) 2.
Proof.
  unfold scoreCandidate.
  destruct (boundaryScore (c_Start c) "start" ctx) as [s rs].
  destruct (boundaryScore (c_End c) "end" ctx) as [e re]. done.
Qed.

Lemma scoreCandidate_table ctx c : hasTableScore (scoreCandidate ctx c).
Proof.
  unfold hasTableScore.
  destruct (scoreCandidate_fields ctx c) as (_ & _ & ->).
  apply average_value; apply boundaryScore_value.
Qed.

Lemma scoreCandidate_scoredBy ctx c : scoredBy ctx (scoreCandidate ctx c).
Proof.
  unfold scoredBy.
  pose proof (scoreCandidate_table ctx c) as Ht.
  destruct (scoreCandidate_fields ctx c) as (-> & -> & Hs).
  split; [done|].
  split; [apply boundaryScore_triggeredSum|].
  split; [apply boundaryScore_triggeredSum|].
  split; [apply boundaryValues_range, boundaryScore_value|].
  split; [apply boundaryValues_range, boundaryScore_value|].
  by apply scoreValues_range.
Qed.

Lemma scoreCandidates_Forall (Q : candidate -> Prop) ctx cands minLength maxLength :
  (forall c, Q (scoreCandidate ctx c)) ->
  Forall Q (scoreCandidates cands ctx minLength maxLength).
Proof.
  intros HQ. unfold scoreCandidates, sortSliceStable.
  apply insertionSort_Forall. apply Forall_forall.
  intros c Hc. apply list_elem_of_fmap in Hc as (c0 & -> & _). apply HQ.
Qed.

Lemma rankTop_Forall (Q : candidate -> Prop) scored :
  Forall Q scored -> Forall Q (rankTop scored).
Proof.
  intros H. unfold rankTop, sortSlice. apply Forall_take.
  by apply insertionSort_Forall.
Qed.

(** C1. Every candidate of the final output carries a score in [[0,100]]
    that is the average of its start-boundary score and its end-boundary
    score, each of them the sum of the triggered signed terms clamped to
    [[0,100]] before the average is taken. *)
Theorem final_scores_are_clamped_averages
    (candidates : list candidate) (ctx : boundaryContext) (minLength maxLength : Z) :
  Forall (scoredBy ctx) (rankTop (scoreCandidates candidates ctx minLength maxLength))
  /\ (forall (ToLower : string -> string) (inp : evidenceInput) (minFlag maxFlag : Z),
        match mainRank ToLower inp minFlag maxFlag with
        | Ranked top => Forall (scoredBy (mainContext inp)) top
        | Fatal _ => True
        end).
Proof.
  split.
  - apply rankTop_Forall, scoreCandidates_Forall, scoreCandidate_scoredBy.
  - intros ToLower inp minFlag maxFlag. unfold mainRank.
    destruct (String.eqb _ _); [done|]. destruct (len _ =? 0); [done|].
    apply rankTop_Forall, scoreCandidates_Forall, scoreCandidate_scoredBy.
Qed.

(** ** Ranker *)

Lemma rankLess_asym x y :
  hasTableScore x -> hasTableScore y -> rankLess x y = true -> rankLess y x = false.
Proof.
  unfold hasTableScore, rankLess. intros Hx Hy.
  pose proof (scoreValues_ordered _ _ Hx Hy) as Ho. unfold orderedPair in Ho.
  destruct (PrimFloat.eqb (c_Score x) (c_Score y)),
           (PrimFloat.eqb (c_Score y) (c_Score x)),
           (PrimFloat.ltb (c_Score x) (c_Score y)),
           (PrimFloat.ltb (c_Score y) (c_Score x)); simpl in Ho; try done.
  intros H. apply Z.ltb_lt in H. apply Z.ltb_ge. lia.
Qed.

Lemma rankLess_order a b :
  hasTableScore a -> hasTableScore b -> rankLess b a = false -> rankOrder a b.
Proof.
  unfold hasTableScore, rankLess, rankOrder. intros Ha Hb.
  pose proof (scoreValues_ordered _ _ Ha Hb) as Ho. unfold orderedPair in Ho.
  destruct (PrimFloat.eqb (c_Score a) (c_Score b)),
           (PrimFloat.eqb (c_Score b) (c_Score a)),
           (PrimFloat.ltb (c_Score a) (c_Score b)),
           (PrimFloat.ltb (c_Score b) (c_Score a)); simpl in Ho; try done;
    intros H; auto.
  right. split; [done|]. apply Z.ltb_ge in H. lia.
Qed.

Lemma Sorted_weaken {A} (P : A -> Prop) (R R' : A -> A -> Prop) l :
  (forall a b, P a -> P b -> R a b -> R' a b) ->
  Forall P l -> Sorted R l -> Sorted R' l.
Proof.
  intros HR HP Hs. induction Hs as [|x l Hs IH Hhd]; [constructor|].
  apply Forall_cons in HP as [Hx HP]. constructor; [by apply IH|].
  destruct Hhd as [|y l' Hxy]; constructor.
  apply Forall_cons in HP as [Hy _]. by apply HR.
Qed.

Lemma rankTop_sorted scored :
  Forall hasTableScore scored -> Sorted rankOrder (rankTop scored).
Proof.
  intros HP. unfold rankTop, sortSlice. apply Sorted_take.
  apply (Sorted_weaken hasTableScore (flip (mayFollow rankLess))).
  - intros a b Ha Hb H. by apply rankLess_order.
  - by apply insertionSort_Forall.
  - apply (insertionSort_sorted rankLess hasTableScore rankLess_asym). done.
Qed.

Lemma Sorted_of_adjacent {A} (R : A -> A -> Prop) l :
  (forall (i : nat) a b, l !! i = Some a -> l !! S i = Some b -> R a b) ->
  Sorted R l.
Proof.
  induction l as [|x l IH]; intros H; [constructor|].
  constructor.
  - apply IH. intros i a b Ha Hb. by apply (H (S i)).
  - destruct l as [|y l]; constructor. by apply (H 0%nat).
Qed.

Lemma sortedBy_rankOrder scored out :
  Forall hasTableScore scored -> sortedBy rankLess scored out ->
  Sorted rankOrder (take 10 out).
Proof.
  intros HP [Hperm Hsorted]. apply Sorted_take.
  assert (HP' : Forall hasTableScore out) by (by rewrite Hperm).
  apply Sorted_of_adjacent. intros i a b Ha Hb.
  rewrite Forall_forall in HP'.
  apply rankLess_order.
  - apply HP'. by eapply list_elem_of_lookup_2.
  - apply HP'. by eapply list_elem_of_lookup_2.
  - apply (Hsorted i (S i)); [lia|done|done].
Qed.

Lemma rankTop_length scored : (List.length (rankTop scored) <= 10)%nat.
Proof. unfold rankTop. rewrite length_take. lia. Qed.

(** C6. The final ranked list is ordered by descending score with ties
    broken by ascending length: of two neighbours the first has the strictly
    greater score, or their scores are equal and the first is at most as long
    as the second; and the list has at most 10 candidates.  This holds of the
    list [main] ranks, and of the first ten of any arrangement of the scored
    candidates that [sort.Slice] may leave. *)
Theorem ranked_list_sorted_and_cut
    (candidates : list candidate) (ctx : boundaryContext) (minLength maxLength : Z) :
  (Sorted rankOrder (rankTop (scoreCandidates candidates ctx minLength maxLength))
   /\ (forall (i : nat) (a b : candidate),
         rankTop (scoreCandidates candidates ctx minLength maxLength) !! i = Some a ->
         rankTop (scoreCandidates candidates ctx minLength maxLength) !! S i = Some b ->
         rankOrder a b)
   /\ (List.length (rankTop (scoreCandidates candidates ctx minLength maxLength)) <= 10)%nat)
  /\ (forall (ToLower : string -> string) (inp : evidenceInput) (minFlag maxFlag : Z),
        match mainRank ToLower inp minFlag maxFlag with
        | Ranked top => Sorted rankOrder top /\ (List.length top <= 10)%nat
        | Fatal _ => True
        end)
  /\ (forall out : list candidate,
        sortedBy rankLess (scoreCandidates candidates ctx minLength maxLength) out ->
        Sorted rankOrder (take 10 out) /\ (List.length (take 10 out) <= 10)%nat).
Proof.
  assert (Hs : forall cands c mn mx,
    Sorted rankOrder (rankTop (scoreCandidates cands c mn mx))).
  { intros. apply rankTop_sorted, scoreCandidates_Forall, scoreCandidate_table. }
  split; [split; [apply Hs|split]|split].
  - apply Sorted_adjacent, Hs.
  - apply rankTop_length.
  - intros ToLower inp minFlag maxFlag. unfold mainRank.
    destruct (String.eqb _ _); [done|]. destruct (len _ =? 0); [done|].
    split; [apply Hs|apply rankTop_length].
  - intros out Hout. split; [|rewrite length_take; lia].
    eapply sortedBy_rankOrder; [|exact Hout].
    apply scoreCandidates_Forall, scoreCandidate_table.
Qed.

(** ** The loop-like region term *)

Ltac z_all :=
  unfold max, min; rewrite ?Z.gtb_ltb, ?Z.geb_leb;
  repeat match goal with
  | |- context [(?a =? ?b)] => destruct (Z.eqb_spec a b)
  | |- context [(?a <=? ?b)] => destruct (Z.leb_spec a b)
  | |- context [(?a <? ?b)] => destruct (Z.ltb_spec a b)
  end;
  repeat match goal with
  | H : context [(?a <? ?b)] |- _ =>
      first [ rewrite (proj2 (Z.ltb_lt a b)) in H by lia
            | rewrite (proj2 (Z.ltb_ge a b)) in H by lia ]
  | H : context [(?a <=? ?b)] |- _ =>
      first [ rewrite (proj2 (Z.leb_le a b)) in H by lia
            | rewrite (proj2 (Z.leb_gt a b)) in H by lia ]
  end;
  simpl in *; try lia; try done.

Lemma avgWindow_outside values s e :
  e < s \/ e < 0 \/ len values - 1 < s -> avgWindow values s e = 0%float.
Proof. intros H. unfold avgWindow. z_all. Qed.

Lemma avgWindow_clip_l values s e :
  avgWindow values (max 0 s) e = avgWindow values s e.
Proof. unfold avgWindow. z_all. Qed.

Lemma avgWindow_clip_r values s e :
  avgWindow values s (min (len values - 1) e) = avgWindow values s e.
Proof. unfold avgWindow. z_all. Qed.

(** What [isLoopRegion] computes: the specified condition, but for the
    residue after [pos]. *)
Lemma isLoopRegion_shifted pos plddt :
  isLoopRegion pos plddt = loopLikeAt (pos + 1) plddt.
Proof.
  unfold isLoopRegion, loopLikeAt, residueWindowAvg.
  rewrite avgWindow_clip_l, avgWindow_clip_r.
  replace (pos + 1 - 2 - 1) with (pos - 2) by lia.
  replace (pos + 1 + 2 - 1) with (pos + 2) by lia.
  replace (pos + 1 - 8 - 1) with (pos - 8) by lia.
  replace (pos + 1 - 3 - 1) with (pos - 3) by lia.
  replace (pos + 1 + 3 - 1) with (pos + 3) by lia.
  replace (pos + 1 + 8 - 1) with (pos + 8) by lia.
  destruct ((len plddt =? 0) || (pos <=? 2) || (pos >=? len plddt - 2)) eqn:Hg; [|done].
  symmetry.
  apply orb_true_iff in Hg as [Hg|Hg]; [apply orb_true_iff in Hg as [Hg|Hg]|].
  - apply Z.eqb_eq in Hg.
    assert (plddt = []) as -> by (destruct plddt; [done|unfold len in Hg; simpl in Hg; lia]).
    reflexivity.
  - apply Z.leb_le in Hg.
    rewrite (avgWindow_outside plddt (pos - 8) (pos - 3)) by lia.
    replace (PrimFloat.ltb 70 0) with false by reflexivity.
    by rewrite andb_false_r.
  - rewrite Z.geb_leb in Hg. apply Z.leb_le in Hg.
    rewrite (avgWindow_outside plddt (pos + 3) (pos + 8)) by lia.
    replace (PrimFloat.ltb 70 0) with false by reflexivity.
    by rewrite andb_false_r.
Qed.

(** C7. At a boundary on residue 10 of [dipProfile] the window of residues
    8-12 averages 64 and both six-residue flanks average 100, so the
    loop-like term is due; [isLoopRegion] averages residues 9-13 instead (84)
    and withholds it.  In general it decides the condition of the residue
    after the boundary, whereas [isDisorderTransition] and
    [hasStructuredSide] read the boundary residue itself, at index
    [pos - 1]. *)
Theorem isLoopRegion_window_off_by_one :
  (forall pos plddt, isLoopRegion pos plddt = loopLikeAt (pos + 1) plddt)
  /\ residueWindowAvg dipProfile 8 12 = 64%float
  /\ residueWindowAvg dipProfile 2 7 = 100%float
  /\ residueWindowAvg dipProfile 13 18 = 100%float
  /\ loopLikeAt 10 dipProfile = true
  /\ avgWindow dipProfile 8 12 = 84%float
  /\ isLoopRegion 10 dipProfile = false
  /\ isDisorderTransition 10 "start" (replicate 9 true ++ replicate 11 false) = true
  /\ hasStructuredSide 20 "end" (replicate 10 0%float ++ replicate 10 100%float) = true.
Proof.
  split; [exact isLoopRegion_shifted|].
  repeat split; reflexivity.
Qed.

(** ** Result cache *)

Section ResultCacheProperties.

Variable ToLower : string -> string.
Variable filepath_Join : list string -> string.
Variable filepath_Dir : string -> string.
Variable jsonMarshalIndent : cacheEntry -> list byte + string.
Variable jsonUnmarshal : list byte -> option cacheEntry.

(** All that is assumed of [encoding/json]: a record that was written
    decodes to the entry it was written from. *)
Hypothesis json_roundtrip :
  forall entry data,
    jsonMarshalIndent entry = inl data -> jsonUnmarshal data = Some entry.




End ResultCacheProperties.



(** ** Resilient fetch client *)

Section FetchClientProperties.

Variable client : string -> nat -> getResult.
Variable gunzip : list byte -> result.

Lemma httpGetLoop_attempts fuel : forall url attempt lastErr tr,
  (tr_attempts (snd (httpGetLoop client gunzip fuel url attempt lastErr tr))
   <= tr_attempts tr + fuel)%nat.
Proof.
  induction fuel as [|fuel IH]; intros url attempt lastErr tr; simpl; [lia|].
  destruct (attempt <? 3); [|simpl; lia].
  destruct (client url (tr_attempts tr)) as [e|resp].
  - etrans; [apply IH|]. simpl. lia.
  - destruct (StatusCode resp =? 404); [simpl; lia|].
    destruct ((StatusCode resp <? 200) || (StatusCode resp >=? 300)).
    + etrans; [apply IH|]. simpl. lia.
    + destruct (Body resp) as [body|e].
      * destruct (String.eqb (ContentEncoding resp) "gzip" || isGzip body);
          [destruct (gunzip body) as [decoded [e|]]|]; simpl; lia.
      * etrans; [apply IH|]. simpl. lia.
Qed.

(** One iteration on a transient failure: the error is kept, the client
    sleeps [attempt + 1] seconds and the next attempt follows. *)
Lemma httpGetLoop_transient fuel url attempt lastErr tr :
  attempt < 3 -> isTransient (client url (tr_attempts tr)) = true ->
  httpGetLoop client gunzip (S fuel) url attempt lastErr tr
  = httpGetLoop client gunzip fuel url (attempt + 1)
      (Some (transientError (client url (tr_attempts tr))))
      (mkTrace (S (tr_attempts tr)) (tr_slept tr ++ [attempt + 1])).
Proof.
  intros Ha Ht. simpl.
  destruct (Z.ltb_spec attempt 3); [|lia].
  destruct (client url (tr_attempts tr)) as [e|resp]; simpl in *; [done|].
  apply andb_true_iff in Ht as [H404 Hst].
  apply negb_true_iff in H404. rewrite H404, Hst. done.
Qed.

Lemma httpGetLoop_notFound fuel url attempt lastErr tr :
  attempt < 3 -> notFound (client url (tr_attempts tr)) = true ->
  httpGetLoop client gunzip (S fuel) url attempt lastErr tr
  = (([], Some ("resource not found (" +:+ url +:+ ")")),
     mkTrace (S (tr_attempts tr)) (tr_slept tr)).
Proof.
  intros Ha Ht. simpl.
  destruct (Z.ltb_spec attempt 3); [|lia].
  destruct (client url (tr_attempts tr)) as [e|resp]; simpl in *; [done|].
  rewrite Ht. done.
Qed.

(** C9. [httpGet] never makes more than 3 attempts.  A 404 answer, on the
    first attempt or after transient failures, ends the call at once with the
    "resource not found" error and no further attempt.  Network failures
    and statuses that are neither 2xx nor 404 are retried; when all 3
    attempts fail in this way the call returns the error of the last one. *)
Theorem httpGet_retry_policy (url : string) :
  (tr_attempts (snd (httpGet client gunzip url)) <= 3)%nat
  /\ (forall k : nat, (k < 3)%nat ->
        (forall j : nat, (j < k)%nat -> isTransient (client url j) = true) ->
        notFound (client url k) = true ->
        fst (httpGet client gunzip url)
          = ([], Some ("resource not found (" +:+ url +:+ ")"))
        /\ tr_attempts (snd (httpGet client gunzip url)) = S k
        /\ tr_slept (snd (httpGet client gunzip url)) = seqZ 1 (Z.of_nat k))
  /\ ((forall j : nat, (j < 3)%nat -> isTransient (client url j) = true) ->
        fst (httpGet client gunzip url)
          = ([], Some (transientError (client url 2%nat)))
        /\ tr_attempts (snd (httpGet client gunzip url)) = 3%nat
        /\ tr_slept (snd (httpGet client gunzip url)) = [1; 2; 3]).
Proof.
  split; [|split].
  - unfold httpGet. etrans; [apply httpGetLoop_attempts|]. simpl. lia.
  - intros k Hk Htr H404. unfold httpGet.
    destruct k as [|[|[|k]]]; [| | |lia].
    + rewrite httpGetLoop_notFound by (simpl; done || lia). repeat split; reflexivity.
    + rewrite httpGetLoop_transient by (simpl; (lia || apply Htr; lia)). cbn [tr_attempts tr_slept].
      rewrite httpGetLoop_notFound by (simpl; done || lia). repeat split; reflexivity.
    + rewrite httpGetLoop_transient by (simpl; (lia || apply Htr; lia)). cbn [tr_attempts tr_slept].
      rewrite httpGetLoop_transient by (simpl; (lia || apply Htr; lia)). cbn [tr_attempts tr_slept].
      rewrite httpGetLoop_notFound by (simpl; done || lia). repeat split; reflexivity.
  - intros Htr. unfold httpGet.
    rewrite httpGetLoop_transient by (simpl; (lia || apply Htr; lia)). cbn [tr_attempts tr_slept].
    rewrite httpGetLoop_transient by (simpl; (lia || apply Htr; lia)). cbn [tr_attempts tr_slept].
    rewrite httpGetLoop_transient by (simpl; (lia || apply Htr; lia)). cbn [tr_attempts tr_slept].
    repeat split; reflexivity.
Qed.

End FetchClientProperties.

(** ** The minimum-length default *)

Lemma buildCandidates_min_length ToLower sequence regionRange regionName domains
    pdbRanges disordered minLength maxLength :
  Forall (fun c => minLength <= Length c)
    (buildCandidates ToLower sequence regionRange regionName domains pdbRanges
       disordered minLength maxLength).
Proof.
  destruct (buildCandidates_inv ToLower sequence regionRange regionName domains
              pdbRanges disordered minLength maxLength) as (seen & Hok & _).
  simpl in Hok. eapply Forall_impl; [exact Hok|].
  intros c (_ & _ & H & _). unfold Length. lia.
Qed.

Lemma scoreCandidate_Length ctx c : Length (scoreCandidate ctx c) = Length c.
Proof.
  unfold Length. destruct (scoreCandidate_fields ctx c) as (-> & -> & _). done.
Qed.

Lemma scoreCandidates_min_length ctx cands minLength maxLength bound :
  Forall (fun c => bound <= Length c) cands ->
  Forall (fun c => bound <= Length c) (scoreCandidates cands ctx minLength maxLength).
Proof.
  intros H. unfold scoreCandidates, sortSliceStable.
  apply insertionSort_Forall. apply Forall_fmap.
  eapply Forall_impl; [exact H|]. intros c Hc. simpl.
  by rewrite scoreCandidate_Length.
Qed.

(** C10. A zero or negative [--min-length] is neither rejected nor applied:
    the run is the run with the default minimum length 100, whose bound
    every ranked candidate meets. *)
Theorem nonpositive_min_length_defaults (ToLower : string -> string)
    (inp : evidenceInput) (minFlag maxFlag : Z) :
  minFlag <= 0 ->
  effectiveMinLength minFlag = 100
  /\ mainRank ToLower inp minFlag maxFlag = mainRank ToLower inp 100 maxFlag
  /\ match mainRank ToLower inp minFlag maxFlag with
     | Ranked top => Forall (fun c => Length c >= 100) top
     | Fatal _ => True
     end.
Proof.
  intros Hflag.
  assert (He : effectiveMinLength minFlag = 100).
  { unfold effectiveMinLength. destruct (Z.leb_spec minFlag 0); [done|lia]. }
  split; [done|]. split.
  - unfold mainRank. rewrite He. reflexivity.
  - unfold mainRank. rewrite He.
    destruct (String.eqb _ _); [done|]. destruct (len _ =? 0); [done|].
    apply rankTop_Forall.
    eapply Forall_impl;
      [apply scoreCandidates_min_length, buildCandidates_min_length|].
    intros c Hc. simpl in Hc. lia.
Qed.

(** With [--min-length -5] the region of 51 residues is filtered out, the
    domain and the ordered segment are ranked. *)
Lemma nonpositive_min_length_defaults_witness :
  (-5 <= 0
   /\ match mainRank (fun s => s) twoDomainInput (-5) 0 with
      | Ranked top => map startEnd top = [(1, 300); (100, 250)]
      | Fatal _ => False
      end)
  /\ effectiveMinLength (-5) = 100
  /\ mainRank (fun s => s) twoDomainInput (-5) 0
     = mainRank (fun s => s) twoDomainInput 100 0
  /\ match mainRank (fun s => s) twoDomainInput (-5) 0 with
     | Ranked top => Forall (fun c => Length c >= 100) top
     | Fatal _ => True
     end.
Proof.
  split; [split; [lia|vm_compute; reflexivity]|].
  apply (nonpositive_min_length_defaults (fun s => s) twoDomainInput (-5) 0). lia.
Defined.

(** ** Scenarios of the specification, run on the model *)

(** Scenario C: a domain 100-200 on a protein of 300 residues with
    [minLength = 50] gives a domain-sourced candidate 100-200. *)
Example scenario_domain_candidate :
  map (fun c => (startEnd c, c_Source c))
    (buildCandidates (fun s => s) (string_of_list_ascii (replicate 300 "A"%char))
       None "Kinase" [mkRange 100 200 "Kinase" "Domain" "UniProt"] []
       (replicate 300 false) 50 0)
  = [((100, 200), "domain")].
Proof. vm_compute. reflexivity. Qed.

(** Scenario D: a boundary at 57 with a PTM at 55 has the "near PTM site"
    rationale; the penalty leaves the clamped score at 0. *)
Example scenario_ptm_penalty :
  boundaryScore 57 "end" (mkCtx 300 [] [] [] [] [] [] [] [55])
  = (0%float, ["near PTM site"]).
Proof. reflexivity. Qed.

(** Two 503 answers followed by a 404: three requests, two sleeps, and the
    "resource not found" error. *)
Example httpGet_503_503_404 :
  httpGet (fun _ k => GetResp (mkResponse (if (k <? 2)%nat then 503 else 404) "" (ReadOk [])))
    (fun body => (body, None)) "https://rest.uniprot.org/uniprotkb/P12345.json"
  = (([], Some "resource not found (https://rest.uniprot.org/uniprotkb/P12345.json)"),
     mkTrace 3 [1; 2]).
Proof. reflexivity. Qed.

(** * Further properties of the code *)

(** ** More on the boundary scorer *)

Ltac destruct_conditions :=
  repeat match goal with |- context [if ?b then _ else _] =>
    match b with
    | PrimFloat.ltb _ _ => fail 1
    | _ => destruct b
    end end.

Lemma boundaryScore_labels pos side ctx :
  snd (boundaryScore pos side ctx) = triggeredLabels (signedTerms pos side ctx).
Proof.
  unfold boundaryScore, signedTerms, triggeredLabels, award. simpl.
  destruct_conditions; reflexivity.
Qed.

(** X1. The rationale of a boundary lists the labels of exactly the terms
    that were triggered, in the order of the table, and an empty rationale
    goes with a score of 0. *)
Theorem boundaryScore_rationale (pos : Z) (side : string) (ctx : boundaryContext) :
  snd (boundaryScore pos side ctx) = triggeredLabels (signedTerms pos side ctx)
  /\ (forall cond delta why,
        In (cond, delta, why) (signedTerms pos side ctx) ->
        (In why (snd (boundaryScore pos side ctx)) <-> cond = true))
  /\ (snd (boundaryScore pos side ctx) = [] -> fst (boundaryScore pos side ctx) = 0%float).
Proof.
  split; [apply boundaryScore_labels|]. split.
  - intros cond delta why Hin. rewrite boundaryScore_labels.
    unfold signedTerms, triggeredLabels in *. simpl in Hin.
    repeat (destruct Hin as [Hin|Hin];
            [injection Hin as <- <- <-; simpl;
             destruct_conditions; simpl;
             (split; [intros H; repeat (destruct H as [H|H]; try discriminate H); done
                     |intros H; try discriminate H; tauto])|]).
    contradiction.
  - rewrite boundaryScore_labels, boundaryScore_triggeredSum.
    unfold signedTerms, triggeredLabels, triggeredSum. simpl.
    destruct_conditions; simpl; intros H; try discriminate H. reflexivity.
Qed.

(** X2. Penalties cap the score of a boundary: inside an active site it is
    0 whatever else holds, inside a helix or strand it is at most 50, and
    within five residues of a PTM position it is at most 80. *)
Theorem boundaryScore_penalty_caps (pos : Z) (side : string) (ctx : boundaryContext) :
  (withinRanges pos (ctx_ActiveSites ctx) = true ->
     fst (boundaryScore pos side ctx) = 0%float)
  /\ (withinRanges pos (ctx_HelixRanges ctx) || withinRanges pos (ctx_StrandRanges ctx) = true ->
        PrimFloat.leb (fst (boundaryScore pos side ctx)) 50 = true)
  /\ (withinPositions pos (ctx_PTMPositions ctx) 5 = true ->
        PrimFloat.leb (fst (boundaryScore pos side ctx)) 80 = true).
Proof.
  rewrite boundaryScore_triggeredSum. unfold signedTerms.
  repeat split; intros ->;
    unfold triggeredSum; simpl; destruct_conditions; reflexivity.
Qed.

(** ** More on the candidate generator *)

Lemma addCandidate_fst minLength maxLength st start end_ source name pdbID :
  fst (addCandidate minLength maxLength st start end_ source name pdbID) = fst st
  \/ (okPair minLength maxLength start end_
      /\ fst (addCandidate minLength maxLength st start end_ source name pdbID)
         = fst st ++ [freshCandidate start end_ source name pdbID]).
Proof.
  unfold addCandidate. destruct st as [cands seen].
  destruct ((start <=? 0) || (end_ <=? 0) || (start >? end_)) eqn:Hrange; [by left|].
  destruct (end_ - start + 1 <? minLength) eqn:Hmin; [by left|].
  destruct ((maxLength >? 0) && (end_ - start + 1 >? maxLength)) eqn:Hmax; [by left|].
  destruct (seenKey seen (candidateKey start end_)); [by left|].
  right. split; [|done].
  apply orb_false_iff in Hrange as [Hrange Hse].
  apply orb_false_iff in Hrange as [Hs He].
  apply Z.leb_gt in Hs, He. rewrite Z.gtb_ltb in Hse. apply Z.ltb_ge in Hse, Hmin.
  unfold okPair. do 3 (split; [lia|]). intros Hpos.
  apply andb_false_iff in Hmax as [Hmax|Hmax];
    rewrite Z.gtb_ltb in Hmax; apply Z.ltb_ge in Hmax; lia.
Qed.

Lemma addCandidate_keeps minLength maxLength st start end_ source name pdbID q :
  In q (map startEnd (fst st)) ->
  In q (map startEnd (fst (addCandidate minLength maxLength st start end_ source name pdbID))).
Proof.
  intros Hq.
  destruct (addCandidate_fst minLength maxLength st start end_ source name pdbID)
    as [->|[_ ->]]; [done|].
  rewrite map_app. apply in_or_app. by left.
Qed.

Lemma addCandidate_Forall (Q : candidate -> Prop) minLength maxLength st
    start end_ source name pdbID :
  Forall Q (fst st) ->
  (okPair minLength maxLength start end_ ->
   Q (freshCandidate start end_ source name pdbID)) ->
  Forall Q (fst (addCandidate minLength maxLength st start end_ source name pdbID)).
Proof.
  intros Hst Hnew.
  destruct (addCandidate_fst minLength maxLength st start end_ source name pdbID)
    as [->|[Hok ->]]; [done|].
  apply Forall_app. split; [done|]. constructor; [by apply Hnew|constructor].
Qed.

Lemma fold_left_inv_in {A S} (P : S -> Prop) (f : S -> A -> S) (l : list A) :
  (forall st x, In x l -> P st -> P (f st x)) -> forall st, P st -> P (fold_left f l st).
Proof.
  induction l as [|x l IH]; intros Hf st Hst; simpl; [done|].
  apply IH.
  - intros st' y Hy. apply Hf. by right.
  - apply Hf; [by left|done].
Qed.

(** A fold of [addCandidate]-like steps emits the pair of every good
    element. *)
Lemma fold_left_emits {A} (Inv : list candidate * gmap string bool -> Prop)
    (f : list candidate * gmap string bool -> A -> list candidate * gmap string bool)
    (good : A -> Prop) (pair : A -> Z * Z) (l : list A) :
  (forall st x, Inv st -> Inv (f st x)) ->
  (forall st x q, In q (map startEnd (fst st)) -> In q (map startEnd (fst (f st x)))) ->
  (forall st x, Inv st -> good x -> In (pair x) (map startEnd (fst (f st x)))) ->
  forall st, Inv st ->
  (forall q, In q (map startEnd (fst st)) -> In q (map startEnd (fst (fold_left f l st))))
  /\ (forall x, In x l -> good x -> In (pair x) (map startEnd (fst (fold_left f l st)))).
Proof.
  intros Hinv Hkeep Hemit. induction l as [|y l IH]; intros st Hst; simpl.
  - split; [done|]. intros x [].
  - destruct (IH (f st y) (Hinv _ _ Hst)) as [IHkeep IHemit]. split.
    + intros q Hq. by apply IHkeep, Hkeep.
    + intros x [->|Hx] Hgood; [by apply IHkeep, Hemit|by apply IHemit].
Qed.

Lemma domain_filter_passes ToLower regionName d :
  negb (String.eqb regionName "")
  && negb (Contains (ToLower (ri_Name d)) (ToLower regionName)) = false ->
  regionName = "" \/ Contains (ToLower (ri_Name d)) (ToLower regionName) = true.
Proof.
  intros H. apply andb_false_iff in H as [H|H]; apply negb_false_iff in H.
  - left. by apply String.eqb_eq.
  - by right.
Qed.

Lemma buildCandidates_origin ToLower sequence regionRange regionName domains
    pdbRanges disordered minLength maxLength :
  Forall (candidateOrigin ToLower regionRange regionName domains pdbRanges disordered)
    (buildCandidates ToLower sequence regionRange regionName domains pdbRanges
       disordered minLength maxLength).
Proof.
  unfold buildCandidates.
  set (Q := candidateOrigin ToLower regionRange regionName domains pdbRanges disordered).
  assert (Hdom : forall st x, In x domains -> Forall Q (fst st) ->
    Forall Q (fst (if negb (String.eqb regionName "")
                      && negb (Contains (ToLower (ri_Name x)) (ToLower regionName))
                   then st
                   else addCandidate minLength maxLength st (ri_Start x) (ri_End x)
                          "domain" (ri_Name x) ""))).
  { intros st x Hx Hst. destruct (negb _ && negb _) eqn:Hf; [done|].
    apply addCandidate_Forall; [done|]. intros _. right. left.
    exists x. split; [done|]. split; [by apply domain_filter_passes|done]. }
  assert (Hpdb : forall st x, In x pdbRanges -> Forall Q (fst st) ->
    Forall Q (fst (addCandidate minLength maxLength st (pdb_Start x) (pdb_End x)
                     "pdb" (pdb_ID x) (pdb_ID x)))).
  { intros st x Hx Hst. apply addCandidate_Forall; [done|]. intros _.
    right. right. left. by exists x. }
  destruct regionRange as [r|] eqn:Hr.
  - apply (fold_left_inv_in (fun st => Forall Q (fst st))); [exact Hpdb|].
    apply (fold_left_inv_in (fun st => Forall Q (fst st))); [exact Hdom|].
    apply addCandidate_Forall; [constructor|]. intros _. left. by exists r.
  - destruct (String.eqb regionName "") eqn:Hn.
    + apply String.eqb_eq in Hn.
      apply (fold_left_inv_in (fun st => Forall Q (fst st))).
      * intros st x Hx Hst. apply addCandidate_Forall; [done|]. intros _.
        right. right. right. split; [done|]. split; [done|]. by exists x.
      * apply (fold_left_inv_in (fun st => Forall Q (fst st))); [exact Hpdb|].
        apply (fold_left_inv_in (fun st => Forall Q (fst st))); [exact Hdom|].
        constructor.
    + apply (fold_left_inv_in (fun st => Forall Q (fst st))); [exact Hpdb|].
      apply (fold_left_inv_in (fun st => Forall Q (fst st))); [exact Hdom|].
      constructor.
Qed.

(** X3. Every candidate of [buildCandidates] comes from one of the four
    generation rules and carries that rule's source, name and structure id,
    a score of 0 and no rationale; ordered segments are proposed only when
    neither a region nor a name filter was given. *)
Theorem buildCandidates_provenance (ToLower : string -> string)
    (sequence : string) (regionRange : option rangeInfo) (regionName : string)
    (domains : list rangeInfo) (pdbRanges : list pdbRange)
    (disordered : list bool) (minLength maxLength : Z) :
  Forall (candidateOrigin ToLower regionRange regionName domains pdbRanges disordered)
    (buildCandidates ToLower sequence regionRange regionName domains pdbRanges
       disordered minLength maxLength)
  /\ Forall (fun c =>
       (c_Source c = "user" \/ c_Source c = "domain" \/ c_Source c = "pdb"
        \/ c_Source c = "ordered")
       /\ (c_Source c = "user" -> regionRange <> None)
       /\ (c_Source c = "ordered" -> regionRange = None /\ regionName = "")
       /\ (c_Source c <> "pdb" -> c_PDBID c = ""))
    (buildCandidates ToLower sequence regionRange regionName domains pdbRanges
       disordered minLength maxLength).
Proof.
  split; [apply buildCandidates_origin|].
  eapply Forall_impl; [apply buildCandidates_origin|].
  intros c [(r & Hr & ->)|[(d & _ & _ & ->)|[(p & _ & ->)|(Hr & Hn & seg & _ & ->)]]];
    simpl; (split; [tauto|]); repeat split; try done; congruence.
Qed.

Lemma okPair_emitted minLength maxLength st start end_ source name pdbID :
  builderInv minLength maxLength st -> okPair minLength maxLength start end_ ->
  In (start, end_)
    (map startEnd (fst (addCandidate minLength maxLength st start end_ source name pdbID))).
Proof. intros Hinv (H1 & H2 & H3 & H4). by apply addCandidate_emits. Qed.

(** X4. No rule of [buildCandidates] loses a range that passes the filter:
    the user's region, every domain matching the name filter, every
    structure range and, without region and filter, every ordered segment
    has its [(start, end)] among the candidates. *)
Theorem buildCandidates_complete (ToLower : string -> string)
    (sequence : string) (regionRange : option rangeInfo) (regionName : string)
    (domains : list rangeInfo) (pdbRanges : list pdbRange)
    (disordered : list bool) (minLength maxLength : Z) :
  (forall r, regionRange = Some r ->
     okPair minLength maxLength (ri_Start r) (ri_End r) ->
     In (ri_Start r, ri_End r)
       (map startEnd (buildCandidates ToLower sequence regionRange regionName domains
                        pdbRanges disordered minLength maxLength)))
  /\ (forall d, In d domains ->
        regionName = "" \/ Contains (ToLower (ri_Name d)) (ToLower regionName) = true ->
        okPair minLength maxLength (ri_Start d) (ri_End d) ->
        In (ri_Start d, ri_End d)
          (map startEnd (buildCandidates ToLower sequence regionRange regionName domains
                           pdbRanges disordered minLength maxLength)))
  /\ (forall p, In p pdbRanges ->
        okPair minLength maxLength (pdb_Start p) (pdb_End p) ->
        In (pdb_Start p, pdb_End p)
          (map startEnd (buildCandidates ToLower sequence regionRange regionName domains
                           pdbRanges disordered minLength maxLength)))
  /\ (regionRange = None -> regionName = "" ->
      forall seg, In seg (orderedRanges disordered) ->
        okPair minLength maxLength (ri_Start seg) (ri_End seg) ->
        In (ri_Start seg, ri_End seg)
          (map startEnd (buildCandidates ToLower sequence regionRange regionName domains
                           pdbRanges disordered minLength maxLength))).
Proof.
  unfold buildCandidates.
  set (Inv := builderInv minLength maxLength).
  set (st0 := (([], ∅) : list candidate * gmap string bool)).
  set (st1 := match regionRange with
              | Some r => addCandidate minLength maxLength st0 (ri_Start r) (ri_End r)
                            "user" "user_region" ""
              | None => st0
              end).
  set (fdom := fun (st : list candidate * gmap string bool) (domain : rangeInfo) =>
                 if negb (String.eqb regionName "")
                    && negb (Contains (ToLower (ri_Name domain)) (ToLower regionName))
                 then st
                 else addCandidate minLength maxLength st (ri_Start domain)
                        (ri_End domain) "domain" (ri_Name domain) "").
  set (fpdb := fun (st : list candidate * gmap string bool) (pdb : pdbRange) =>
                 addCandidate minLength maxLength st (pdb_Start pdb) (pdb_End pdb)
                   "pdb" (pdb_ID pdb) (pdb_ID pdb)).
  set (ford := fun (st : list candidate * gmap string bool) (seg : rangeInfo) =>
                 addCandidate minLength maxLength st (ri_Start seg) (ri_End seg)
                   "ordered" "ordered_segment" "").
  set (st2 := fold_left fdom domains st1).
  set (st3 := fold_left fpdb pdbRanges st2).
  set (st4 := match regionRange with
              | None => if String.eqb regionName "" then fold_left ford (orderedRanges disordered) st3
                        else st3
              | Some _ => st3
              end).
  assert (H0 : Inv st0) by apply builderInv_init.
  assert (H1 : Inv st1) by (unfold st1; destruct regionRange; [by apply addCandidate_inv|done]).
  assert (Idom : forall st x, Inv st -> Inv (fdom st x)).
  { intros st x Hst. unfold fdom. destruct (_ && _); [done|by apply addCandidate_inv]. }
  assert (Ipdb : forall st x, Inv st -> Inv (fpdb st x)).
  { intros st x Hst. by apply addCandidate_inv. }
  assert (Iord : forall st x, Inv st -> Inv (ford st x)).
  { intros st x Hst. by apply addCandidate_inv. }
  assert (H2 : Inv st2) by (by apply fold_left_inv).
  assert (H3 : Inv st3) by (by apply fold_left_inv).
  destruct (fold_left_emits Inv fdom
              (fun d => (regionName = "" \/ Contains (ToLower (ri_Name d)) (ToLower regionName) = true)
                        /\ okPair minLength maxLength (ri_Start d) (ri_End d))
              (fun d => (ri_Start d, ri_End d)) domains Idom) with (st := st1)
    as [K2 E2]; [| |done|].
  { intros st x q Hq. unfold fdom. destruct (_ && _); [done|by apply addCandidate_keeps]. }
  { intros st x Hst [Hflt Hok]. unfold fdom.
    destruct (negb _ && negb _) eqn:Hc; [|by apply okPair_emitted].
    apply andb_true_iff in Hc as [Hc1 Hc2].
    apply negb_true_iff in Hc1, Hc2. destruct Hflt as [->|Hflt]; [done|congruence]. }
  destruct (fold_left_emits Inv fpdb
              (fun p => okPair minLength maxLength (pdb_Start p) (pdb_End p))
              (fun p => (pdb_Start p, pdb_End p)) pdbRanges Ipdb) with (st := st2)
    as [K3 E3]; [| |done|].
  { intros st x q Hq. by apply addCandidate_keeps. }
  { intros st x Hst Hok. by apply okPair_emitted. }
  destruct (fold_left_emits Inv ford
              (fun s => okPair minLength maxLength (ri_Start s) (ri_End s))
              (fun s => (ri_Start s, ri_End s)) (orderedRanges disordered) Iord) with (st := st3)
    as [K4o E4]; [| |done|].
  { intros st x q Hq. by apply addCandidate_keeps. }
  { intros st x Hst Hok. by apply okPair_emitted. }
  fold st2 in K2, E2. fold st3 in K3, E3.
  assert (K4 : forall q, In q (map startEnd (fst st3)) -> In q (map startEnd (fst st4))).
  { unfold st4. destruct regionRange; [done|]. destruct (String.eqb regionName ""); [|done].
    exact K4o. }
  split; [|split; [|split]].
  - intros r Hr Hok. apply K4, K3, K2. unfold st1. rewrite Hr. by apply okPair_emitted.
  - intros d Hd Hflt Hok. apply K4, K3, E2; done.
  - intros p Hp Hok. apply K4, E3; done.
  - intros Hr Hn seg Hseg Hok. unfold st4. rewrite Hr, Hn. simpl. by apply E4.
Qed.

(** ** The outcome of the ranking pipeline *)

Lemma scoreCandidate_startEnd ctx c : startEnd (scoreCandidate ctx c) = startEnd c.
Proof.
  unfold startEnd. destruct (scoreCandidate_fields ctx c) as (-> & -> & _). done.
Qed.

Lemma scoreCandidates_perm cands ctx minLength maxLength :
  scoreCandidates cands ctx minLength maxLength ≡ₚ map (scoreCandidate ctx) cands.
Proof. unfold scoreCandidates, sortSliceStable. apply insertionSort_perm. Qed.

Lemma scoreCandidates_NoDup cands ctx minLength maxLength :
  NoDup (map startEnd cands) ->
  NoDup (map startEnd (scoreCandidates cands ctx minLength maxLength)).
Proof.
  intros H. rewrite scoreCandidates_perm.
  rewrite map_map. erewrite map_ext; [exact H|]. intros c. apply scoreCandidate_startEnd.
Qed.

Lemma rankTop_NoDup scored :
  NoDup (map startEnd scored) -> NoDup (map startEnd (rankTop scored)).
Proof.
  intros H. unfold rankTop, sortSlice.
  change (map startEnd (take 10 (insertionSort rankLess scored)))
    with (startEnd <$> take 10 (insertionSort rankLess scored)).
  rewrite fmap_take. eapply sublist_NoDup; [|apply sublist_take].
  by rewrite insertionSort_perm.
Qed.

(** X5. The pipeline of [main] is fatal exactly when the sanitised sequence
    is empty or no candidate passes the filters.  Otherwise it ranks
    [min(10, n)] of the [n] candidates, each of them a generated candidate
    with its score filled in, and no two with the same [(start, end)]. *)
Theorem mainRank_outcome (ToLower : string -> string) (inp : evidenceInput)
    (minLength maxLength : Z) :
  match mainRank ToLower inp minLength maxLength with
  | Fatal message =>
      (in_sequence inp = "" /\ message = "sequence is empty after sanitization")
      \/ (in_sequence inp <> ""
          /\ mainCandidates ToLower inp minLength maxLength = []
          /\ message = "no construct candidates found with current filters")
  | Ranked top =>
      in_sequence inp <> ""
      /\ mainCandidates ToLower inp minLength maxLength <> []
      /\ List.length top
         = Nat.min 10 (List.length (mainCandidates ToLower inp minLength maxLength))
      /\ NoDup (map startEnd top)
      /\ Forall (fun t => exists c,
                   In c (mainCandidates ToLower inp minLength maxLength)
                   /\ t = scoreCandidate (mainContext inp) c) top
  end.
Proof.
  unfold mainRank. fold (mainCandidates ToLower inp minLength maxLength).
  set (cands := mainCandidates ToLower inp minLength maxLength).
  destruct (String.eqb (in_sequence inp) "") eqn:Hs.
  { left. split; [by apply String.eqb_eq|done]. }
  apply String.eqb_neq in Hs.
  assert (Hlen : List.length (scoreCandidates cands (mainContext inp)
                   (effectiveMinLength minLength) maxLength) = List.length cands).
  { rewrite scoreCandidates_perm. apply length_map. }
  destruct (Z.eqb_spec (len (scoreCandidates cands (mainContext inp)
                               (effectiveMinLength minLength) maxLength)) 0) as [Hz|Hz];
    unfold len in Hz; rewrite Hlen in Hz.
  - right. split; [done|]. split; [|done]. destruct cands; [done|simpl in Hz; lia].
  - split; [done|]. split; [intros Hc; rewrite Hc in Hz; done|].
    split; [|split].
    + unfold rankTop, sortSlice.
      rewrite length_take, (Permutation_length (insertionSort_perm _ _)), Hlen. done.
    + apply rankTop_NoDup, scoreCandidates_NoDup.
      unfold cands, mainCandidates.
      destruct (buildCandidates_inv ToLower (in_sequence inp) (in_regionRange inp)
                  (in_regionName inp) (in_domains inp) (in_pdbRanges inp)
                  (mainDisorder inp) (effectiveMinLength minLength) maxLength)
        as (seen & _ & _ & Hnd & _). exact Hnd.
    + apply rankTop_Forall. rewrite scoreCandidates_perm.
      apply Forall_forall. intros t Ht.
      apply list_elem_of_fmap in Ht as (c & -> & Hc). exists c. split; [|done].
      by apply list_elem_of_In.
Qed.

(** ** Maximal runs *)

Lemma hitAt_flagAt want mask p :
  hitAt want mask 0 p = true <-> flagAt mask p = Some want.
Proof.
  unfold hitAt, flagAt. replace (p - 0 - 1) with (p - 1) by lia.
  destruct (Z.ltb_spec 0 p), (Z.ltb_spec p 1); try lia; simpl.
  - destruct (mask !! Z.to_nat (p - 1)) as [f|]; [|done].
    destruct f, want; simpl; split; done || congruence.
  - done.
Qed.

Lemma flagAt_app_l pre rest p :
  p <= len pre -> flagAt (pre ++ rest) p = flagAt pre p.
Proof.
  intros Hp. unfold flagAt, len in *. destruct (Z.ltb_spec p 1); [done|].
  apply lookup_app_l. lia.
Qed.

Lemma flagAt_app_next pre f rest :
  flagAt (pre ++ f :: rest) (len pre + 1) = Some f.
Proof.
  unfold flagAt, len. destruct (Z.ltb_spec (Z.of_nat (length pre) + 1) 1); [lia|].
  replace (Z.to_nat (Z.of_nat (length pre) + 1 - 1)) with (length pre) by lia.
  by apply list_lookup_middle.
Qed.

Lemma flagAt_beyond mask p : len mask < p -> flagAt mask p = None.
Proof.
  intros Hp. unfold flagAt, len in *. destruct (Z.ltb_spec p 1); [done|].
  apply lookup_ge_None_2. lia.
Qed.

Lemma flagAt_zero mask p : p < 1 -> flagAt mask p = None.
Proof. intros Hp. unfold flagAt. destruct (Z.ltb_spec p 1); [done|lia]. Qed.

Lemma finishRuns_maximal want ty flags : forall pre start,
  pendingRun want pre start ->
  Forall (maximalRun want (pre ++ flags)) (finishRuns want ty flags (len pre) start []).
Proof.
  induction flags as [|f rest IH]; intros pre start Hp.
  - rewrite app_nil_r. unfold finishRuns. simpl.
    destruct Hp as [[-> _]|(Hs & Hall & Hbefore)]; simpl; [constructor|].
    destruct (Z.eqb_spec start 0); [lia|]. simpl.
    constructor; [|constructor]. unfold maximalRun. simpl.
    replace (len pre + len []) with (len pre) by (unfold len; simpl; lia).
    repeat split; try lia; try done.
    rewrite flagAt_beyond by lia. done.
  - rewrite finishRuns_cons. cbv zeta.
    assert (Hlen : len (pre ++ [f]) = len pre + 1).
    { unfold len. rewrite length_app. simpl. lia. }
    assert (Hmask : pre ++ f :: rest = (pre ++ [f]) ++ rest) by (by rewrite <- app_assoc).
    assert (Hlast : flagAt (pre ++ [f]) (len pre + 1) = Some f) by apply flagAt_app_next.
    assert (Hlenpos : 0 <= len pre) by (unfold len; lia).
    destruct (Bool.eqb f want) eqn:Hf; simpl.
    + apply Bool.eqb_prop in Hf. subst f.
      rewrite Hmask, <- Hlen. apply IH. right. rewrite Hlen.
      destruct Hp as [[-> Hprev]|(Hs & Hall & Hbefore)]; simpl.
      * split; [lia|]. split.
        -- intros p Hp. by replace p with (len pre + 1) by lia.
        -- replace (len pre + 1 - 1) with (len pre) by lia.
           by rewrite flagAt_app_l by lia.
      * destruct (Z.eqb_spec start 0); [lia|]. split; [lia|]. split.
        -- intros p Hp. destruct (decide (p = len pre + 1)) as [->|]; [done|].
           rewrite flagAt_app_l by lia. apply Hall. lia.
        -- by rewrite flagAt_app_l by lia.
    + apply Bool.eqb_false_iff in Hf.
      assert (Hnext : pendingRun want (pre ++ [f]) 0).
      { left. split; [done|]. rewrite Hlen, Hlast. congruence. }
      destruct Hp as [[-> Hprev]|(Hs & Hall & Hbefore)]; simpl.
      * rewrite Hmask, <- Hlen. by apply IH.
      * destruct (Z.eqb_spec start 0); [lia|]. simpl. constructor.
        -- unfold maximalRun. simpl.
           assert (len (pre ++ f :: rest) = len pre + 1 + len rest).
           { unfold len. rewrite length_app. simpl. lia. }
           assert (0 <= len rest) by (unfold len; lia).
           split; [lia|]. split; [lia|]. split; [lia|]. split; [|split].
           ++ intros p Hp. rewrite flagAt_app_l by lia. by apply Hall.
           ++ by rewrite flagAt_app_l by lia.
           ++ rewrite flagAt_app_next. congruence.
        -- rewrite Hmask, <- Hlen. by apply IH.
Qed.

Lemma runs_maximal want ty mask :
  Forall (maximalRun want mask) (finishRuns want ty mask 0 0 []).
Proof.
  apply (finishRuns_maximal want ty mask [] 0). left. split; [done|].
  by rewrite flagAt_zero.
Qed.

(** X6. Every range of [compressDisorder] is a maximal run of disordered
    residues and every range of [orderedRanges] a maximal run of ordered
    ones: all its residues carry the flag, and the residue before it and the
    residue after it, where they exist, do not. *)
Theorem ranges_are_maximal_runs (mask : list bool) :
  Forall (maximalRun true mask) (compressDisorder mask)
  /\ Forall (maximalRun false mask) (orderedRanges mask).
Proof.
  rewrite compressDisorder_finish, orderedRanges_finish.
  split; apply runs_maximal.
Qed.

(** ** Disorder transitions and the runs of the mask *)

Lemma idx_flagAt mask i :
  0 <= i < len mask -> flagAt mask (i + 1) = Some (idx false mask i).
Proof.
  intros Hi. unfold flagAt, idx, len in *.
  destruct (Z.ltb_spec (i + 1) 1), (Z.ltb_spec i 0); try lia.
  replace (i + 1 - 1) with i by lia.
  destruct (lookup_lt_is_Some_2 mask (Z.to_nat i) ltac:(lia)) as [f ->]. done.
Qed.

Lemma flagAt_idx mask p :
  1 <= p <= len mask -> flagAt mask p = Some (idx false mask (p - 1)).
Proof.
  intros Hp. rewrite <- idx_flagAt by lia. f_equal. lia.
Qed.

Lemma transition_guard_false pos (mask : list bool) :
  (len mask =? 0) || (pos <=? 0) || (pos >? len mask) = true ->
  flagAt mask pos <> Some false.
Proof.
  intros Hg. rewrite Z.gtb_ltb in Hg.
  assert (0 <= len mask) by (unfold len; lia).
  destruct (Z.eqb_spec (len mask) 0), (Z.leb_spec pos 0), (Z.ltb_spec (len mask) pos);
    try discriminate Hg;
    first [ rewrite flagAt_zero by lia; done | rewrite flagAt_beyond by lia; done ].
Qed.

Lemma isDisorderTransition_start pos mask :
  isDisorderTransition pos "start" mask = true
  <-> flagAt mask pos = Some false /\ flagAt mask (pos - 1) <> Some false.
Proof.
  unfold isDisorderTransition. simpl.
  destruct ((len mask =? 0) || (pos <=? 0) || (pos >? len mask)) eqn:Hg.
  { split; [done|]. intros [H _]. by apply transition_guard_false in Hg. }
  apply orb_false_iff in Hg as [Hg Hg3]. apply orb_false_iff in Hg as [Hg1 Hg2].
  rewrite Z.gtb_ltb in Hg3. apply Z.ltb_ge in Hg3. apply Z.leb_gt in Hg2.
  rewrite (flagAt_idx mask pos) by lia.
  destruct (idx false mask (pos - 1)) eqn:Hi.
  { split; [done|]. intros [H _]. done. }
  destruct (Z.eqb_spec (pos - 1) 0) as [H1|H1].
  { split; [|done]. intros _. split; [done|]. by rewrite flagAt_zero by lia. }
  rewrite (flagAt_idx mask (pos - 1)) by lia.
  destruct (idx false mask (pos - 1 - 1)); split; try done;
    try (intros [_ H]; done); try (intros _; split; [done|congruence]).
Qed.

Lemma isDisorderTransition_end pos mask :
  isDisorderTransition pos "end" mask = true
  <-> flagAt mask pos = Some false /\ flagAt mask (pos + 1) <> Some false.
Proof.
  unfold isDisorderTransition. simpl.
  destruct ((len mask =? 0) || (pos <=? 0) || (pos >? len mask)) eqn:Hg.
  { split; [done|]. intros [H _]. by apply transition_guard_false in Hg. }
  apply orb_false_iff in Hg as [Hg Hg3]. apply orb_false_iff in Hg as [Hg1 Hg2].
  rewrite Z.gtb_ltb in Hg3. apply Z.ltb_ge in Hg3. apply Z.leb_gt in Hg2.
  rewrite (flagAt_idx mask pos) by lia.
  destruct (idx false mask (pos - 1)) eqn:Hi.
  { split; [done|]. intros [H _]. done. }
  destruct (Z.eqb_spec (pos - 1) (len mask - 1)) as [H1|H1].
  { split; [|done]. intros _. split; [done|]. by rewrite flagAt_beyond by lia. }
  rewrite (flagAt_idx mask (pos + 1)) by lia.
  replace (pos + 1 - 1) with (pos - 1 + 1) by lia.
  destruct (idx false mask (pos - 1 + 1)); split; try done;
    try (intros [_ H]; done); try (intros _; split; [done|congruence]).
Qed.

(** X7. A boundary is a disorder transition exactly when its residue is
    ordered and its outer neighbour (the residue before a start, after an
    end) is disordered or does not exist.  Hence each ordered segment starts
    and ends on a transition, and no residue of a disordered region is one. *)
Theorem transitions_at_ordered_segment_ends (mask : list bool) :
  (forall pos,
     (isDisorderTransition pos "start" mask = true
      <-> flagAt mask pos = Some false /\ flagAt mask (pos - 1) <> Some false)
     /\ (isDisorderTransition pos "end" mask = true
         <-> flagAt mask pos = Some false /\ flagAt mask (pos + 1) <> Some false))
  /\ Forall (fun r => isDisorderTransition (ri_Start r) "start" mask = true
                      /\ isDisorderTransition (ri_End r) "end" mask = true)
       (orderedRanges mask)
  /\ Forall (fun r => forall p, ri_Start r <= p <= ri_End r ->
                        isDisorderTransition p "start" mask = false
                        /\ isDisorderTransition p "end" mask = false)
       (compressDisorder mask).
Proof.
  split; [|split].
  - intros pos. split; [apply isDisorderTransition_start|apply isDisorderTransition_end].
  - rewrite orderedRanges_finish.
    eapply Forall_impl; [apply (runs_maximal false "ordered" mask)|].
    intros r (H1 & H2 & H3 & Hall & Hb & Ha). split.
    + apply isDisorderTransition_start. split; [apply Hall; lia|done].
    + apply isDisorderTransition_end. split; [apply Hall; lia|done].
  - rewrite compressDisorder_finish.
    eapply Forall_impl; [apply (runs_maximal true "disorder" mask)|].
    intros r (H1 & H2 & H3 & Hall & Hb & Ha) p Hp.
    specialize (Hall p Hp). split; apply not_true_is_false; intros Ht.
    + apply isDisorderTransition_start in Ht as [Ht _]. congruence.
    + apply isDisorderTransition_end in Ht as [Ht _]. congruence.
Qed.

(** ** The disorder mask of a confidence array and its runs *)

Lemma flagAt_computeDisorderedRegions plddt n p :
  1 <= p <= Z.of_nat n ->
  flagAt (computeDisorderedRegions plddt n) p = Some (below50At plddt (Z.to_nat (p - 1))).
Proof.
  intros Hp. unfold flagAt. destruct (Z.ltb_spec p 1); [lia|].
  rewrite computeDisorderedRegions_lookup.
  destruct (Nat.ltb_spec (Z.to_nat (p - 1)) n); [done|lia].
Qed.

Lemma finishRuns_all_unwanted want ty k : forall i,
  finishRuns want ty (replicate k (negb want)) i 0 [] = [].
Proof.
  induction k as [|k IH]; intros i; [done|].
  simpl replicate. rewrite finishRuns_cons. cbv zeta.
  replace (Bool.eqb (negb want) want) with false by (by destruct want).
  simpl. apply IH.
Qed.

Lemma finishRuns_all_wanted want ty k : forall i start,
  start <> 0 ->
  finishRuns want ty (replicate k want) i start []
  = [mkRange start (i + Z.of_nat k) "" ty "pLDDT"].
Proof.
  induction k as [|k IH]; intros i start Hs.
  - unfold finishRuns, len. simpl. destruct (Z.eqb_spec start 0); [done|]. done.
  - simpl replicate. rewrite finishRuns_cons. cbv zeta.
    rewrite Bool.eqb_reflx. destruct (Z.eqb_spec start 0); [done|]. simpl.
    rewrite IH by done. do 2 f_equal. lia.
Qed.

(** X8. The disordered regions reported for a confidence array consist of
    residues whose confidence is below 50, the ordered segments of residues
    whose confidence is missing or not below 50.  Without confidence data
    there is no disordered region and the whole sequence is one ordered
    segment. *)
Theorem disorder_ranges_of_confidence (plddt : list float) (n : nat) :
  Forall (fun r => forall p, ri_Start r <= p <= ri_End r ->
                     below50At plddt (Z.to_nat (p - 1)) = true)
    (compressDisorder (computeDisorderedRegions plddt n))
  /\ Forall (fun r => forall p, ri_Start r <= p <= ri_End r ->
                        below50At plddt (Z.to_nat (p - 1)) = false)
       (orderedRanges (computeDisorderedRegions plddt n))
  /\ compressDisorder (computeDisorderedRegions [] n) = []
  /\ orderedRanges (computeDisorderedRegions [] (S n))
     = [mkRange 1 (Z.of_nat (S n)) "" "ordered" "pLDDT"]
  /\ orderedRanges (computeDisorderedRegions plddt 0) = [].
Proof.
  assert (Hlen : len (computeDisorderedRegions plddt n) = Z.of_nat n).
  { unfold len. by rewrite computeDisorderedRegions_length. }
  split; [|split; [|split; [|split]]].
  - rewrite compressDisorder_finish.
    eapply Forall_impl; [apply runs_maximal|].
    intros r (H1 & H2 & H3 & Hall & _) p Hp. specialize (Hall p Hp).
    rewrite flagAt_computeDisorderedRegions in Hall by lia. congruence.
  - rewrite orderedRanges_finish.
    eapply Forall_impl; [apply runs_maximal|].
    intros r (H1 & H2 & H3 & Hall & _) p Hp. specialize (Hall p Hp).
    rewrite flagAt_computeDisorderedRegions in Hall by lia. congruence.
  - rewrite compressDisorder_finish.
    change (computeDisorderedRegions [] n) with (replicate n (negb true)).
    apply finishRuns_all_unwanted.
  - rewrite orderedRanges_finish.
    change (computeDisorderedRegions [] (S n)) with (false :: replicate n false).
    rewrite finishRuns_cons. cbv zeta. simpl.
    rewrite finishRuns_all_wanted by done. do 2 f_equal. lia.
  - unfold computeDisorderedRegions. simpl. rewrite orb_true_r. reflexivity.
Qed.

(** ** The order of the emitted ranges *)

Lemma finishRuns_ascending want ty flags : forall i start,
  (start = 0 \/ 1 <= start <= i) -> 0 <= i ->
  Sorted apart (finishRuns want ty flags i start [])
  /\ Forall (fun r => (if start =? 0 then i + 1 else start) <= ri_Start r)
       (finishRuns want ty flags i start []).
Proof.
  induction flags as [|f rest IH]; intros i start Hs Hi.
  - unfold finishRuns. simpl. destruct (Z.eqb_spec start 0); simpl.
    + split; constructor.
    + split; [repeat constructor|]. constructor; [simpl; lia|constructor].
  - rewrite finishRuns_cons. cbv zeta.
    destruct (Bool.eqb f want) eqn:Hf; simpl.
    + destruct (Z.eqb_spec start 0) as [->|Hne]; simpl.
      * destruct (IH (i + 1) (i + 1) ltac:(lia) ltac:(lia)) as [Hsorted Hlow].
        split; [done|]. eapply Forall_impl; [exact Hlow|].
        intros r Hr. simpl in Hr. destruct (Z.eqb_spec (i + 1) 0); lia.
      * destruct (IH (i + 1) start ltac:(lia) ltac:(lia)) as [Hsorted Hlow].
        split; [done|]. eapply Forall_impl; [exact Hlow|].
        intros r Hr. simpl in Hr. destruct (Z.eqb_spec start 0); lia.
    + destruct (IH (i + 1) 0 ltac:(lia) ltac:(lia)) as [Hsorted Hlow]. simpl in Hlow.
      destruct (Z.eqb_spec start 0) as [->|Hne]; simpl.
      * split; [done|]. eapply Forall_impl; [exact Hlow|]. intros r Hr. simpl in Hr. lia.
      * split.
        -- constructor; [done|].
           destruct Hlow as [|r l Hr Hl]; constructor. unfold apart. simpl. lia.
        -- constructor; [simpl; lia|].
           eapply Forall_impl; [exact Hlow|]. intros r Hr. simpl in Hr. lia.
Qed.

(** X9. Disordered regions and ordered segments are each listed in
    ascending order, and two consecutive ranges of the same list are
    separated by at least one residue. *)
Theorem ranges_ascending_and_apart (mask : list bool) :
  Sorted apart (compressDisorder mask) /\ Sorted apart (orderedRanges mask).
Proof.
  rewrite compressDisorder_finish, orderedRanges_finish.
  split; apply finishRuns_ascending; lia.
Qed.

(** ** More on the result cache *)

Section ResultCacheMore.

Variable ToLower : string -> string.
Variable filepath_Join : list string -> string.
Variable filepath_Dir : string -> string.
Variable jsonMarshalIndent : cacheEntry -> list byte + string.
Variable jsonUnmarshal : list byte -> option cacheEntry.

Lemma writeCache_frame fs now path payload p :
  p <> path ->
  fs_files (fst (writeCache filepath_Dir jsonMarshalIndent fs now path payload)) !! p
  = fs_files fs !! p.
Proof.
  intros Hp. unfold writeCache.
  destruct (fs_mkdirAll fs _); [done|].
  destruct (jsonMarshalIndent _); [|done].
  destruct (fs_writeFile fs path); [done|]. simpl.
  by rewrite lookup_insert_ne.
Qed.

(** X10. The cache is best effort.  [fetchWithCache] calls [fetch] exactly
    when [readCache] misses; on a hit it returns the stored payload and
    leaves the file system alone; on a miss it returns what [fetch] returned,
    the payload also when the record could not be written, and the error
    without writing anything; and it never touches a file other than the
    record of its key. *)
Theorem fetchWithCache_best_effort (fs : fileSystem) (now : Z)
    (cacheDir namespace key : string) (fetch : Z -> result * Z) :
  (fo_fetched (fetchWithCache ToLower filepath_Join filepath_Dir jsonMarshalIndent
                 jsonUnmarshal fs now cacheDir namespace key fetch)
   = negb (snd (readCache jsonUnmarshal fs now
                  (cacheFilePath ToLower filepath_Join cacheDir namespace key))))
  /\ (snd (readCache jsonUnmarshal fs now
             (cacheFilePath ToLower filepath_Join cacheDir namespace key)) = true ->
      fetchWithCache ToLower filepath_Join filepath_Dir jsonMarshalIndent
        jsonUnmarshal fs now cacheDir namespace key fetch
      = mkOutcome
          (fst (readCache jsonUnmarshal fs now
                  (cacheFilePath ToLower filepath_Join cacheDir namespace key)), None)
          fs now false)
  /\ (snd (readCache jsonUnmarshal fs now
             (cacheFilePath ToLower filepath_Join cacheDir namespace key)) = false ->
      fo_now (fetchWithCache ToLower filepath_Join filepath_Dir jsonMarshalIndent
                jsonUnmarshal fs now cacheDir namespace key fetch) = snd (fetch now)
      /\ match fst (fetch now) with
         | (_, Some e) =>
             fo_result (fetchWithCache ToLower filepath_Join filepath_Dir
                          jsonMarshalIndent jsonUnmarshal fs now cacheDir namespace key fetch)
             = ([], Some e)
             /\ fo_fs (fetchWithCache ToLower filepath_Join filepath_Dir
                         jsonMarshalIndent jsonUnmarshal fs now cacheDir namespace key fetch)
                = fs
         | (payload, None) =>
             fo_result (fetchWithCache ToLower filepath_Join filepath_Dir
                          jsonMarshalIndent jsonUnmarshal fs now cacheDir namespace key fetch)
             = (payload, None)
             /\ fo_fs (fetchWithCache ToLower filepath_Join filepath_Dir
                         jsonMarshalIndent jsonUnmarshal fs now cacheDir namespace key fetch)
                = fst (writeCache filepath_Dir jsonMarshalIndent fs (snd (fetch now))
                         (cacheFilePath ToLower filepath_Join cacheDir namespace key)
                         payload)
         end)
  /\ (forall p, p <> cacheFilePath ToLower filepath_Join cacheDir namespace key ->
        fs_files (fo_fs (fetchWithCache ToLower filepath_Join filepath_Dir
                           jsonMarshalIndent jsonUnmarshal fs now cacheDir namespace key
                           fetch)) !! p
        = fs_files fs !! p).
Proof.
  unfold fetchWithCache.
  set (path := cacheFilePath ToLower filepath_Join cacheDir namespace key).
  destruct (readCache jsonUnmarshal fs now path) as [cached [|]]; simpl.
  - repeat split; done.
  - destruct (fetch now) as [[payload [e|]] now']; simpl.
    + repeat split; done.
    + pose proof (writeCache_frame fs now' path payload) as Hframe.
      destruct (writeCache filepath_Dir jsonMarshalIndent fs now' path payload)
        as [fs' werr]; simpl in *.
      repeat split; done.
Qed.


(** X12. The file name of a record is the lower-cased key with every ['/']
    and every [' '] replaced by ['_'], followed by [.json]: it has the length
    of the key and contains neither of the two characters. *)
Theorem cacheFilePath_sanitised (cacheDir namespace key : string) :
  exists name,
    cacheFilePath ToLower filepath_Join cacheDir namespace key
    = filepath_Join [cacheDir; namespace; name +:+ ".json"]
    /\ name = replaceChar " " "_" (replaceChar "/" "_" (ToLower key))
    /\ String.length name = String.length (ToLower key)
    /\ hasChar "/" name = false
    /\ hasChar " " name = false.
Proof.
  exists (replaceChar " " "_" (replaceChar "/" "_" (ToLower key))).
  split; [done|]. split; [done|].
  generalize (ToLower key) as k. intros k.
  induction k as [|c k (IH1 & IH2 & IH3)]; [done|]. simpl.
  rewrite IH1, IH2, IH3.
  split; [done|].
  destruct (Ascii.eqb_spec c "/") as [->|H1]; [done|].
  destruct (Ascii.eqb_spec c " ") as [->|H2]; [done|].
  destruct (Ascii.eqb_spec c "/"); [done|]. destruct (Ascii.eqb_spec c " "); done.
Qed.

End ResultCacheMore.


(** ** More on the HTTP client *)

Section FetchClientMore.

Variable client : string -> nat -> getResult.
Variable gunzip : list byte -> result.

Lemma httpGetLoop_retry fuel url attempt lastErr tr e :
  attempt < 3 -> retryError (client url (tr_attempts tr)) = Some e ->
  httpGetLoop client gunzip (S fuel) url attempt lastErr tr
  = httpGetLoop client gunzip fuel url (attempt + 1) (Some e)
      (mkTrace (S (tr_attempts tr)) (tr_slept tr ++ [attempt + 1])).
Proof.
  intros Ha Hr. simpl.
  destruct (Z.ltb_spec attempt 3); [|lia].
  destruct (client url (tr_attempts tr)) as [e'|resp]; simpl in *; [congruence|].
  destruct (StatusCode resp =? 404); [done|].
  destruct ((StatusCode resp <? 200) || (StatusCode resp >=? 300)); [congruence|].
  destruct (Body resp); [done|congruence].
Qed.

Lemma httpGetLoop_good fuel url attempt lastErr tr body :
  attempt < 3 -> goodAnswer (client url (tr_attempts tr)) body ->
  httpGetLoop client gunzip (S fuel) url attempt lastErr tr
  = (if compressed (client url (tr_attempts tr)) body
     then match gunzip body with
          | (_, Some e) => ([], Some e)
          | (decoded, None) => (decoded, None)
          end
     else (body, None),
     mkTrace (S (tr_attempts tr)) (tr_slept tr)).
Proof.
  intros Ha (resp & Hc & Hst & Hb). simpl.
  destruct (Z.ltb_spec attempt 3); [|lia].
  rewrite Hc. simpl.
  destruct (Z.eqb_spec (StatusCode resp) 404); [lia|].
  destruct (Z.ltb_spec (StatusCode resp) 200); [lia|].
  rewrite Z.geb_leb. destruct (Z.leb_spec 300 (StatusCode resp)); [lia|]. simpl.
  rewrite Hb.
  destruct (String.eqb (ContentEncoding resp) "gzip" || isGzip body); [|done].
  by destruct (gunzip body) as [decoded [e|]].
Qed.

(** The loop from any state in which it cannot end without an error: a
    result without error comes from a 2xx answer to one of the requests
    made. *)
Lemma httpGetLoop_success fuel url : forall attempt lastErr tr payload,
  lastErr <> None \/ ((0 < fuel)%nat /\ attempt < 3) ->
  fst (httpGetLoop client gunzip fuel url attempt lastErr tr) = (payload, None) ->
  exists (k : nat) body,
    (tr_attempts tr <= k)%nat
    /\ tr_attempts (snd (httpGetLoop client gunzip fuel url attempt lastErr tr)) = S k
    /\ goodAnswer (client url k) body
    /\ (if compressed (client url k) body
        then gunzip body = (payload, None) else payload = body).
Proof.
  induction fuel as [|fuel IH]; intros attempt lastErr tr payload Hl; simpl.
  { intros [= _ Hn]. destruct Hl as [Hl|[Hl _]]; [done|lia]. }
  destruct (Z.ltb_spec attempt 3) as [Ha|Ha];
    [|intros [= _ Hn]; destruct Hl as [Hl|[_ Hl]]; [done|lia]].
  assert (Hretry : forall e,
    fst (httpGetLoop client gunzip fuel url (attempt + 1) (Some e)
           (mkTrace (S (tr_attempts tr)) (tr_slept tr ++ [attempt + 1]))) = (payload, None) ->
    exists (k : nat) body,
      (tr_attempts tr <= k)%nat
      /\ tr_attempts (snd (httpGetLoop client gunzip fuel url (attempt + 1) (Some e)
            (mkTrace (S (tr_attempts tr)) (tr_slept tr ++ [attempt + 1])))) = S k
      /\ goodAnswer (client url k) body
      /\ (if compressed (client url k) body
          then gunzip body = (payload, None) else payload = body)).
  { intros e He.
    assert (Hs : Some e <> @None string) by done.
    destruct (IH (attempt + 1) (Some e) _ payload (or_introl Hs) He)
      as (k & body & Hk & Hrest).
    exists k, body. simpl in Hk. split; [lia|done]. }
  destruct (client url (tr_attempts tr)) as [e|resp] eqn:Hc; [by apply Hretry|].
  destruct (Z.eqb_spec (StatusCode resp) 404); [done|].
  destruct (Z.ltb_spec (StatusCode resp) 200); [by apply Hretry|].
  rewrite Z.geb_leb. destruct (Z.leb_spec 300 (StatusCode resp)); [by apply Hretry|].
  simpl. destruct (Body resp) as [body|e] eqn:Hb; [|by apply Hretry].
  intros Hres. exists (tr_attempts tr), body.
  split; [lia|]. split.
  { destruct (String.eqb (ContentEncoding resp) "gzip" || isGzip body);
      [destruct (gunzip body) as [decoded [e|]]|]; done. }
  split; [exists resp; split; [done|split; [lia|done]]|].
  rewrite Hc. simpl.
  destruct (String.eqb (ContentEncoding resp) "gzip" || isGzip body).
  - destruct (gunzip body) as [decoded [e|]]; simpl in Hres; congruence.
  - simpl in Hres. congruence.
Qed.

(** X13. The first answer that is not retried decides the call.  When the
    answers before the [k]-th (k < 3) are retried, read errors of a 2xx body
    included, and the [k]-th is a 2xx answer with a readable body, [httpGet]
    returns after [k + 1] requests and sleeps of 1..k seconds: the body as
    it is, or, when the answer is marked or recognised as gzip, what
    [gunzip] returns, its error included and without another attempt. *)
Theorem httpGet_first_good_answer (url : string) (k : nat) (body : list byte) :
  (k < 3)%nat ->
  (forall j : nat, (j < k)%nat -> retryError (client url j) <> None) ->
  goodAnswer (client url k) body ->
  fst (httpGet client gunzip url)
  = (if compressed (client url k) body
     then match gunzip body with
          | (_, Some e) => ([], Some e)
          | (decoded, None) => (decoded, None)
          end
     else (body, None))
  /\ tr_attempts (snd (httpGet client gunzip url)) = S k
  /\ tr_slept (snd (httpGet client gunzip url)) = seqZ 1 (Z.of_nat k).
Proof.
  intros Hk Hretry Hgood. unfold httpGet.
  assert (H0 : (0 < k)%nat -> exists e, retryError (client url 0%nat) = Some e).
  { intros H. specialize (Hretry 0%nat H).
    destruct (retryError (client url 0%nat)) as [e|]; [by exists e|done]. }
  assert (H1 : (1 < k)%nat -> exists e, retryError (client url 1%nat) = Some e).
  { intros H. specialize (Hretry 1%nat H).
    destruct (retryError (client url 1%nat)) as [e|]; [by exists e|done]. }
  destruct k as [|[|[|k]]]; [| | |lia].
  - rewrite (httpGetLoop_good _ _ _ _ _ body) by (simpl; done || lia).
    repeat split; reflexivity.
  - destruct H0 as [e0 H0]; [lia|].
    rewrite (httpGetLoop_retry _ _ _ _ _ e0) by (simpl; done || lia).
    cbn [tr_attempts tr_slept].
    rewrite (httpGetLoop_good _ _ _ _ _ body) by (simpl; done || lia).
    repeat split; reflexivity.
  - destruct H0 as [e0 H0]; [lia|]. destruct H1 as [e1 H1]; [lia|].
    rewrite (httpGetLoop_retry _ _ _ _ _ e0) by (simpl; done || lia).
    cbn [tr_attempts tr_slept].
    rewrite (httpGetLoop_retry _ _ _ _ _ e1) by (simpl; done || lia).
    cbn [tr_attempts tr_slept].
    rewrite (httpGetLoop_good _ _ _ _ _ body) by (simpl; done || lia).
    repeat split; reflexivity.
Qed.

(** X14. [httpGet] reports success only for a 2xx answer: when it returns
    a payload without error, one of its at most 3 requests, the last one it
    made, was answered with a 2xx status and a readable body, and the
    payload is that body or its decompression.  In particular an empty
    error never comes out of three failures. *)
Theorem httpGet_success_only_from_2xx (url : string) (payload : list byte) :
  fst (httpGet client gunzip url) = (payload, None) ->
  exists (k : nat) body,
    (k < 3)%nat
    /\ tr_attempts (snd (httpGet client gunzip url)) = S k
    /\ goodAnswer (client url k) body
    /\ (if compressed (client url k) body
        then gunzip body = (payload, None) else payload = body).
Proof.
  unfold httpGet. intros Hres.
  assert (Hrun : (0 < 3)%nat /\ 0 < 3) by (split; lia).
  destruct (httpGetLoop_success 3 url 0 None (mkTrace 0 []) payload
              (or_intror Hrun) Hres)
    as (k & body & _ & Hk & Hgood & Hpay).
  exists k, body. split; [|done].
  pose proof (httpGetLoop_attempts client gunzip 3 url 0 None (mkTrace 0 [])) as Hle.
  rewrite Hk in Hle. simpl in Hle. lia.
Qed.

End FetchClientMore.

(** A 503, then a 200 whose body could not be read, then a 200 whose body
    starts with the gzip magic number. *)
Lemma httpGet_first_good_answer_witness :
  fst (httpGet
         (fun _ k =>
            match k with
            | O => GetResp (mkResponse 503 "" (ReadOk []))
            | S O => GetResp (mkResponse 200 "" (ReadErr "unexpected EOF"))
            | _ => GetResp (mkResponse 200 "" (ReadOk [x1f; x8b; x08]%byte))
            end)
         (fun body => (drop 2 body, None)) "u")
  = ([x08]%byte, None).
Proof.
  pose proof (httpGet_first_good_answer
    (fun _ k =>
       match k with
       | O => GetResp (mkResponse 503 "" (ReadOk []))
       | S O => GetResp (mkResponse 200 "" (ReadErr "unexpected EOF"))
       | _ => GetResp (mkResponse 200 "" (ReadOk [x1f; x8b; x08]%byte))
       end)
    (fun body => (drop 2 body, None)) "u" 2%nat [x1f; x8b; x08]%byte) as H.
  apply H.
  - lia.
  - intros [|[|j]] Hj; [done|done|lia].
  - eexists. split; [reflexivity|]. simpl. split; [lia|done].
Defined.

Lemma httpGet_success_only_from_2xx_witness :
  exists (k : nat) body,
    (k < 3)%nat
    /\ tr_attempts (snd (httpGet (fun _ _ => GetResp (mkResponse 200 "" (ReadOk [x7b; x7d]%byte)))
                           (fun body => (body, None)) "u")) = S k
    /\ goodAnswer (GetResp (mkResponse 200 "" (ReadOk [x7b; x7d]%byte))) body
    /\ (if compressed (GetResp (mkResponse 200 "" (ReadOk [x7b; x7d]%byte))) body
        then (body, @None string) = ([x7b; x7d]%byte, None) else [x7b; x7d]%byte = body).
Proof.
  apply (httpGet_success_only_from_2xx
           (fun _ _ => GetResp (mkResponse 200 "" (ReadOk [x7b; x7d]%byte)))
           (fun body => (body, None)) "u" [x7b; x7d]%byte).
  reflexivity.
Defined.

(** ** Window averages and flags *)

Lemma avgWindowLoop_sum values : forall fuel i end_ sum count,
  0 <= i -> end_ < len values -> Z.of_nat fuel = end_ - i + 1 ->
  avgWindowLoop fuel values i end_ sum count
  = (fold_left PrimFloat.add (take fuel (drop (Z.to_nat i) values)) sum,
     count + Z.of_nat fuel).
Proof.
  induction fuel as [|fuel IH]; intros i end_ sum count Hi He Hf.
  { simpl. f_equal. lia. }
  cbn [avgWindowLoop].
  destruct (Z.leb_spec i end_); [|lia].
  rewrite IH by lia.
  assert (Hlook : exists v, values !! Z.to_nat i = Some v).
  { apply lookup_lt_is_Some. unfold len in He. lia. }
  destruct Hlook as [v Hv].
  rewrite (drop_S values v (Z.to_nat i)) by done. simpl.
  replace (Z.to_nat (i + 1)) with (S (Z.to_nat i)) by lia.
  unfold idx. destruct (Z.ltb_spec i 0); [lia|]. rewrite Hv. simpl.
  f_equal. lia.
Qed.

(** X15. [avgWindow] is the mean of the part of the window that lies inside
    the slice: the values from [max 0 start] to [min (len - 1) end], added
    from left to right and divided by their number; it is 0 when that part
    is empty, in particular on an empty slice. *)
Theorem avgWindow_mean_of_clipped_window (values : list float) (start end_ : Z) :
  avgWindow values start end_
  = (if max 0 start >? min (len values - 1) end_ then 0%float
     else PrimFloat.div
            (fold_left PrimFloat.add (windowValues values start end_) 0%float)
            (float64 (len (windowValues values start end_))))
  /\ (max 0 start <= min (len values - 1) end_ ->
      len (windowValues values start end_)
      = min (len values - 1) end_ - max 0 start + 1).
Proof.
  assert (Hlen : max 0 start <= min (len values - 1) end_ ->
      len (windowValues values start end_)
      = min (len values - 1) end_ - max 0 start + 1).
  { intros H. unfold windowValues, len in *.
    rewrite length_take, length_drop.
    revert H. unfold max, min. rewrite ?Z.gtb_ltb.
    repeat match goal with
    | |- context [(?a <? ?b)] => destruct (Z.ltb_spec a b)
    end; lia. }
  split; [|exact Hlen].
  unfold avgWindow.
  destruct (Z.eqb_spec (len values) 0) as [H0|H0].
  { simpl. rewrite Z.gtb_ltb.
    destruct (Z.ltb_spec (min (len values - 1) end_) (max 0 start)) as [|Hc]; [done|].
    revert Hc. unfold max, min. rewrite ?Z.gtb_ltb.
    repeat match goal with
    | |- context [(?a <? ?b)] => destruct (Z.ltb_spec a b)
    end; lia. }
  simpl. rewrite (Z.gtb_ltb start end_).
  destruct (Z.ltb_spec end_ start) as [Hse|Hse].
  { rewrite Z.gtb_ltb.
    destruct (Z.ltb_spec (min (len values - 1) end_) (max 0 start)) as [|Hc]; [done|].
    revert Hc. unfold max, min. rewrite ?Z.gtb_ltb.
    repeat match goal with
    | |- context [(?a <? ?b)] => destruct (Z.ltb_spec a b)
    end; lia. }
  rewrite Z.gtb_ltb.
  destruct (Z.ltb_spec (min (len values - 1) end_) (max 0 start)) as [Hc|Hc]; [done|].
  specialize (Hlen Hc).
  assert (Hs0 : 0 <= max 0 start).
  { unfold max. rewrite Z.gtb_ltb. destruct (Z.ltb_spec start 0); lia. }
  assert (He0 : min (len values - 1) end_ < len values).
  { unfold min. destruct (Z.ltb_spec (len values - 1) end_); lia. }
  rewrite avgWindowLoop_sum by lia.
  fold (windowValues values start end_).
  rewrite Z2Nat.id by lia. rewrite Z.add_0_l, <- Hlen.
  destruct (Z.eqb_spec (len (windowValues values start end_)) 0); [lia|done].
Qed.

Lemma sliceAnyLoop_spec flags : forall fuel i end_,
  0 <= i -> Z.of_nat fuel = end_ - i + 1 ->
  sliceAnyLoop fuel flags i end_ = true
  <-> exists k : nat, i <= Z.of_nat k <= end_ /\ flags !! k = Some true.
Proof.
  induction fuel as [|fuel IH]; intros i end_ Hi Hf; cbn [sliceAnyLoop].
  { split; [done|]. intros (k & Hk & _). lia. }
  destruct (Z.leb_spec i end_); [|lia].
  unfold idx. destruct (Z.ltb_spec i 0); [lia|].
  destruct (flags !! Z.to_nat i) as [[|]|] eqn:Hl; simpl.
  - split; [|done]. intros _. exists (Z.to_nat i). split; [lia|done].
  - rewrite IH by lia. split.
    + intros (k & Hk & Hv). exists k. split; [lia|done].
    + intros (k & Hk & Hv). exists k. split; [|done].
      destruct (decide (k = Z.to_nat i)) as [->|]; [congruence|lia].
  - rewrite IH by lia. split.
    + intros (k & Hk & Hv). exists k. split; [lia|done].
    + intros (k & Hk & Hv). exists k. split; [|done].
      destruct (decide (k = Z.to_nat i)) as [->|]; [congruence|lia].
Qed.

(** X16. [sliceAny] tells whether some flag with an index between [start]
    and [end] (0-based, inclusive) is set; indices outside the slice are
    never read and count as unset. *)
Theorem sliceAny_exists (flags : list bool) (start end_ : Z) :
  sliceAny flags start end_ = true
  <-> exists k : nat, start <= Z.of_nat k <= end_ /\ flags !! k = Some true.
Proof.
  unfold sliceAny.
  destruct (Z.eqb_spec (len flags) 0) as [H0|H0].
  { split; [done|]. intros (k & _ & Hk). apply lookup_lt_Some in Hk.
    unfold len in H0. lia. }
  assert (Hs0 : 0 <= max 0 start).
  { unfold max. rewrite Z.gtb_ltb. destruct (Z.ltb_spec start 0); lia. }
  destruct (Z.le_gt_cases (max 0 start) (min (len flags - 1) end_)) as [Hc|Hc].
  - rewrite sliceAnyLoop_spec by lia. split.
    + intros (k & Hk & Hv). exists k. split; [|done].
      revert Hk. unfold max, min. rewrite ?Z.gtb_ltb.
      repeat match goal with
      | |- context [(?a <? ?b)] => destruct (Z.ltb_spec a b)
      end; lia.
    + intros (k & Hk & Hv). exists k. split; [|done].
      apply lookup_lt_Some in Hv. unfold len.
      unfold max, min. rewrite ?Z.gtb_ltb.
      repeat match goal with
      | |- context [(?a <? ?b)] => destruct (Z.ltb_spec a b)
      end; unfold len in *; lia.
  - replace (Z.to_nat (min (len flags - 1) end_ - max 0 start + 1)) with O by lia.
    simpl. split; [done|]. intros (k & Hk & Hv).
    apply lookup_lt_Some in Hv. revert Hc. unfold len.
    unfold max, min. rewrite ?Z.gtb_ltb.
    repeat match goal with
    | |- context [(?a <? ?b)] => destruct (Z.ltb_spec a b)
    end; unfold len in *; lia.
Qed.

(** ** Rationale clean-up *)

Section UniqueStrings.

Variable TrimSpace : string -> string.

Lemma uniqueStringsStep_inv read st item :
  uniqueInv TrimSpace read st -> uniqueInv TrimSpace (read ++ [item]) (uniqueStringsStep TrimSpace st item).
Proof.
  destruct st as [seen out]. intros (Hnd & Hseen & Hmem & Hsub).
  unfold uniqueStringsStep. simpl in *.
  destruct (String.eqb_spec (TrimSpace item) "") as [He|He]; simpl.
  { unfold uniqueInv. simpl. rewrite fmap_app. simpl.
    split; [done|]. split; [done|]. split.
    - intros x. rewrite Hmem, elem_of_app, list_elem_of_singleton.
      split; [tauto|]. intros [Hx [H|H]]; [done|congruence].
    - by apply sublist_inserts_r. }
  destruct (default false (seen !! TrimSpace item)) eqn:Hs; simpl.
  { unfold uniqueInv. simpl. rewrite fmap_app. simpl.
    split; [done|]. split; [done|]. split.
    - intros x. rewrite Hmem, elem_of_app, list_elem_of_singleton.
      split; [tauto|]. intros [Hx [H|H]]; [done|]. subst x.
      apply Hmem, Hseen, Hs.
    - by apply sublist_inserts_r. }
  assert (Hnew : TrimSpace item ∉ out).
  { intros Hin. apply Hseen in Hin. congruence. }
  unfold uniqueInv. simpl. rewrite fmap_app. simpl.
  split; [|split; [|split]].
  - apply NoDup_app. split; [done|]. split; [|apply NoDup_singleton].
    intros x Hx Hx'. apply list_elem_of_singleton in Hx'. by subst.
  - intros x. rewrite elem_of_app, list_elem_of_singleton.
    destruct (decide (x = TrimSpace item)) as [->|Hne].
    + rewrite lookup_insert_eq. simpl. tauto.
    + rewrite lookup_insert_ne by done. rewrite Hseen. tauto.
  - intros x. rewrite !elem_of_app, !list_elem_of_singleton, Hmem.
    split; [intros [[? ?]| ->]; tauto|]. tauto.
  - by apply sublist_app.
Qed.

Lemma uniqueStrings_inv items : forall read st,
  uniqueInv TrimSpace read st ->
  uniqueInv TrimSpace (read ++ items) (fold_left (uniqueStringsStep TrimSpace) items st).
Proof.
  induction items as [|item items IH]; intros read st Hinv; simpl.
  - by rewrite app_nil_r.
  - replace (read ++ item :: items) with ((read ++ [item]) ++ items)
      by (by rewrite <- app_assoc).
    apply IH, uniqueStringsStep_inv, Hinv.
Qed.

(** X17. [uniqueStrings] returns the trimmed items without the empty ones
    and without repetitions: its result has no duplicates, holds exactly the
    non-empty trimmed items, and lists them in the order of the input. *)
Theorem uniqueStrings_distinct_trimmed (items : list string) :
  NoDup (uniqueStrings TrimSpace items)
  /\ (forall x, x ∈ uniqueStrings TrimSpace items
        <-> x <> "" /\ x ∈ TrimSpace <$> items)
  /\ uniqueStrings TrimSpace items `sublist_of` TrimSpace <$> items.
Proof.
  assert (H0 : uniqueInv TrimSpace [] (∅, [])).
  { unfold uniqueInv. simpl. split; [apply NoDup_nil_2|].
    split; [|split; [|done]].
    - intros x. rewrite lookup_empty. simpl. split; [done|]. by intros ?%elem_of_nil.
    - intros x. split; [by intros ?%elem_of_nil|]. by intros [_ ?%elem_of_nil]. }
  destruct (uniqueStrings_inv items [] _ H0) as (Hnd & _ & Hmem & Hsub).
  done.
Qed.

End UniqueStrings.

(** ** Sequence clean-up *)

Lemma removeChar_filter c s :
  list_ascii_of_string (removeChar c s)
  = List.filter (fun x => negb (Ascii.eqb x c)) (list_ascii_of_string s).
Proof.
  induction s as [|c' s IH]; [done|]. simpl.
  destruct (Ascii.eqb c' c); simpl; by rewrite IH.
Qed.

Lemma filter_filter_and {A} (p q : A -> bool) l :
  List.filter p (List.filter q l) = List.filter (fun x => q x && p x) l.
Proof.
  induction l as [|x l IH]; [done|]. simpl.
  destruct (q x); simpl; [destruct (p x)|]; by rewrite ?IH.
Qed.

(** X18. [sanitizeSequence] upper-cases the sequence and deletes every
    space, line feed, carriage return and tab: what is left are the other
    characters of the upper-cased sequence, all of them, in their order. *)
Theorem sanitizeSequence_strips_whitespace (ToUpper : string -> string) (sequence : string) :
  list_ascii_of_string (sanitizeSequence ToUpper sequence)
  = List.filter (fun c => negb (isStripped c)) (list_ascii_of_string (ToUpper sequence))
  /\ Forall (fun c => isStripped c = false)
       (list_ascii_of_string (sanitizeSequence ToUpper sequence))
  /\ (Forall (fun c => isStripped c = false) (list_ascii_of_string (ToUpper sequence)) ->
      sanitizeSequence ToUpper sequence = ToUpper sequence).
Proof.
  assert (Heq : list_ascii_of_string (sanitizeSequence ToUpper sequence)
    = List.filter (fun c => negb (isStripped c)) (list_ascii_of_string (ToUpper sequence))).
  { unfold sanitizeSequence. rewrite !removeChar_filter, !filter_filter_and.
    apply List.filter_ext. intros c. unfold isStripped.
    rewrite !negb_orb. by rewrite !andb_assoc. }
  split; [exact Heq|]. split.
  - rewrite Heq. apply List.Forall_forall. intros c Hc.
    apply List.filter_In in Hc as [_ Hc]. by apply negb_true_iff.
  - intros Hall.
    rewrite <- (string_of_list_ascii_of_string (sanitizeSequence ToUpper sequence)), Heq.
    rewrite <- (string_of_list_ascii_of_string (ToUpper sequence)) at 2.
    f_equal. clear Heq. induction Hall as [|c l Hc Hl IH]; [done|]. simpl.
    rewrite Hc. simpl. by rewrite IH.
Qed.

(** ** UniProt features *)

Section ExtractFeatures.

Variable ToUpper : string -> string.

Lemma ofKind_snoc labels read f :
  ofKind ToUpper labels (read ++ [f])
  = ofKind ToUpper labels read
    ++ (if located f && oneOf labels (ToUpper (f_Type f)) then [f] else []).
Proof. unfold ofKind. by rewrite List.filter_app. Qed.

Lemma extractFeaturesStep_inv read acc f :
  featuresInv ToUpper read acc -> featuresInv ToUpper (read ++ [f]) (extractFeaturesStep ToUpper acc f).
Proof.
  intros (Hd & Hh & Hs & Ha & Hp).
  unfold featuresInv. rewrite !ofKind_snoc, !map_app, <- Hd, <- Hh, <- Hs, <- Ha, <- Hp.
  clear Hd Hh Hs Ha Hp.
  unfold extractFeaturesStep, located, featureInfo, ptmLabels.
  destruct (featureRange (f_Location f)) as [start end_] eqn:Hr. simpl.
  destruct ((start =? 0) || (end_ =? 0)); simpl.
  { by rewrite !app_nil_r. }
  generalize (ToUpper (f_Type f)). intros ty.
  repeat match goal with
  | |- context [String.eqb ty ?label] =>
      destruct (String.eqb_spec ty label) as [->|?]; simpl
  end; by rewrite ?app_nil_r, ?Hr.
Qed.

Lemma extractFeatures_inv features : forall read acc,
  featuresInv ToUpper read acc ->
  featuresInv ToUpper (read ++ features) (fold_left (extractFeaturesStep ToUpper) features acc).
Proof.
  induction features as [|f features IH]; intros read acc Hinv; simpl.
  - by rewrite app_nil_r.
  - replace (read ++ f :: features) with ((read ++ [f]) ++ features)
      by (by rewrite <- app_assoc).
    apply IH, extractFeaturesStep_inv, Hinv.
Qed.

Lemma ofKind_located labels features :
  Forall (fun f => located f = true) (ofKind ToUpper labels features).
Proof.
  apply List.Forall_forall. intros f Hf.
  apply List.filter_In in Hf as [_ Hf]. by apply andb_true_iff in Hf as [Hf _].
Qed.

Lemma featureInfo_located (l : list uniProtFeature) :
  Forall (fun f => located f = true) l ->
  Forall (fun r => ri_Start r <> 0 /\ ri_End r <> 0 /\ ri_Source r = "UniProt")
    (map featureInfo l).
Proof.
  intros H. apply Forall_map. eapply Forall_impl; [exact H|].
  intros f Hf. unfold located in Hf. apply negb_true_iff, orb_false_iff in Hf as [H1 H2].
  apply Z.eqb_neq in H1, H2. done.
Qed.

(** X19. [extractFeatures] sorts the located features by their upper-cased
    type and keeps their order: domains, regions and repeats become the
    domain ranges, helices, strands and active sites their own ranges, and
    the six kinds of modification contribute their start position.  A
    feature without a position and without both a start and an end, or with a
    0 among them, is skipped; so every range has a start and an end
    other than 0 and the source "UniProt". *)
Theorem extractFeatures_by_kind (features : list uniProtFeature) :
  fs_domains (extractFeatures ToUpper features)
  = map featureInfo (ofKind ToUpper ["DOMAIN"; "REGION"; "REPEAT"] features)
  /\ fs_helixes (extractFeatures ToUpper features)
     = map featureInfo (ofKind ToUpper ["HELIX"] features)
  /\ fs_strands (extractFeatures ToUpper features)
     = map featureInfo (ofKind ToUpper ["STRAND"] features)
  /\ fs_activeSites (extractFeatures ToUpper features)
     = map featureInfo (ofKind ToUpper ["ACT_SITE"] features)
  /\ fs_ptmPositions (extractFeatures ToUpper features)
     = map (fun f => fst (featureRange (f_Location f))) (ofKind ToUpper ptmLabels features)
  /\ Forall (fun r => ri_Start r <> 0 /\ ri_End r <> 0 /\ ri_Source r = "UniProt")
       (fs_domains (extractFeatures ToUpper features)
        ++ fs_helixes (extractFeatures ToUpper features)
        ++ fs_strands (extractFeatures ToUpper features)
        ++ fs_activeSites (extractFeatures ToUpper features))
  /\ Forall (fun p => p <> 0) (fs_ptmPositions (extractFeatures ToUpper features)).
Proof.
  assert (H0 : featuresInv ToUpper [] (mkFeatureSets [] [] [] [] [])) by done.
  destruct (extractFeatures_inv features [] _ H0) as (Hd & Hh & Hs & Ha & Hp).
  simpl in *. fold (extractFeatures ToUpper features) in *.
  do 5 (split; [done|]).
  rewrite Hd, Hh, Hs, Ha, Hp. split.
  - rewrite !Forall_app. repeat split; apply featureInfo_located, ofKind_located.
  - apply Forall_map. eapply Forall_impl; [apply ofKind_located|].
    intros f Hf. unfold located in Hf.
    apply negb_true_iff, orb_false_iff in Hf as [H1 _]. by apply Z.eqb_neq in H1.
Qed.

End ExtractFeatures.

(** ** The pLDDT values of a PDB file *)

Section ParsePLDDT.

Variable TrimSpace : string -> string.
Variable Atoi : string -> option Z.
Variable ParseFloat : string -> option float.

Lemma parsePLDDT_loop lines : forall plddt lastRes,
  fst (fold_left (parsePLDDTStep TrimSpace Atoi ParseFloat) lines (plddt, lastRes))
  = plddt ++ omap snd (firstOfRuns lastRes (caAtoms TrimSpace Atoi ParseFloat lines)).
Proof.
  induction lines as [|line lines IH]; intros plddt lastRes; simpl.
  { by rewrite app_nil_r. }
  unfold caLine.
  destruct (String.prefix "ATOM" line); simpl; [|apply IH].
  destruct (String.length line <? 66)%nat; simpl; [apply IH|].
  destruct (String.eqb (TrimSpace (substring 12 4 line)) "CA"); simpl; [|apply IH].
  destruct (Atoi (TrimSpace (substring 22 4 line))) as [resSeq|]; simpl; [|apply IH].
  destruct (resSeq =? lastRes); [apply IH|].
  destruct (ParseFloat (TrimSpace (substring 60 6 line))) as [bFactor|]; simpl.
  - rewrite IH. by rewrite <- app_assoc.
  - apply IH.
Qed.

Lemma omap_length_le {A B} (f : A -> option B) (l : list A) :
  (length (omap f l) <= length l)%nat.
Proof.
  induction l as [|x l IH]; csimpl; [lia|]. destruct (f x); csimpl; lia.
Qed.

Lemma firstOfRuns_length {A} (atoms : list (Z * A)) : forall last,
  (length (firstOfRuns last atoms) <= length atoms)%nat.
Proof.
  induction atoms as [|[r x] atoms IH]; intros last; simpl; [lia|].
  destruct (r =? last); simpl; [specialize (IH last)|specialize (IH r)]; lia.
Qed.

Lemma caAtoms_length lines :
  (length (caAtoms TrimSpace Atoi ParseFloat lines)
   <= length (List.filter (caLine TrimSpace) lines))%nat.
Proof.
  induction lines as [|line lines IH]; simpl; [lia|].
  destruct (caLine TrimSpace line); simpl; [|lia].
  destruct (Atoi _); simpl; lia.
Qed.

(** X20. [parsePLDDTFromPDB] returns one value per residue: the B-factor of
    the first C-alpha atom of every run of C-alpha atoms with the same
    residue number, the number before the first atom counting as -1; a
    residue whose first C-alpha atom has no readable B-factor is left out
    even if a later atom of the residue has one.  It fails, with an empty
    slice, exactly when no value is found, and never returns more values
    than the file has C-alpha lines. *)
Theorem parsePLDDTFromPDB_first_atom_of_each_residue (body : list byte) :
  fst (parsePLDDTFromPDB TrimSpace Atoi ParseFloat body)
  = omap snd (firstOfRuns (-1)
      (caAtoms TrimSpace Atoi ParseFloat (splitOn "010" (string_of_list_byte body))))
  /\ snd (parsePLDDTFromPDB TrimSpace Atoi ParseFloat body)
     = (if len (fst (parsePLDDTFromPDB TrimSpace Atoi ParseFloat body)) =? 0
        then Some "no CA atoms found for pLDDT extraction" else None)
  /\ (length (fst (parsePLDDTFromPDB TrimSpace Atoi ParseFloat body))
      <= length (List.filter (caLine TrimSpace)
                   (splitOn "010" (string_of_list_byte body))))%nat.
Proof.
  assert (Hfst : fst (parsePLDDTFromPDB TrimSpace Atoi ParseFloat body)
    = omap snd (firstOfRuns (-1)
        (caAtoms TrimSpace Atoi ParseFloat (splitOn "010" (string_of_list_byte body))))).
  { unfold parsePLDDTFromPDB.
    pose proof (parsePLDDT_loop (splitOn "010" (string_of_list_byte body)) [] (-1)) as H.
    destruct (fold_left _ _ _) as [plddt lastRes]. simpl in H. subst plddt.
    destruct (Z.eqb_spec (len (omap snd (firstOfRuns (-1)
      (caAtoms TrimSpace Atoi ParseFloat (splitOn "010" (string_of_list_byte body)))))) 0)
      as [H0|H0]; [|done].
    simpl. destruct (omap snd _); [done|]. unfold len in H0. simpl in H0. lia. }
  split; [exact Hfst|]. split.
  - unfold parsePLDDTFromPDB.
    destruct (fold_left _ _ _) as [plddt lastRes].
    destruct (Z.eqb_spec (len plddt) 0) as [H0|H0]; simpl; [done|].
    by destruct (Z.eqb_spec (len plddt) 0).
  - rewrite Hfst. etrans; [apply omap_length_le|].
    etrans; [apply firstOfRuns_length|]. apply caAtoms_length.
Qed.

End ParsePLDDT.

(** ** PDB ranges *)

Lemma fold_left_appending {A B} (step : list B -> A -> list B) (f : A -> list B) :
  (forall acc x, step acc x = acc ++ f x) ->
  forall l acc, fold_left step l acc = acc ++ flat_map f l.
Proof.
  intros Hstep. induction l as [|x l IH]; intros acc; simpl.
  - by rewrite app_nil_r.
  - by rewrite IH, Hstep, <- app_assoc.
Qed.

Lemma splitOn_nonempty sep s : splitOn sep s <> [].
Proof.
  destruct s as [|c s]; simpl; [done|].
  destruct (Ascii.eqb c sep); [done|]. by destruct (splitOn sep s).
Qed.

(** The pieces of a string without [c] are without [c]. *)
Lemma splitOn_hasChar c sep s :
  hasChar c s = false -> Forall (fun p => hasChar c p = false) (splitOn sep s).
Proof.
  induction s as [|c' s IH]; simpl; [by constructor|].
  intros [Hc Hs]%orb_false_iff. specialize (IH Hs).
  destruct (Ascii.eqb c' sep).
  - by constructor.
  - destruct (splitOn sep s) as [|piece rest]; [by constructor; [simpl; rewrite Hc|]|].
    inversion IH; subst. constructor; [|done]. simpl. by rewrite Hc.
Qed.

(** A string without the separator is its own single piece. *)
Lemma splitOn_single sep s : hasChar sep s = false -> splitOn sep s = [s].
Proof.
  induction s as [|c s IH]; simpl; [done|].
  intros [Hc Hs]%orb_false_iff. rewrite Hc, IH; done.
Qed.

(** The pieces hold no separator. *)
Lemma splitOn_pieces sep s : Forall (fun p => hasChar sep p = false) (splitOn sep s).
Proof.
  induction s as [|c s IH]; simpl; [by constructor|].
  destruct (Ascii.eqb c sep) eqn:Hc.
  - by constructor.
  - destruct (splitOn sep s) as [|piece rest]; [by constructor; [simpl; rewrite Hc|]|].
    inversion IH; subst. constructor; [|done]. simpl. by rewrite Hc.
Qed.

Section ExtractPDBRanges.

Variable ToUpper TrimSpace : string -> string.
Variable Atoi : string -> option Z.

Lemma spanStep_app ref method resolution ranges span :
  spanStep TrimSpace Atoi ref method resolution ranges span
  = ranges ++ spanRanges TrimSpace Atoi ref method resolution span.
Proof.
  unfold spanRanges, spanStep.
  destruct (String.eqb (TrimSpace span) ""); [by rewrite app_nil_r|].
  destruct (splitOn "-" (TrimSpace span)) as [|a [|b [|c rest]]];
    rewrite ?app_nil_r; try done.
  destruct (Atoi (TrimSpace a)), (Atoi (TrimSpace b)); by rewrite ?app_nil_r.
Qed.

Lemma chainStep_app ref method resolution ranges chainPart :
  chainStep TrimSpace Atoi ref method resolution ranges chainPart
  = ranges ++ chainRanges TrimSpace Atoi ref method resolution chainPart.
Proof.
  unfold chainRanges, chainStep.
  destruct (String.eqb (TrimSpace chainPart) ""); [by rewrite app_nil_r|].
  destruct (splitOn "=" (TrimSpace chainPart)) as [|a [|b [|c rest]]];
    rewrite ?app_nil_r; try done.
  rewrite !(fold_left_appending _ _ (spanStep_app ref method resolution)). done.
Qed.

Lemma crossRefStep_app ranges ref :
  crossRefStep ToUpper TrimSpace Atoi ranges ref = ranges ++ crossRefRanges ToUpper TrimSpace Atoi ref.
Proof.
  unfold crossRefRanges, crossRefStep.
  destruct (String.eqb (ToUpper (x_Database ref)) "PDB"); simpl;
    [|by rewrite app_nil_r].
  rewrite !(fold_left_appending _ _ (chainStep_app ref _ _)). done.
Qed.

Lemma extractPDBRanges_flat_map crossRefs :
  extractPDBRanges ToUpper TrimSpace Atoi crossRefs
  = flat_map (crossRefRanges ToUpper TrimSpace Atoi) crossRefs.
Proof.
  unfold extractPDBRanges.
  by rewrite (fold_left_appending _ (crossRefRanges ToUpper TrimSpace Atoi) crossRefStep_app).
Qed.

Hypothesis TrimSpace_comma :
  forall s, hasChar "," s = false -> hasChar "," (TrimSpace s) = false.

(** A chain part yields at most one range: the range it spells. *)
Lemma chainRanges_spans ref method resolution part :
  hasChar "," part = false ->
  forall r, r ∈ chainRanges TrimSpace Atoi ref method resolution part
    <-> spansAs TrimSpace Atoi part (pdb_Start r) (pdb_End r)
        /\ pdb_ID r = x_ID ref /\ pdb_Method r = method
        /\ pdb_Resolution r = resolution.
Proof.
  intros Hpart r. unfold chainRanges, chainStep, spansAs.
  apply TrimSpace_comma in Hpart.
  pose proof (splitOn_hasChar "," "=" _ Hpart) as Hpieces.
  destruct (String.eqb_spec (TrimSpace part) "") as [He|He].
  { rewrite He. simpl. split; [by intros ?%elem_of_nil|].
    intros ((chains & span & a & b & Hs & _) & _). done. }
  destruct (splitOn "=" (TrimSpace part)) as [|chains [|span [|c rest]]].
  - split; [by intros ?%elem_of_nil|]. intros ((? & ? & ? & ? & Hs & _) & _). done.
  - split; [by intros ?%elem_of_nil|]. intros ((? & ? & ? & ? & Hs & _) & _). done.
  - inversion Hpieces as [|? ? _ Hrest]; subst.
    inversion Hrest as [|? ? Hspan _]; subst.
    rewrite (splitOn_single "," span Hspan). simpl.
    unfold spanStep.
    destruct (String.eqb_spec (TrimSpace span) "") as [Hse|Hse].
    { split; [by intros ?%elem_of_nil|].
      intros ((? & span' & a & b & [= _ <-] & Hd & _) & _).
      rewrite Hse in Hd. done. }
    destruct (splitOn "-" (TrimSpace span)) as [|a [|b [|c rest]]] eqn:Hd.
    + split; [by intros ?%elem_of_nil|].
      intros ((? & span' & ? & ? & [= _ <-] & Hd' & _) & _). congruence.
    + split; [by intros ?%elem_of_nil|].
      intros ((? & span' & ? & ? & [= _ <-] & Hd' & _) & _). congruence.
    + destruct (Atoi (TrimSpace a)) as [start|] eqn:Ha;
        [destruct (Atoi (TrimSpace b)) as [end_|] eqn:Hb|].
      * simpl. rewrite list_elem_of_singleton. split.
        -- intros ->. simpl. split; [|done]. by exists chains, span, a, b.
        -- intros ((? & span' & a' & b' & [= _ <-] & Hd' & Ha' & Hb') & Hid & Hm & Hr).
           rewrite Hd in Hd'. injection Hd' as <- <-.
           destruct r as [id s e m res]. simpl in *. congruence.
      * split; [by intros ?%elem_of_nil|].
        intros ((? & span' & a' & b' & [= _ <-] & Hd' & Ha' & Hb') & _).
        rewrite Hd in Hd'. injection Hd' as <- <-. congruence.
      * split; [by intros ?%elem_of_nil|].
        intros ((? & span' & a' & b' & [= _ <-] & Hd' & Ha' & Hb') & _).
        rewrite Hd in Hd'. injection Hd' as <- <-. congruence.
    + split; [by intros ?%elem_of_nil|].
      intros ((? & span' & ? & ? & [= _ <-] & Hd' & _) & _). congruence.
  - split; [by intros ?%elem_of_nil|]. intros ((? & ? & ? & ? & Hs & _) & _). done.
Qed.

Lemma chainRanges_length ref method resolution part :
  hasChar "," part = false ->
  (length (chainRanges TrimSpace Atoi ref method resolution part) <= 1)%nat.
Proof.
  intros Hpart. unfold chainRanges, chainStep.
  apply TrimSpace_comma in Hpart.
  pose proof (splitOn_hasChar "," "=" _ Hpart) as Hpieces.
  destruct (String.eqb (TrimSpace part) ""); [simpl; lia|].
  destruct (splitOn "=" (TrimSpace part)) as [|chains [|span [|c rest]]];
    try (simpl; lia).
  inversion Hpieces as [|? ? _ Hrest]; subst.
  inversion Hrest as [|? ? Hspan _]; subst.
  rewrite (splitOn_single "," span Hspan). simpl.
  unfold spanStep.
  destruct (String.eqb (TrimSpace span) ""); [simpl; lia|].
  destruct (splitOn "-" (TrimSpace span)) as [|a [|b [|c rest]]]; try (simpl; lia).
  destruct (Atoi (TrimSpace a)), (Atoi (TrimSpace b)); simpl; lia.
Qed.

Lemma crossRefRanges_chains ref :
  crossRefRanges ToUpper TrimSpace Atoi ref
  = if isPDB ToUpper ref
    then flat_map (chainRanges TrimSpace Atoi ref (property (x_Properties ref) "Method")
                     (property (x_Properties ref) "Resolution"))
           (chainParts ref)
    else [].
Proof.
  unfold crossRefRanges, crossRefStep, isPDB, chainParts.
  destruct (String.eqb (ToUpper (x_Database ref)) "PDB"); simpl; [|done].
  by rewrite (fold_left_appending _ _ (chainStep_app ref _ _)).
Qed.

Lemma flat_map_length_bound {A B} (f : A -> list B) (l : list A) (P : A -> Prop) :
  Forall P l -> (forall x, P x -> (length (f x) <= 1)%nat) ->
  (length (flat_map f l) <= length l)%nat.
Proof.
  intros Hl Hf. induction Hl as [|x l Hx Hl IH]; simpl; [lia|].
  rewrite length_app. specialize (Hf x Hx). lia.
Qed.

(** X21. [extractPDBRanges] reads one range from each part of the
    comma-separated [Chains] property of each cross-reference to the PDB
    database (named in any letter case): a part of the form
    [chains=start-end] gives the range from [start] to [end] with the
    identifier, method and resolution of its cross-reference, any other
    part gives nothing.  As a part holds no comma, the inner split of its
    spans at commas never finds a second span. *)
Theorem extractPDBRanges_one_range_per_chain_part (crossRefs : list uniProtCrossRef) :
  (forall r,
     r ∈ extractPDBRanges ToUpper TrimSpace Atoi crossRefs
     <-> exists ref part,
           ref ∈ crossRefs /\ ToUpper (x_Database ref) = "PDB"
           /\ part ∈ chainParts ref
           /\ spansAs TrimSpace Atoi part (pdb_Start r) (pdb_End r)
           /\ pdb_ID r = x_ID ref
           /\ pdb_Method r = property (x_Properties ref) "Method"
           /\ pdb_Resolution r = property (x_Properties ref) "Resolution")
  /\ (length (extractPDBRanges ToUpper TrimSpace Atoi crossRefs)
      <= length (flat_map chainParts (List.filter (isPDB ToUpper) crossRefs)))%nat.
Proof.
  rewrite extractPDBRanges_flat_map. split.
  - intros r. rewrite list_elem_of_In, in_flat_map. split.
    + intros (ref & Href & Hr). exists ref.
      rewrite crossRefRanges_chains in Hr. unfold isPDB in Hr.
      destruct (String.eqb_spec (ToUpper (x_Database ref)) "PDB") as [Hdb|]; [|done].
      apply in_flat_map in Hr as (part & Hpart & Hr).
      exists part. apply list_elem_of_In in Href, Hpart, Hr.
      assert (Hc : hasChar "," part = false).
      { pose proof (splitOn_pieces "," (property (x_Properties ref) "Chains")) as Hp.
        rewrite Forall_forall in Hp. by apply Hp. }
      apply (chainRanges_spans _ _ _ _ Hc) in Hr. tauto.
    + intros (ref & part & Href & Hdb & Hpart & Hspan & Hid & Hm & Hres).
      exists ref. split; [by apply list_elem_of_In|].
      rewrite crossRefRanges_chains. unfold isPDB. rewrite Hdb. simpl.
      apply in_flat_map. exists part. split; [by apply list_elem_of_In|].
      apply list_elem_of_In.
      assert (Hc : hasChar "," part = false).
      { pose proof (splitOn_pieces "," (property (x_Properties ref) "Chains")) as Hp.
        rewrite Forall_forall in Hp. by apply Hp. }
      apply (chainRanges_spans _ _ _ _ Hc). tauto.
  - induction crossRefs as [|ref crossRefs IH]; simpl; [lia|].
    rewrite length_app, crossRefRanges_chains.
    destruct (isPDB ToUpper ref); simpl; [|lia].
    rewrite length_app.
    enough (length (flat_map (chainRanges TrimSpace Atoi ref
                      (property (x_Properties ref) "Method")
                      (property (x_Properties ref) "Resolution")) (chainParts ref))
            <= length (chainParts ref))%nat by lia.
    apply (flat_map_length_bound _ _ (fun p => hasChar "," p = false)).
    + apply splitOn_pieces.
    + intros part Hc. by apply chainRanges_length.
Qed.

End ExtractPDBRanges.

(** The cross-reference of a crystal structure of residues 1 to 393 and
    one to another database. *)
Lemma extractPDBRanges_one_range_per_chain_part_witness :
  (forall r,
     r ∈ extractPDBRanges (fun s => s) (fun s => s) decimal
           [mkCrossRef "PDB" "1TUP" {[ "Chains" := "A/B/C=94-312,D" ]};
            mkCrossRef "PDBsum" "1TUP" ∅]
     <-> exists ref part,
           ref ∈ [mkCrossRef "PDB" "1TUP" {[ "Chains" := "A/B/C=94-312,D" ]};
                  mkCrossRef "PDBsum" "1TUP" ∅]
           /\ x_Database ref = "PDB"
           /\ part ∈ chainParts ref
           /\ spansAs (fun s => s) decimal part (pdb_Start r) (pdb_End r)
           /\ pdb_ID r = x_ID ref
           /\ pdb_Method r = property (x_Properties ref) "Method"
           /\ pdb_Resolution r = property (x_Properties ref) "Resolution")
  /\ (length (extractPDBRanges (fun s => s) (fun s => s) decimal
                [mkCrossRef "PDB" "1TUP" {[ "Chains" := "A/B/C=94-312,D" ]};
                 mkCrossRef "PDBsum" "1TUP" ∅])
      <= 2)%nat.
Proof.
  apply (extractPDBRanges_one_range_per_chain_part (fun s => s) (fun s => s) decimal).
  intros s Hs. exact Hs.
Defined.

(** ** Properties of a cross-reference *)

Lemma propertyEntries_lookup entries : forall values key,
  fold_left propertyEntryStep entries values !! key
  = if String.eqb key "" then values !! key
    else match lastEntry key entries with
         | Some entry => Some (property entry "value")
         | None => values !! key
         end.
Proof.
  unfold lastEntry.
  induction entries as [|entry entries IH]; intros values key; simpl.
  { by destruct (String.eqb key ""). }
  rewrite IH. destruct (String.eqb_spec key "") as [->|Hkey].
  - unfold propertyEntryStep. fold (entryKey entry).
    destruct (String.eqb_spec (entryKey entry) "") as [|Hne]; [done|].
    by rewrite lookup_insert_ne.
  - destruct (String.eqb_spec (entryKey entry) key) as [Hk|Hk].
    + rewrite last_cons.
      destruct (last (List.filter _ entries)) as [e|]; [done|].
      unfold propertyEntryStep. fold (entryKey entry). rewrite Hk.
      destruct (String.eqb_spec key ""); [done|]. by rewrite lookup_insert_eq.
    + destruct (last (List.filter _ entries)) as [e|]; [done|].
      unfold propertyEntryStep. fold (entryKey entry).
      destruct (String.eqb (entryKey entry) ""); [done|].
      by rewrite lookup_insert_ne.
Qed.

(** X22. The array form of the properties of a cross-reference,
    [[{"key": k, "value": v}, ...]], is decoded to the map that gives for
    each name the value of the last entry stored under it, an entry being
    stored under its "key" or, without one, under its "property";
    entries with neither are dropped, so the empty name is never bound.
    What the receiver held before is discarded. *)
Theorem propertyMap_array_last_entry_wins
    (jsonObject : list byte -> gmap string string + string)
    (jsonEntries : list byte -> list (gmap string string) + string)
    (p : gmap string string) (data : list byte) (entries : list (gmap string string)) :
  head data = Some ("["%byte) ->
  jsonEntries data = inl entries ->
  snd (propertyMap_UnmarshalJSON jsonObject jsonEntries p data) = None
  /\ fst (propertyMap_UnmarshalJSON jsonObject jsonEntries p data) !! "" = None
  /\ forall key, key <> "" ->
       fst (propertyMap_UnmarshalJSON jsonObject jsonEntries p data) !! key
       = (fun entry => property entry "value") <$> lastEntry key entries.
Proof.
  intros Hhead Hdec. unfold propertyMap_UnmarshalJSON.
  destruct data as [|b data]; [done|]. injection Hhead as ->.
  replace (len ("["%byte :: data) =? 0) with false
    by (symmetry; apply Z.eqb_neq; unfold len; simpl; lia).
  simpl. rewrite Hdec. simpl.
  split; [done|]. split.
  - rewrite propertyEntries_lookup. simpl. apply lookup_empty.
  - intros key Hkey. rewrite propertyEntries_lookup.
    destruct (String.eqb_spec key ""); [done|].
    destruct (lastEntry key entries); [done|]. apply lookup_empty.
Qed.

(** The properties of a crystal structure, with the method given twice and
    the chains under "property". *)
Lemma propertyMap_array_last_entry_wins_witness :
  snd (propertyMap_UnmarshalJSON (fun _ => inr "not an object")
         (fun _ => inl [ {[ "key" := "Method"; "value" := "NMR" ]};
                         {[ "property" := "Chains"; "value" := "A=1-9" ]};
                         {[ "value" := "dropped" ]};
                         {[ "key" := "Method"; "value" := "X-ray" ]} ])
         {[ "Resolution" := "2.0 A" ]} ["["%byte; "]"%byte]) = None
  /\ fst (propertyMap_UnmarshalJSON (fun _ => inr "not an object")
            (fun _ => inl [ {[ "key" := "Method"; "value" := "NMR" ]};
                            {[ "property" := "Chains"; "value" := "A=1-9" ]};
                            {[ "value" := "dropped" ]};
                            {[ "key" := "Method"; "value" := "X-ray" ]} ])
            {[ "Resolution" := "2.0 A" ]} ["["%byte; "]"%byte]) !! "" = None
  /\ forall key, key <> "" ->
       fst (propertyMap_UnmarshalJSON (fun _ => inr "not an object")
              (fun _ => inl [ {[ "key" := "Method"; "value" := "NMR" ]};
                              {[ "property" := "Chains"; "value" := "A=1-9" ]};
                              {[ "value" := "dropped" ]};
                              {[ "key" := "Method"; "value" := "X-ray" ]} ])
              {[ "Resolution" := "2.0 A" ]} ["["%byte; "]"%byte]) !! key
       = (fun entry => property entry "value")
           <$> lastEntry key [ {[ "key" := "Method"; "value" := "NMR" ]};
                               {[ "property" := "Chains"; "value" := "A=1-9" ]};
                               {[ "value" := "dropped" ]};
                               {[ "key" := "Method"; "value" := "X-ray" ]} ].
Proof.
  apply (propertyMap_array_last_entry_wins (fun _ => inr "not an object")
           (fun _ => inl [ {[ "key" := "Method"; "value" := "NMR" ]};
                           {[ "property" := "Chains"; "value" := "A=1-9" ]};
                           {[ "value" := "dropped" ]};
                           {[ "key" := "Method"; "value" := "X-ray" ]} ])
           {[ "Resolution" := "2.0 A" ]} ["["%byte; "]"%byte]).
  - reflexivity.
  - reflexivity.
Defined.

(** ** The resolvers *)

Lemma fetchWithCache_frame ToLower Join Dir marshal unmarshal fs now cacheDir ns key fetch p :
  p <> cacheFilePath ToLower Join cacheDir ns key ->
  fs_files (fo_fs (fetchWithCache ToLower Join Dir marshal unmarshal
                     fs now cacheDir ns key fetch)) !! p
  = fs_files fs !! p.
Proof.
  intros Hp. unfold fetchWithCache.
  destruct (readCache unmarshal fs now _) as [cached [|]]; simpl; [done|].
  destruct (fetch now) as [[payload [e|]] now']; simpl; [done|].
  pose proof (writeCache_frame Dir marshal fs now' _ payload p Hp) as Hframe.
  destruct (writeCache Dir marshal fs now' _ payload) as [fs' werr]. done.
Qed.

Lemma cached_frame L fs now cacheDir ns key fetch p :
  outsideCache L cacheDir p ->
  fs_files (fo_fs (cached L fs now cacheDir ns key fetch)) !! p = fs_files fs !! p.
Proof. intros Hp. apply fetchWithCache_frame, Hp. Qed.

Lemma decodeUniProtEntry_cases L body entry err :
  decodeUniProtEntry L body = (entry, err) ->
  match err with
  | None => e_SequenceValue entry <> ""
  | Some _ => entry = emptyEntry
  end.
Proof.
  unfold decodeUniProtEntry.
  destruct (normalizeJSON L body) as [normalized [e|]]; [by intros [= <- <-]|].
  destruct (lib_jsonEntry L normalized) as [decoded|e]; [|by intros [= <- <-]].
  destruct (String.eqb_spec (e_SequenceValue decoded) ""); by intros [= <- <-].
Qed.

Lemma extractFirstAccession_ok L body accession :
  extractFirstAccession L body = (accession, None) -> accession <> "".
Proof.
  unfold extractFirstAccession.
  destruct (normalizeJSON L body) as [normalized [e|]]; [done|].
  destruct (lib_jsonSearch L normalized) as [[|first rest]|e]; [done| |done].
  destruct (String.eqb_spec first ""); [done|]. by intros [= <-].
Qed.

(** X23. [fetchUniProtEntry] looks the identifier up directly and falls
    back to a search.  It returns an entry with a non-empty sequence or an
    error with the empty entry.  When the direct lookup succeeds nothing
    else is requested and there is no warning.  When the search fails too,
    the error returned is that of the direct lookup.  The only warning is
    the one naming the accession the search resolved the identifier to.
    No file outside the cache records is changed. *)
Theorem fetchUniProtEntry_fallback (L : library) (fs : fileSystem) (now : Z)
    (cacheDir identifier : string) :
  let r := fetchUniProtEntry L fs now cacheDir identifier in
  let o1 := entryLookup L fs now cacheDir identifier in
  let o2 := searchLookup L (fo_fs o1) (fo_now o1) cacheDir identifier in
  (rs_err r = None -> e_SequenceValue (rs_value r) <> "")
  /\ (rs_err r <> None -> rs_value r = emptyEntry)
  /\ (snd (fo_result o1) = None ->
      (rs_value r, rs_err r) = decodeUniProtEntry L (fst (fo_result o1))
      /\ rs_warnings r = [] /\ rs_fs r = fo_fs o1 /\ rs_now r = fo_now o1)
  /\ (snd (fo_result o1) <> None -> snd (fo_result o2) <> None ->
      rs_err r = snd (fo_result o1) /\ rs_warnings r = []
      /\ rs_fs r = fo_fs o2 /\ rs_now r = fo_now o2)
  /\ (rs_warnings r <> [] ->
      exists accession,
        accession <> ""
        /\ snd (fo_result o1) <> None
        /\ extractFirstAccession L (fst (fo_result o2)) = (accession, None)
        /\ rs_warnings r
           = ["resolved " +:+ lib_quote L identifier
              +:+ " to UniProt accession " +:+ accession])
  /\ (forall p, outsideCache L cacheDir p ->
        fs_files (rs_fs r) !! p = fs_files fs !! p).
Proof.
  intros r o1 o2. subst r. unfold fetchUniProtEntry. fold o1. fold o2.
  assert (F1 : forall p, outsideCache L cacheDir p ->
                 fs_files (fo_fs o1) !! p = fs_files fs !! p).
  { intros p Hp. by apply cached_frame. }
  assert (F2 : forall p, outsideCache L cacheDir p ->
                 fs_files (fo_fs o2) !! p = fs_files fs !! p).
  { intros p Hp. unfold o2, searchLookup. rewrite cached_frame by done. by apply F1. }
  destruct (fo_result o1) as [body [e1|]]; simpl.
  - destruct (fo_result o2) as [searchBody [e2|]]; simpl.
    { repeat split; try done. }
    destruct (extractFirstAccession L searchBody) as [accession [e3|]] eqn:Hacc; simpl.
    { repeat split; try done. }
    set (o3 := entryLookup L (fo_fs o2) (fo_now o2) cacheDir accession).
    assert (F3 : forall p, outsideCache L cacheDir p ->
                   fs_files (fo_fs o3) !! p = fs_files fs !! p).
    { intros p Hp. unfold o3, entryLookup. rewrite cached_frame by done. by apply F2. }
    destruct (fo_result o3) as [entryBody [e4|]]; simpl.
    + repeat split; try done.
      intros _. exists accession. repeat split; try done.
      by apply extractFirstAccession_ok in Hacc.
    + destruct (decodeUniProtEntry L entryBody) as [entry err] eqn:Hdec.
      apply decodeUniProtEntry_cases in Hdec. simpl.
      repeat split; try done.
      * intros ->. done.
      * intros He. by destruct err.
      * intros _. exists accession. repeat split; try done.
        by apply extractFirstAccession_ok in Hacc.
  - destruct (decodeUniProtEntry L body) as [entry err] eqn:Hdec.
    apply decodeUniProtEntry_cases in Hdec. simpl.
    repeat split; try done.
    + intros ->. done.
    + intros He. by destruct err.
Qed.

Lemma parsePLDDTFromPDB_ok TrimSpace Atoi ParseFloat body plddt :
  parsePLDDTFromPDB TrimSpace Atoi ParseFloat body = (plddt, None) -> plddt <> [].
Proof.
  unfold parsePLDDTFromPDB.
  destruct (fold_left _ _ _) as [values lastRes].
  destruct (Z.eqb_spec (len values) 0) as [H0|H0]; [done|].
  intros [= <-]. by destruct values.
Qed.

(** The case of a decoded answer in the proof below: the hypotheses name
    the answer the function has already taken apart. *)
Ltac array_case Hp :=
  repeat match goal with
  | H : (_, _) = (_, None) |- _ => injection H as <-
  | H : _ = inl (_ :: _) |- _ =>
      rewrite Hp in H; first [discriminate H | injection H as <- <-]
  end;
  try congruence.

(** X24. [fetchAlphaFoldPLDDT] prefers the pLDDT array of the first
    prediction and downloads the model file only when that array is empty
    and a URL is given.  Without an error it returns a non-empty profile and
    no warning, or no profile and the warning that the model lacks both;
    with an error it returns neither profile nor warning, and a failed
    lookup is reported as "alphafold lookup failed: ...".  No file outside
    the cache records is changed. *)
Theorem fetchAlphaFoldPLDDT_outcome (L : library) (fs : fileSystem) (now : Z)
    (cacheDir accession : string) :
  let r := fetchAlphaFoldPLDDT L fs now cacheDir accession in
  let o1 := predictionLookup L fs now cacheDir accession in
  (rs_err r = None ->
     (rs_value r <> [] /\ rs_warnings r = [])
     \/ (rs_value r = []
         /\ rs_warnings r = ["AlphaFold model lacks pLDDT array and pdbUrl"]))
  /\ (rs_err r <> None -> rs_value r = [] /\ rs_warnings r = [])
  /\ (forall e, snd (fo_result o1) = Some e ->
        rs_err r = Some ("alphafold lookup failed: " +:+ e))
  /\ (forall normalized first rest,
        snd (fo_result o1) = None ->
        normalizeJSON L (fst (fo_result o1)) = (normalized, None) ->
        lib_jsonPredictions L normalized = inl (first :: rest) ->
        af_Plddt first <> [] ->
        rs_value r = af_Plddt first /\ rs_err r = None
        /\ rs_fs r = fo_fs o1 /\ rs_now r = fo_now o1)
  /\ (forall p, outsideCache L cacheDir p ->
        fs_files (rs_fs r) !! p = fs_files fs !! p).
Proof.
  intros r o1. subst r. unfold fetchAlphaFoldPLDDT. fold o1.
  assert (F1 : forall p, outsideCache L cacheDir p ->
                 fs_files (fo_fs o1) !! p = fs_files fs !! p).
  { intros p Hp. by apply cached_frame. }
  destruct (fo_result o1) as [body [e1|]]; simpl.
  { repeat split; try done. congruence. }
  destruct (normalizeJSON L body) as [normalized [e2|]] eqn:Hn; simpl.
  { repeat split; try done. }
  destruct (lib_jsonPredictions L normalized) as [[|first rest]|e3] eqn:Hp; simpl;
    [| |by repeat split; try done; array_case Hp].
  { by repeat split; try done; array_case Hp. }
  rewrite Z.gtb_ltb.
  destruct (Z.ltb_spec 0 (len (af_Plddt first))) as [Hlen|Hlen]; simpl.
  { assert (af_Plddt first <> []).
    { destruct (af_Plddt first); [unfold len in Hlen; simpl in Hlen; lia|done]. }
    by repeat split; try done; try (by left); array_case Hp. }
  assert (Hnil : af_Plddt first = []).
  { destruct (af_Plddt first); [done|]. unfold len in Hlen. simpl in Hlen. lia. }
  destruct (String.eqb (af_PdbURL first) ""); simpl.
  { by repeat split; try done; try (by right); array_case Hp. }
  set (o2 := modelLookup L (fo_fs o1) (fo_now o1) cacheDir accession (af_PdbURL first)).
  assert (F2 : forall p, outsideCache L cacheDir p ->
                 fs_files (fo_fs o2) !! p = fs_files fs !! p).
  { intros p Hq. unfold o2, modelLookup. rewrite cached_frame by done. by apply F1. }
  destruct (fo_result o2) as [pdbBody [e4|]]; simpl.
  { by repeat split; try done; array_case Hp. }
  destruct (parsePLDDTFromPDB _ _ _ pdbBody) as [plddt [e5|]] eqn:Hparse; simpl.
  { by repeat split; try done; array_case Hp. }
  apply parsePLDDTFromPDB_ok in Hparse.
  by repeat split; try done; try (by left); array_case Hp.
Qed.

(** ** The region flag and the candidates *)

Lemma addCandidate_extends minLength maxLength st start end_ source name pdbID :
  exists more,
    fst (addCandidate minLength maxLength st start end_ source name pdbID)
    = fst st ++ more.
Proof.
  destruct (addCandidate_fst minLength maxLength st start end_ source name pdbID)
    as [->|[_ ->]]; [exists []; by rewrite app_nil_r|by eexists].
Qed.

Lemma fold_left_extends {A} (f : list candidate * gmap string bool -> A
                                  -> list candidate * gmap string bool) (l : list A) :
  (forall st x, exists more, fst (f st x) = fst st ++ more) ->
  forall st, exists more, fst (fold_left f l st) = fst st ++ more.
Proof.
  intros Hf. induction l as [|x l IH]; intros st; simpl.
  - exists []. by rewrite app_nil_r.
  - destruct (IH (f st x)) as [more1 ->]. destruct (Hf st x) as [more2 ->].
    exists (more2 ++ more1). by rewrite app_assoc.
Qed.

Lemma addCandidate_fresh minLength maxLength start end_ source name pdbID :
  0 < start -> start <= end_ ->
  addCandidate minLength maxLength ([], ∅) start end_ source name pdbID
  = if lengthAllowed minLength maxLength (end_ - start + 1)
    then ([freshCandidate start end_ source name pdbID],
          {[ candidateKey start end_ := true ]})
    else ([], ∅).
Proof.
  intros Hs He. unfold addCandidate, lengthAllowed.
  destruct (Z.leb_spec start 0); [lia|]. destruct (Z.leb_spec end_ 0); [lia|].
  rewrite (Z.gtb_ltb start end_). destruct (Z.ltb_spec end_ start); [lia|]. simpl.
  destruct (end_ - start + 1 <? minLength); [done|]. simpl.
  destruct ((maxLength >? 0) && (end_ - start + 1 >? maxLength)); [done|]. simpl.
  unfold seenKey. rewrite lookup_empty. simpl. done.
Qed.

Lemma parseRegion_range L region r name :
  parseRegion L region = (Some r, name, None) ->
  name = "" /\ 0 < ri_Start r /\ ri_Start r <= ri_End r
  /\ ri_Name r = "" /\ ri_Type r = "user_region" /\ ri_Source r = "user".
Proof.
  unfold parseRegion.
  destruct (String.eqb region ""); [done|].
  destruct (lib_rangePattern L region) as [[m1 m2]|]; [|done].
  destruct (Z.leb_spec (fst (lib_Atoi L m1)) 0); [done|].
  destruct (Z.leb_spec (fst (lib_Atoi L m2)) 0); [done|].
  rewrite Z.gtb_ltb.
  destruct (Z.ltb_spec (fst (lib_Atoi L m2)) (fst (lib_Atoi L m1))); [done|].
  simpl. intros [= <- <-]. simpl. repeat split; lia || done.
Qed.

(** X25. A range that [parseRegion] accepts always passes the position
    checks of [addCandidate], whatever the length of the sequence: it
    comes without a region name, and [buildCandidates] puts it first, as the
    candidate of source "user", if its length is within the limits;
    otherwise no candidate has that source.  In both cases no ordered
    segment is proposed. *)
Theorem accepted_region_is_first_candidate (L : library) (region : string)
    (r : rangeInfo) (name sequence : string) (domains : list rangeInfo)
    (pdbRanges : list pdbRange) (disordered : list bool) (minLength maxLength : Z) :
  parseRegion L region = (Some r, name, None) ->
  name = "" /\ 1 <= ri_Start r <= ri_End r
  /\ (if lengthAllowed minLength maxLength (ri_End r - ri_Start r + 1)
      then head (buildCandidates (lib_ToLower L) sequence (Some r) name domains
                   pdbRanges disordered minLength maxLength)
           = Some (freshCandidate (ri_Start r) (ri_End r) "user" "user_region" "")
      else Forall (fun c => c_Source c <> "user")
             (buildCandidates (lib_ToLower L) sequence (Some r) name domains
                pdbRanges disordered minLength maxLength))
  /\ Forall (fun c => c_Source c <> "ordered")
       (buildCandidates (lib_ToLower L) sequence (Some r) name domains
          pdbRanges disordered minLength maxLength).
Proof.
  intros Hparse. apply parseRegion_range in Hparse as (-> & Hs & He & _).
  split; [done|]. split; [lia|].
  unfold buildCandidates. cbv zeta.
  rewrite (addCandidate_fresh minLength maxLength (ri_Start r) (ri_End r)) by lia.
  set (domainStep := fun (st : list candidate * gmap string bool) (domain : rangeInfo) =>
    if negb (String.eqb "" "")
       && negb (Contains (lib_ToLower L (ri_Name domain)) (lib_ToLower L ""))
    then st
    else addCandidate minLength maxLength st (ri_Start domain) (ri_End domain)
           "domain" (ri_Name domain) "").
  set (pdbStep := fun (st : list candidate * gmap string bool) (pdb : pdbRange) =>
    addCandidate minLength maxLength st (pdb_Start pdb) (pdb_End pdb)
      "pdb" (pdb_ID pdb) (pdb_ID pdb)).
  assert (Hd : forall st x, exists more, fst (domainStep st x) = fst st ++ more).
  { intros st x. unfold domainStep. simpl. apply addCandidate_extends. }
  assert (Hp : forall st x, exists more, fst (pdbStep st x) = fst st ++ more).
  { intros st x. apply addCandidate_extends. }
  assert (Hsrc : forall (Q : candidate -> Prop) st,
    Q (freshCandidate 0 0 "domain" "" "") -> Q (freshCandidate 0 0 "pdb" "" "") ->
    (forall c c', c_Source c = c_Source c' -> Q c -> Q c') ->
    Forall Q (fst st) ->
    Forall Q (fst (fold_left pdbStep pdbRanges (fold_left domainStep domains st)))).
  { intros Q st Hqd Hqp Hq Hst.
    apply (fold_left_inv_in (fun st => Forall Q (fst st))).
    - intros st' x _ Hst'. apply addCandidate_Forall; [done|].
      intros _. by apply (Hq (freshCandidate 0 0 "pdb" "" "")).
    - apply (fold_left_inv_in (fun st => Forall Q (fst st))); [|done].
      intros st' x _ Hst'. unfold domainStep. simpl.
      apply addCandidate_Forall; [done|].
      intros _. by apply (Hq (freshCandidate 0 0 "domain" "" "")). }
  split.
  - destruct (lengthAllowed minLength maxLength (ri_End r - ri_Start r + 1)).
    + destruct (fold_left_extends pdbStep pdbRanges Hp
                  (fold_left domainStep domains
                     ([freshCandidate (ri_Start r) (ri_End r) "user" "user_region" ""],
                      {[candidateKey (ri_Start r) (ri_End r) := true]})))
        as [more1 ->].
      destruct (fold_left_extends domainStep domains Hd
                  ([freshCandidate (ri_Start r) (ri_End r) "user" "user_region" ""],
                   {[candidateKey (ri_Start r) (ri_End r) := true]}))
        as [more2 ->].
      done.
    + apply (Hsrc (fun c => c_Source c <> "user")); try done.
      intros c c' Hcc. by rewrite Hcc.
  - apply (Hsrc (fun c => c_Source c <> "ordered")); try done.
    + intros c c' Hcc. by rewrite Hcc.
    + destruct (lengthAllowed _ _ _); simpl; [|done].
      constructor; [done|constructor].
Qed.

(** The region [120-260], with the default minimum length, on a protein
    with one domain. *)
Lemma accepted_region_is_first_candidate_witness :
  "" = ""
  /\ 1 <= 120 <= 260
  /\ head (buildCandidates (fun s => s) "" (Some (mkRange 120 260 "" "user_region" "user"))
             "" [mkRange 1 300 "Kinase" "Domain" "UniProt"] [] [] 100 0)
     = Some (freshCandidate 120 260 "user" "user_region" "")
  /\ Forall (fun c => c_Source c <> "ordered")
       (buildCandidates (fun s => s) "" (Some (mkRange 120 260 "" "user_region" "user"))
          "" [mkRange 1 300 "Kinase" "Domain" "UniProt"] [] [] 100 0).
Proof.
  apply (accepted_region_is_first_candidate plainLibrary "120-260"
           (mkRange 120 260 "" "user_region" "user") "" ""
           [mkRange 1 300 "Kinase" "Domain" "UniProt"] [] [] 100 0).
  reflexivity.
Defined.

(** ** A bare sequence *)

Lemma orderedRanges_all_false (n : nat) :
  (0 < n)%nat ->
  orderedRanges (replicate n false) = [mkRange 1 (Z.of_nat n) "" "ordered" "pLDDT"].
Proof.
  intros Hn. destruct n as [|n]; [lia|].
  rewrite orderedRanges_finish. simpl replicate.
  rewrite finishRuns_cons. cbv zeta. simpl.
  rewrite finishRuns_all_wanted by done. do 2 f_equal. lia.
Qed.

Lemma idx_replicate_false (n : nat) i : idx false (replicate n false) i = false.
Proof.
  unfold idx. destruct (i <? 0); [done|].
  destruct (replicate n false !! Z.to_nat i) as [b|] eqn:Hl; [|done].
  apply lookup_replicate in Hl as [-> _]. done.
Qed.

Lemma scoreCandidate_bare (n : nat) :
  (0 < n)%nat ->
  scoreCandidate (mkCtx (Z.of_nat n) (replicate n false) [] [] [] [] [] [] [])
    (freshCandidate 1 (Z.of_nat n) "ordered" "ordered_segment" "")
  = fullLength (Z.of_nat n).
Proof.
  intros Hn. unfold scoreCandidate, boundaryScore, freshCandidate, fullLength.
  cbn [c_Start c_End c_Source c_Name c_PDBID c_Evidence ctx_Disorder ctx_DomainRanges
       ctx_PLDDT ctx_PDBRanges ctx_HelixRanges ctx_StrandRanges ctx_ActiveSites
       ctx_PTMPositions].
  assert (Hs : isDisorderTransition 1 "start" (replicate n false) = true).
  { unfold isDisorderTransition, len. rewrite length_replicate.
    destruct (Z.eqb_spec (Z.of_nat n) 0); [lia|].
    rewrite Z.gtb_ltb. destruct (Z.ltb_spec (Z.of_nat n) 1); [lia|]. simpl.
    by rewrite idx_replicate_false. }
  assert (He : isDisorderTransition (Z.of_nat n) "end" (replicate n false) = true).
  { unfold isDisorderTransition, len. rewrite length_replicate.
    destruct (Z.eqb_spec (Z.of_nat n) 0); [lia|].
    destruct (Z.leb_spec (Z.of_nat n) 0); [lia|].
    rewrite Z.gtb_ltb, Z.ltb_irrefl. simpl.
    rewrite idx_replicate_false. by rewrite Z.eqb_refl. }
  rewrite Hs, He. reflexivity.
Qed.

(** X26. Given [--sequence] and [--name] and no [--region], [main] uses
    neither the network nor the cache and has no evidence but the
    sequence, so it ranks one construct at most: the whole sanitised
    sequence, with score 30 and both ends explained as disorder
    transitions, provided its length is within the limits.  The only
    warning is the notice about the missing predictors. *)
Theorem main_bare_sequence (L : library) (fs : fileSystem) (now : Z)
    (cacheDir : string) (fl : flags) :
  fl_sequence fl <> "" -> fl_name fl <> "" -> fl_region fl = "" ->
  mainGather L fs now cacheDir fl
  = (if String.eqb (sanitizeSequence (lib_ToUpper L) (fl_sequence fl)) ""
     then inl "sequence is empty after sanitization"
     else inr (mkGathered (bareInput (sanitizeSequence (lib_ToUpper L) (fl_sequence fl)))
                 (fl_name fl) emptyEntry [notIntegratedNotice]),
     fs, now)
  /\ mainRun L fs now cacheDir fl
     = if String.eqb (sanitizeSequence (lib_ToUpper L) (fl_sequence fl)) ""
       then Fatal "sequence is empty after sanitization"
       else if lengthAllowed (effectiveMinLength (fl_minLength fl)) (fl_maxLength fl)
                 (Z.of_nat (String.length
                    (sanitizeSequence (lib_ToUpper L) (fl_sequence fl))))
       then Ranked [fullLength (Z.of_nat (String.length
                      (sanitizeSequence (lib_ToUpper L) (fl_sequence fl))))]
       else Fatal "no construct candidates found with current filters".
Proof.
  intros Hseq Hname Hregion.
  assert (Hg : mainGather L fs now cacheDir fl
    = (if String.eqb (sanitizeSequence (lib_ToUpper L) (fl_sequence fl)) ""
       then inl "sequence is empty after sanitization"
       else inr (mkGathered (bareInput (sanitizeSequence (lib_ToUpper L) (fl_sequence fl)))
                   (fl_name fl) emptyEntry [notIntegratedNotice]),
       fs, now)).
  { unfold mainGather, gatherEvidence.
    destruct (String.eqb_spec (fl_sequence fl) ""); [done|].
    destruct (String.eqb_spec (fl_name fl) ""); [done|]. simpl.
    destruct (String.eqb (sanitizeSequence (lib_ToUpper L) (fl_sequence fl)) "");
      [done|].
    rewrite Hregion. reflexivity. }
  split; [exact Hg|].
  unfold mainRun. rewrite Hg. simpl.
  set (sequence := sanitizeSequence (lib_ToUpper L) (fl_sequence fl)).
  destruct (String.eqb_spec sequence "") as [He|He]; [done|].
  simpl. unfold mainRank. simpl. 
  destruct (String.eqb_spec sequence "") as [|_]; [done|].
  assert (Hn : (0 < String.length sequence)%nat).
  { destruct sequence; [done|simpl; lia]. }
  assert (Hctx : mainContext (bareInput sequence)
    = mkCtx (Z.of_nat (String.length sequence))
        (replicate (String.length sequence) false) [] [] [] [] [] [] []) by done.
  rewrite Hctx. unfold buildCandidates. simpl.
  change (mainDisorder (bareInput sequence))
    with (replicate (String.length sequence) false).
  rewrite orderedRanges_all_false by done. cbn [fold_left ri_Start ri_End].
  rewrite addCandidate_fresh by lia.
  replace (Z.of_nat (String.length sequence) - 1 + 1)
    with (Z.of_nat (String.length sequence)) by lia.
  destruct (lengthAllowed _ _ _); [|done].
  simpl. unfold scoreCandidates. simpl.
  rewrite scoreCandidate_bare by done. reflexivity.
Qed.

(** A sequence of 120 alanines given with spaces, without length flags. *)
Lemma main_bare_sequence_witness :
  mainGather plainLibrary emptyDisk 0 "/cache"
    (mkFlags "" (string_of_list_ascii (replicate 120 "A"%char ++ [" "%char])) "polyA" "" 0 0)
  = (inr (mkGathered (bareInput (string_of_list_ascii (replicate 120 "A"%char)))
            "polyA" emptyEntry [notIntegratedNotice]),
     emptyDisk, 0)
  /\ mainRun plainLibrary emptyDisk 0 "/cache"
       (mkFlags "" (string_of_list_ascii (replicate 120 "A"%char ++ [" "%char])) "polyA" "" 0 0)
     = Ranked [fullLength 120].
Proof.
  apply (main_bare_sequence plainLibrary emptyDisk 0 "/cache"
           (mkFlags "" (string_of_list_ascii (replicate 120 "A"%char ++ [" "%char]))
              "polyA" "" 0 0)).
  - vm_compute. discriminate.
  - discriminate.
  - reflexivity.
Defined.

(** ** UniProt mode *)

Lemma fetchAlphaFoldPLDDT_failure L fs now cacheDir accession :
  rs_err (fetchAlphaFoldPLDDT L fs now cacheDir accession) <> None ->
  rs_value (fetchAlphaFoldPLDDT L fs now cacheDir accession) = [].
Proof.
  unfold fetchAlphaFoldPLDDT.
  destruct (fo_result (predictionLookup L fs now cacheDir accession)) as [body [e1|]];
    [done|].
  destruct (normalizeJSON L body) as [normalized [e2|]]; [done|].
  destruct (lib_jsonPredictions L normalized) as [[|first rest]|e3]; [done| |done].
  destruct (len (af_Plddt first) >? 0); [done|].
  destruct (String.eqb (af_PdbURL first) ""); [done|].
  destruct (fo_result (modelLookup _ _ _ _ _ _)) as [pdbBody [e4|]]; [done|].
  by destruct (parsePLDDTFromPDB _ _ _ pdbBody) as [plddt [e5|]].
Qed.

Lemma fetchUniProtEntry_sequence L fs now cacheDir identifier :
  rs_err (fetchUniProtEntry L fs now cacheDir identifier) = None ->
  e_SequenceValue (rs_value (fetchUniProtEntry L fs now cacheDir identifier)) <> "".
Proof.
  unfold fetchUniProtEntry.
  destruct (fo_result (entryLookup L fs now cacheDir identifier)) as [body [e1|]].
  - destruct (fo_result (searchLookup _ _ _ _ _)) as [searchBody [e2|]]; [done|].
    destruct (extractFirstAccession L searchBody) as [accession [e3|]]; [done|].
    destruct (fo_result (entryLookup _ _ _ _ _)) as [entryBody [e4|]]; [done|].
    destruct (decodeUniProtEntry L entryBody) as [entry err] eqn:Hdec.
    apply decodeUniProtEntry_cases in Hdec. simpl. by intros ->.
  - destruct (decodeUniProtEntry L body) as [entry err] eqn:Hdec.
    apply decodeUniProtEntry_cases in Hdec. simpl. by intros ->.
Qed.

(** X27. Given [--uniprot] and no [--sequence], [main] stops only when the
    entry cannot be fetched, when its sequence sanitises to nothing or when
    the region is malformed.  A failure of the AlphaFold resolver never
    stops it: the run goes on without a confidence profile and the error
    is among the warnings.  The evidence is what the extractors read from
    the entry that was fetched, whose sequence is not empty. *)
Theorem main_uniprot_mode (L : library) (fs : fileSystem) (now : Z)
    (cacheDir : string) (fl : flags) :
  fl_sequence fl = "" -> fl_uniprot fl <> "" ->
  let r := fetchUniProtEntry L fs now cacheDir (fl_uniprot fl) in
  let af := fetchAlphaFoldPLDDT L (rs_fs r) (rs_now r) cacheDir
              (e_PrimaryAccession (rs_value r)) in
  match fst (fst (mainGather L fs now cacheDir fl)) with
  | inl message =>
      (exists e, rs_err r = Some e /\ message = "failed to fetch UniProt entry: " +:+ e)
      \/ (rs_err r = None
          /\ (message = "sequence is empty after sanitization"
              \/ message
                 = "invalid --region: region range must be start-end with start <= end"))
  | inr g =>
      rs_err r = None
      /\ g_entry g = rs_value r
      /\ e_SequenceValue (g_entry g) <> ""
      /\ in_sequence (g_input g)
         = sanitizeSequence (lib_ToUpper L) (e_SequenceValue (g_entry g))
      /\ in_sequence (g_input g) <> ""
      /\ in_plddt (g_input g)
         = (if String.eqb (e_PrimaryAccession (g_entry g)) "" then [] else rs_value af)
      /\ (forall e, e_PrimaryAccession (g_entry g) <> "" -> rs_err af = Some e ->
            in_plddt (g_input g) = [] /\ e ∈ g_warnings g)
      /\ in_domains (g_input g)
         = fs_domains (extractFeatures (lib_ToUpper L) (e_Features (g_entry g)))
      /\ in_pdbRanges (g_input g)
         = extractPDBRanges (lib_ToUpper L) (lib_TrimSpace L) (atoiOk L)
             (e_CrossReferences (g_entry g))
  end.
Proof.
  intros Hseq Hid r af. unfold mainGather. rewrite Hseq. simpl.
  destruct (String.eqb_spec (fl_uniprot fl) ""); [done|]. simpl.
  fold r. pose proof (fetchUniProtEntry_sequence L fs now cacheDir (fl_uniprot fl)) as Hnonempty.
  fold r in Hnonempty.
  destruct (rs_err r) as [e|] eqn:Herr.
  { simpl. left. by exists e. }
  specialize (Hnonempty eq_refl).
  unfold gatherEvidence.
  destruct (String.eqb_spec (sanitizeSequence (lib_ToUpper L) (e_SequenceValue (rs_value r))) "")
    as [Hempty|Hfull].
  { simpl. right. split; [done|]. by left. }
  destruct (String.eqb_spec (e_PrimaryAccession (rs_value r)) "") as [Hacc|Hacc]; simpl.
  - destruct (parseRegion L (fl_region fl)) as [[regionRange regionName] [err|]] eqn:Hregion;
      simpl.
    + right. split; [done|]. right.
      unfold parseRegion in Hregion.
      destruct (String.eqb (fl_region fl) ""); [done|].
      destruct (lib_rangePattern L (fl_region fl)) as [[m1 m2]|]; [|done].
      destruct ((fst (lib_Atoi L m1) <=? 0) || (fst (lib_Atoi L m2) <=? 0)
                || (fst (lib_Atoi L m1) >? fst (lib_Atoi L m2))); [|done].
      by injection Hregion as _ _ <-.
    + rewrite Hacc. simpl. repeat split; try done.
  - fold af.
    destruct (parseRegion L (fl_region fl)) as [[regionRange regionName] [err|]] eqn:Hregion;
      simpl.
    + right. split; [done|]. right.
      unfold parseRegion in Hregion.
      destruct (String.eqb (fl_region fl) ""); [done|].
      destruct (lib_rangePattern L (fl_region fl)) as [[m1 m2]|]; [|done].
      destruct ((fst (lib_Atoi L m1) <=? 0) || (fst (lib_Atoi L m2) <=? 0)
                || (fst (lib_Atoi L m1) >? fst (lib_Atoi L m2))); [|done].
      by injection Hregion as _ _ <-.
    + destruct (String.eqb_spec (e_PrimaryAccession (rs_value r)) ""); [done|].
      repeat split; try done.
      * apply fetchAlphaFoldPLDDT_failure. fold af. congruence.
      * match goal with H : rs_err af = Some _ |- _ => rewrite H end.
        destruct ((len (rs_value af) >? 0) && _);
          rewrite ?elem_of_app, ?list_elem_of_singleton; tauto.
Qed.

(** An accession that resolves to an entry of five residues while the
    AlphaFold answer cannot be decoded. *)
Lemma main_uniprot_mode_witness :
  exists g,
    fst (fst (mainGather entryLibrary emptyDisk 0 "/cache" (mkFlags "P04637" "" "" "" 0 0)))
    = inr g
    /\ in_sequence (g_input g) = "MEEPQ"
    /\ in_plddt (g_input g) = []
    /\ "unexpected end of JSON input" ∈ g_warnings g.
Proof.
  pose proof (main_uniprot_mode entryLibrary emptyDisk 0 "/cache"
                (mkFlags "P04637" "" "" "" 0 0) eq_refl) as H.
  cbv zeta in H.
  destruct (fst (fst (mainGather entryLibrary emptyDisk 0 "/cache"
                        (mkFlags "P04637" "" "" "" 0 0)))) as [message|g] eqn:Hg.
  { vm_compute in Hg. discriminate Hg. }
  exists g. destruct H as (_ & Hentry & _ & Hseq & _ & _ & Hwarn & _); [discriminate|].
  split; [done|].
  assert (He : g_entry g = mkUniProtEntry "P04637" "P53_HUMAN" "" [] "MEEPQ" 5 [] [] []).
  { rewrite Hentry. vm_compute. reflexivity. }
  rewrite He in Hseq, Hwarn.
  split; [rewrite Hseq; reflexivity|].
  apply Hwarn; [discriminate|]. vm_compute. reflexivity.
Defined.

(** ** Statistics of a construct *)

Lemma plddtStatsLoop_window plddt : forall fuel i endIdx sum disorder count,
  0 <= i -> endIdx < len plddt -> Z.of_nat fuel = endIdx - i + 1 ->
  plddtStatsLoop fuel plddt i endIdx sum disorder count
  = (fold_left PrimFloat.add (take fuel (drop (Z.to_nat i) plddt)) sum,
     disorder + len (List.filter (fun v => PrimFloat.ltb v 50)
                       (take fuel (drop (Z.to_nat i) plddt))),
     count + Z.of_nat fuel).
Proof.
  induction fuel as [|fuel IH]; intros i endIdx sum disorder count Hi He Hf.
  { simpl. unfold len. simpl. do 2 f_equal; lia. }
  cbn [plddtStatsLoop].
  destruct (Z.leb_spec i endIdx); [|lia].
  rewrite IH by lia.
  assert (Hlook : exists v, plddt !! Z.to_nat i = Some v).
  { apply lookup_lt_is_Some. unfold len in He. lia. }
  destruct Hlook as [v Hv].
  rewrite (drop_S plddt v (Z.to_nat i)) by done.
  replace (Z.to_nat (i + 1)) with (S (Z.to_nat i)) by lia.
  unfold idx. destruct (Z.ltb_spec i 0); [lia|]. rewrite Hv. simpl.
  destruct (PrimFloat.ltb v 50); unfold len; simpl length;
    repeat (f_equal; try lia).
Qed.

(** X28. The statistics of a construct are taken over the residues of the
    construct that have a confidence value: the average is [avgWindow]
    over them, rounded to one decimal, and the disorder fraction the share
    of values below 50 among them, rounded to two decimals; both are 0 when
    no residue of the construct has a value. *)
Theorem plddtStats_of_window (Round : float -> float) (plddt : list float)
    (start end_ : Z) :
  plddtStats Round plddt start end_
  = if len (windowValues plddt (start - 1) (end_ - 1)) =? 0 then (0%float, 0%float)
    else
      (PrimFloat.div
         (Round (PrimFloat.mul (avgWindow plddt (start - 1) (end_ - 1)) 10)) 10,
       PrimFloat.div
         (Round (PrimFloat.mul
            (PrimFloat.div
               (float64 (len (List.filter (fun v => PrimFloat.ltb v 50)
                                (windowValues plddt (start - 1) (end_ - 1)))))
               (float64 (len (windowValues plddt (start - 1) (end_ - 1)))))
            100)) 100).
Proof.
  unfold plddtStats.
  set (s := max 0 (start - 1)). set (e := min (len plddt - 1) (end_ - 1)).
  assert (Hs0 : 0 <= s).
  { unfold s, max. rewrite Z.gtb_ltb. destruct (Z.ltb_spec (start - 1) 0); lia. }
  assert (He0 : e < len plddt).
  { unfold e, min. destruct (Z.ltb_spec (len plddt - 1) (end_ - 1)); lia. }
  assert (He1 : e <= end_ - 1).
  { unfold e, min. destruct (Z.ltb_spec (len plddt - 1) (end_ - 1)); lia. }
  assert (Hs1 : start - 1 <= s).
  { unfold s, max. rewrite Z.gtb_ltb. destruct (Z.ltb_spec (start - 1) 0); lia. }
  assert (Hw : take (Z.to_nat (e - s + 1)) (drop (Z.to_nat s) plddt)
               = windowValues plddt (start - 1) (end_ - 1)) by reflexivity.
  destruct (Z.le_gt_cases s e) as [Hc|Hc].
  - rewrite plddtStatsLoop_window by lia. rewrite !Hw.
    assert (Hlen : len (windowValues plddt (start - 1) (end_ - 1)) = e - s + 1).
    { rewrite <- Hw. unfold len in *.
      rewrite length_take, length_drop. clearbody s e. lia. }
    rewrite Z2Nat.id by lia. rewrite !Z.add_0_l, <- Hlen.
    destruct (Z.eqb_spec (len (windowValues plddt (start - 1) (end_ - 1))) 0); [lia|].
    do 3 f_equal.
    unfold avgWindow. fold s. fold e.
    destruct (Z.eqb_spec (len plddt) 0); [lia|].
    rewrite !Z.gtb_ltb.
    destruct (Z.ltb_spec (end_ - 1) (start - 1)); [lia|]. simpl.
    destruct (Z.ltb_spec e s); [lia|].
    rewrite avgWindowLoop_sum by lia. rewrite Hw.
    rewrite Z2Nat.id by lia. rewrite Z.add_0_l, <- Hlen.
    by destruct (Z.eqb_spec (len (windowValues plddt (start - 1) (end_ - 1))) 0).
  - replace (Z.to_nat (e - s + 1)) with O by lia. simpl.
    assert (Hlen : len (windowValues plddt (start - 1) (end_ - 1)) = 0).
    { rewrite <- Hw. replace (Z.to_nat (e - s + 1)) with O by lia. done. }
    by rewrite Hlen.
Qed.

(** ** The side of a boundary *)

(** X29. [hasStructuredSide] looks at the ten residues from the boundary
    inwards, the boundary residue included: for a start boundary at residue
    [pos] it tells whether residues [pos] to [pos + 9] average above 70,
    for an end boundary whether residues [pos - 9] to [pos] do; residues
    outside the profile do not count, and without a profile it is false. *)
Theorem hasStructuredSide_window (pos : Z) (plddt : list float) :
  hasStructuredSide pos "start" plddt
  = PrimFloat.ltb 70 (residueWindowAvg plddt pos (pos + 9))
  /\ hasStructuredSide pos "end" plddt
     = PrimFloat.ltb 70 (residueWindowAvg plddt (pos - 9) pos)
  /\ (forall side, hasStructuredSide pos side [] = false).
Proof.
  unfold hasStructuredSide, residueWindowAvg. simpl.
  rewrite avgWindow_clip_l, avgWindow_clip_r.
  replace (pos + 9 - 1) with (pos + 8) by lia.
  replace (pos - 9 - 1) with (pos - 10) by lia.
  split; [|split].
  - destruct (Z.eqb_spec (len plddt) 0) as [H0|H0]; [|done].
    assert (plddt = []) as -> by (destruct plddt; [done|unfold len in H0; simpl in H0; lia]).
    reflexivity.
  - destruct (Z.eqb_spec (len plddt) 0) as [H0|H0]; [|done].
    assert (plddt = []) as -> by (destruct plddt; [done|unfold len in H0; simpl in H0; lia]).
    reflexivity.
  - done.
Qed.

(** ** The evidence of a ranked candidate *)

Lemma scoreCandidates_Forall_from (P Q : candidate -> Prop) ctx cands minLength maxLength :
  Forall P cands -> (forall c, P c -> Q (scoreCandidate ctx c)) ->
  Forall Q (scoreCandidates cands ctx minLength maxLength).
Proof.
  intros HP HQ. unfold scoreCandidates, sortSliceStable.
  apply insertionSort_Forall, Forall_map.
  eapply Forall_impl; [exact HP|]. exact HQ.
Qed.

Lemma scoreCandidate_evidence ctx start end_ source name pdbID :
  (pdbID <> "" -> source = "pdb") ->
  evidenceOfSource (scoreCandidate ctx (freshCandidate start end_ source name pdbID)).
Proof.
  intros Hpdb. unfold evidenceOfSource, scoreCandidate, freshCandidate.
  cbn [c_Start c_End c_Source c_Name c_PDBID c_Evidence].
  destruct (boundaryScore start "start" ctx) as [s rs].
  destruct (boundaryScore end_ "end" ctx) as [e re].
  cbn [c_Start c_End c_Source c_Name c_PDBID c_Evidence].
  destruct (String.eqb_spec name "") as [->|Hn];
    destruct (String.eqb_spec source "domain") as [->|Hs];
    destruct (String.eqb_spec pdbID "") as [->|Hp]; simpl;
    repeat split; try done; by apply Hpdb.
Qed.

(** X30. In the shortlist of [main] the evidence of a candidate follows
    from its source: the PDB match is the structure id, which only
    candidates proposed from a PDB range have; the domain is the name of
    the domain for candidates proposed from a domain and empty for all
    others; and the confidence statistics are still 0. *)
Theorem ranked_evidence_follows_source (ToLower : string -> string)
    (inp : evidenceInput) (minLength maxLength : Z) :
  match mainRank ToLower inp minLength maxLength with
  | Fatal _ => True
  | Ranked top => Forall evidenceOfSource top
  end.
Proof.
  unfold mainRank.
  destruct (String.eqb (in_sequence inp) ""); [done|].
  destruct (len _ =? 0); [done|].
  apply rankTop_Forall.
  eapply scoreCandidates_Forall_from; [apply buildCandidates_origin|].
  intros c [(r & _ & ->)|[(d & _ & _ & ->)|[(p & _ & ->)|(_ & _ & seg & _ & ->)]]];
    apply scoreCandidate_evidence; done.
Qed.
